(** * cbs-match: the weekly matching engine, embedded and verified

    A shallow embedding of the matching core of the API service:

    - [app/services/state_machine.py]   assignment life cycle
    - [app/services/matching.py]        scorer, candidate pairs, stable matching
    - [app/traits.py]                   trait computation
    - [app/services/survey_fingerprint.py], [survey_reconciliation.py]

    Python values are modelled by the type [pyval] (the JSON fragment the code
    handles), exceptions by the [result] monad, dictionaries that are only
    read by association lists, dictionaries the algorithms update by [gmap].
    Floats are modelled by exact canonical rationals [Qc]: IEEE rounding and
    the special values (NaN, infinities) are outside the model. *)

From Stdlib Require Import ZArith QArith Qcanon Lia Lqa Ascii.
From stdpp Require Import base numbers option list strings gmap sorting.

Local Open Scope Z_scope.
Local Open Scope Qc_scope.
Local Open Scope stdpp_scope.

(** ** Python values and exceptions *)

Inductive exn :=
| TypeError
| AttributeError
| KeyError
| ValueError (msg : string).

Inductive result (A : Type) :=
| Ok (a : A)
| Raise (e : exn).
Arguments Ok {A} a.
Arguments Raise {A} e.

Definition rbind {A B : Type} (m : result A) (k : A → result B) : result B :=
  match m with
  | Ok a => k a
  | Raise e => Raise e
  end.

#[global] Instance result_ret : MRet result := λ A a, Ok a.
#[global] Instance result_bind : MBind result := λ A B k m, rbind m k.

#[warnings="-register-all"]
Inductive pyval :=
| PNone
| PBool (b : bool)
| PNum (q : Qc)
| PStr (s : string)
| PList (l : list pyval)
| PDict (d : list (string * pyval)).

(** A dictionary that is only read: the first binding of a key is its value. *)
Fixpoint dict_get {A : Type} (d : list (string * A)) (k : string) : option A :=
  match d with
  | [] => None
  | (k', v) :: d' => if decide (k' = k) then Some v else dict_get d' k
  end.

Definition dict_has {A : Type} (d : list (string * A)) (k : string) : bool :=
  bool_decide (is_Some (dict_get d k)).

(** Decimal literal [n / d]. *)
Definition dec (n : Z) (d : positive) : Qc := Q2Qc (n # d).

(** [bool(v)]. *)
Definition truthy (v : pyval) : bool :=
  match v with
  | PNone => false
  | PBool b => b
  | PNum q => negb (bool_decide (q = 0))
  | PStr s => negb (bool_decide (s = ""))
  | PList l => negb (bool_decide (l = []))
  | PDict d => match d with [] => false | _ => true end
  end.

(** [isinstance(v, dict)]. *)
Definition is_dict (v : pyval) : bool :=
  match v with
  | PDict _ => true
  | _ => false
  end.

(** [v or w]. *)
Definition py_or (v w : pyval) : pyval := if truthy v then v else w.

(** [v.get(k, default)]: only dictionaries have the method. *)
Definition py_get (v : pyval) (k : string) (dflt : pyval) : result pyval :=
  match v with
  | PDict d => Ok (default dflt (dict_get d k))
  | _ => Raise AttributeError
  end.

(** ** Assignment state machine ([app/services/state_machine.py]) *)

(** [datetime] values are instants on the time line. *)
Definition datetime := Z.

Definition transition_status
    (current action : string) (now expires_at : datetime) : string :=
  if decide (current = "no_match") then "no_match"
  else if (bool_decide (current = "proposed") || bool_decide (current = "revealed"))
          && bool_decide (expires_at ≤ now)%Z then "expired"
  else if decide (action = "view") then
    if decide (current = "proposed") then "revealed" else current
  else if decide (action = "accept") then
    if decide (current = "revealed") then "accepted"
    else if decide (current = "accepted") then "accepted"
    else current
  else if decide (action = "decline") then
    if decide (current = "revealed") then "declined"
    else if decide (current = "declined") then "declined"
    else current
  else if decide (action = "expire") then
    if bool_decide (current = "proposed") || bool_decide (current = "revealed")
    then "expired" else current
  else current.

Section Engine.

(** Library functions of the Python runtime that the model takes as given. *)
Variable fsqrt : Qc → Qc.                    (* [x ** 0.5] *)
Variable float_of_str : string → option Qc.  (* [float(s)] on a string; [None] is ValueError *)
Variable py_repr : pyval → string.           (* [str(v)] for a value that is not a string *)

(** ** Numeric helpers *)

Definition py_str (v : pyval) : string :=
  match v with
  | PStr s => s
  | _ => py_repr v
  end.

(** [max(a, b)] and [min(a, b)] return the first argument on ties. *)
Definition py_max (a b : Qc) : Qc := if decide (a < b) then b else a.
Definition py_min (a b : Qc) : Qc := if decide (b < a) then b else a.
Definition py_abs (a : Qc) : Qc := if decide (a < 0) then - a else a.

(** Nearest integer, ties to even. *)
Definition round_half_even (x : Qc) : Z :=
  let n := Qnum x in
  let d := Z.pos (Qden x) in
  let f := (n / d)%Z in
  let r := (n mod d)%Z in
  if decide (2 * r < d)%Z then f
  else if decide (d < 2 * r)%Z then (f + 1)%Z
  else if Z.even f then f else (f + 1)%Z.

(** [round(x, 6)]. *)
Definition round6 (x : Qc) : Qc :=
  Q2Qc (round_half_even (x * Q2Qc (1000000 # 1)) # 1000000).

(** ** Scorer ([app/services/matching.py]) *)

Definition _to_float (value : pyval) (dflt : Qc) : Qc :=
  match value with
  | PNone => dflt
  | PBool b => if b then 1 else 0
  | PNum q => q
  | PStr s => default dflt (float_of_str s)
  | PList _ | PDict _ => dflt
  end.

Fixpoint is_substring (key s : string) : bool :=
  String.prefix key s ||
  match s with
  | EmptyString => false
  | String _ s' => is_substring key s'
  end.

Definition is_str (key : string) (v : pyval) : bool :=
  match v with
  | PStr t => bool_decide (t = key)
  | _ => false
  end.

(** [key in container]. *)
Definition py_contains (container : pyval) (key : string) : result bool :=
  match container with
  | PDict d => Ok (dict_has d key)
  | PStr s => Ok (is_substring key s)
  | PList l => Ok (existsb (is_str key) l)
  | PNone | PBool _ | PNum _ => Raise TypeError
  end.

Definition empty_dict : pyval := PDict [].

Definition _kids_hard_mismatch (k1 k2 : string) : bool :=
  if bool_decide (k1 = "") || bool_decide (k2 = "") then false
  else if bool_decide (k1 = "unsure") || bool_decide (k2 = "unsure") then false
  else
    let hard_yes k := bool_decide (k = "yes") || bool_decide (k = "probably") in
    let hard_no k := bool_decide (k = "no") || bool_decide (k = "probably_not") in
    (hard_yes k1 && hard_no k2) || (hard_yes k2 && hard_no k1).

Definition _sim (a b : Qc) : Qc := py_max 0 (1 - py_abs (a - b)).

Definition _comp (a b : Qc) : Qc :=
  let base := py_max 0 (1 - py_abs ((a + b) - 1)) in
  if decide (dec 75 100 < py_abs (a - b)) then base * dec 75 100 else base.

Definition _dim (traits : pyval) (key : string) : result Qc :=
  dims ← py_get (py_or traits empty_dict) "dimensions" PNone;
  v ← py_get (py_or dims empty_dict) key PNone;
  Ok (_to_float v (dec 5 10)).

Definition _life (traits : pyval) (key : string) (dflt : pyval) : result pyval :=
  life ← py_get (py_or traits empty_dict) "life" PNone;
  let life := py_or life empty_dict in
  has ← py_contains life key;
  if has : bool then py_get life key PNone
  else
    legacy ← py_get (py_or traits empty_dict) "life_constraints" PNone;
    let legacy := py_or legacy empty_dict in
    if decide (key = "kids_intent") then py_get legacy "kids_preference" dflt
    else if decide (key = "kids_timeline") then py_get legacy "kids_timeline" dflt
    else Ok dflt.

Definition _vector_similarity (a b : list Qc) : Qc :=
  if bool_decide (a = []) || bool_decide (b = [])
     || negb (bool_decide (length a = length b)) then 0
  else
    let sq := foldl Qcplus 0 (zip_with (λ x y, (x - y) * (x - y)) a b) in
    let max_dist := fsqrt (Qc_of_Z (Z.of_nat (length a))) in
    py_max 0 (1 - fsqrt sq / max_dist).

Abbreviation config := (gmap string Qc).

Definition cfg_get (cfg : config) (key : string) (dflt : Qc) : Qc :=
  default dflt (cfg !! key).

Definition modifier_mapping : list (string * string) :=
  [("marriage", "LA_MARRIAGE_01"); ("nyc", "LA_LOC_01");
   ("career_intensity", "LA_CAREER_01"); ("faith", "LA_FAITH_01");
   ("social_lifestyle", "LA_LIFESTYLE_01")].

(** One iteration of the loop of [_modifier_penalty]: the factor
    [max(0.0, 1.0 - penalty)] of one life-preference axis. *)
Definition modifier_factor (life_u life_v mods_u mods_v : pyval) (scale cap : Qc)
    (mod_key life_key : string) : result Qc :=
  pu ← py_get life_u life_key PNone;
  pv ← py_get life_v life_key PNone;
  let mismatch := py_abs (_to_float pu (dec 5 10) - _to_float pv (dec 5 10)) in
  u_mod ← py_get mods_u mod_key PNone;
  let u_mod := py_or u_mod empty_dict in
  v_mod ← py_get mods_v mod_key PNone;
  let v_mod := py_or v_mod empty_dict in
  iu ← py_get u_mod "importance" PNone;
  iv ← py_get v_mod "importance" PNone;
  let importance := (_to_float iu (dec 5 10) + _to_float iv (dec 5 10)) / 2 in
  fu ← py_get u_mod "flexibility" PNone;
  fv ← py_get v_mod "flexibility" PNone;
  let flexibility := (_to_float fu (dec 5 10) + _to_float fv (dec 5 10)) / 2 in
  let penalty := mismatch * importance * (1 - flexibility) * scale in
  let penalty := py_min cap (py_max 0 penalty) in
  Ok (py_max 0 (1 - penalty)).

Fixpoint modifier_loop (life_u life_v mods_u mods_v : pyval) (scale cap : Qc)
    (mapping : list (string * string)) (multiplier : Qc)
    (penalties : list (string * Qc)) : result (Qc * list (string * Qc)) :=
  match mapping with
  | [] => Ok (multiplier, penalties)
  | (mod_key, life_key) :: rest =>
      f ← modifier_factor life_u life_v mods_u mods_v scale cap mod_key life_key;
      modifier_loop life_u life_v mods_u mods_v scale cap rest
        (multiplier * f) (penalties ++ [(mod_key, round6 f)])
  end.

Definition _modifier_penalty (u_traits v_traits : pyval) (cfg : config)
    : result (Qc * list (string * Qc)) :=
  life_u ← py_get (py_or u_traits empty_dict) "life_preferences" PNone;
  let life_u := py_or life_u empty_dict in
  life_v ← py_get (py_or v_traits empty_dict) "life_preferences" PNone;
  let life_v := py_or life_v empty_dict in
  mods_u ← py_get (py_or u_traits empty_dict) "modifiers" PNone;
  let mods_u := py_or mods_u empty_dict in
  mods_v ← py_get (py_or v_traits empty_dict) "modifiers" PNone;
  let mods_v := py_or mods_v empty_dict in
  let scale := cfg_get cfg "modifier_penalty_scale" (dec 35 100) in
  let cap := cfg_get cfg "modifier_penalty_cap" (dec 6 10) in
  '(multiplier, penalties) ←
     modifier_loop life_u life_v mods_u mods_v scale cap modifier_mapping 1 [];
  Ok (round6 (py_max 0 (py_min 1 multiplier)), penalties).

Record score_breakdown := {
  kids_hard_check : bool;
  gates : list string;
  categories : list (string * Qc);
  components : list (string * Qc);
  penalties : list (string * Qc);
  (* the remaining scalar entries: [base_score] and, on the legacy path,
     [big5_similarity], [conflict_similarity], [modifier_multiplier] *)
  extras : list (string * Qc)
}.

Record compatibility := {
  score_total : Qc;
  breakdown : score_breakdown
}.

Definition gated (check : bool) (gate : string) : compatibility :=
  {| score_total := 0;
     breakdown := {| kids_hard_check := check; gates := [gate]; categories := [];
                     components := []; penalties := []; extras := [] |} |}.

Definition is_yes (k : string) : bool :=
  bool_decide (k = "yes") || bool_decide (k = "probably").

Definition big5_keys : list string :=
  ["openness"; "conscientiousness"; "extraversion"; "agreeableness"; "neuroticism"].

Definition conflict_keys : list string :=
  ["repair_willingness"; "escalation"; "cooldown_need"; "grudge_tendency"].

(** The list [[_to_float(d.get(k), 0.5) for k in keys]]. *)
Fixpoint float_vector (d : pyval) (keys : list string) : result (list Qc) :=
  match keys with
  | [] => Ok []
  | k :: rest =>
      v ← py_get d k PNone;
      vs ← float_vector d rest;
      Ok (_to_float v (dec 5 10) :: vs)
  end.

(** The branch "Legacy v1/v2 trait compatibility path". *)
Definition legacy_compatibility (u_traits v_traits : pyval) (cfg : config)
    : result compatibility :=
  u_big5 ← py_get (py_or u_traits empty_dict) "big5" PNone;
  v_big5 ← py_get (py_or v_traits empty_dict) "big5" PNone;
  u_conf ← py_get (py_or u_traits empty_dict) "conflict_repair" PNone;
  v_conf ← py_get (py_or v_traits empty_dict) "conflict_repair" PNone;
  big5_vec_u ← float_vector (py_or u_big5 empty_dict) big5_keys;
  big5_vec_v ← float_vector (py_or v_big5 empty_dict) big5_keys;
  conflict_vec_u ← float_vector (py_or u_conf empty_dict) conflict_keys;
  conflict_vec_v ← float_vector (py_or v_conf empty_dict) conflict_keys;
  let big5_similarity := _vector_similarity big5_vec_u big5_vec_v in
  let conflict_similarity := _vector_similarity conflict_vec_u conflict_vec_v in
  '(modifier_multiplier, _) ← _modifier_penalty u_traits v_traits cfg;
  let base_score :=
    cfg_get cfg "big5_weight" (dec 7 10) * big5_similarity
    + cfg_get cfg "conflict_weight" (dec 3 10) * conflict_similarity in
  let total := py_max 0 (py_min 1 (base_score * modifier_multiplier)) in
  Ok {| score_total := round6 total;
        breakdown := {|
          kids_hard_check := true;
          gates := [];
          categories := [];
          components := [];
          penalties := [];
          extras := [("big5_similarity", round6 big5_similarity);
                     ("conflict_similarity", round6 conflict_similarity);
                     ("modifier_multiplier", round6 modifier_multiplier);
                     ("base_score", round6 base_score)] |} |}.

(** The penalty steps: [total *= m] and an entry appended to
    [penalties_applied] when the condition holds. *)
Definition apply_penalty (cond : bool) (name : string) (m : Qc)
    (acc : Qc * list (string * Qc)) : Qc * list (string * Qc) :=
  if cond then (acc.1 * m, acc.2 ++ [(name, m)]) else acc.

(** The branch "Component scores". *)
Definition current_compatibility (u_traits v_traits : pyval) (cfg : config)
    (kids_u kids_v : string) (escalation_u escalation_v : Qc)
    : result compatibility :=
  wu ← _dim u_traits "worldview_alignment"; wv ← _dim v_traits "worldview_alignment";
  let values_similarity := _sim wu wv in
  su ← _dim u_traits "stability"; sv ← _dim v_traits "stability";
  let emo_similarity := _sim su sv in
  ru ← _dim u_traits "reassurance_need"; iv ← _dim v_traits "independence_need";
  rv ← _dim v_traits "reassurance_need"; iu ← _dim u_traits "independence_need";
  let reassurance_vs_independence := (_comp ru iv + _comp rv iu) / 2 in
  tu ← _dim u_traits "text_sensitivity"; tv ← _dim v_traits "text_sensitivity";
  let text_similarity := _sim tu tv in
  du ← _dim u_traits "drama_avoidance"; dv ← _dim v_traits "drama_avoidance";
  let drama_similarity := _sim du dv in
  bu ← _dim u_traits "testing_behavior"; bv ← _dim v_traits "testing_behavior";
  let testing_similarity := _sim bu bv in
  au ← _dim u_traits "approach"; xv ← _dim v_traits "withdrawal";
  av ← _dim v_traits "approach"; xu ← _dim u_traits "withdrawal";
  let approach_withdrawal := (_comp au xv + _comp av xu) / 2 in
  let escalation_risk := 1 - py_max escalation_u escalation_v in
  pu ← _dim u_traits "repair_belief"; pv ← _dim v_traits "repair_belief";
  let repair_similarity := _sim pu pv in
  cu ← _dim u_traits "structure"; cv ← _dim v_traits "structure";
  let structure_similarity := _sim cu cv in
  eu ← _dim u_traits "extraversion"; ev ← _dim v_traits "extraversion";
  let extraversion_comp := _comp eu ev in
  nu ← _dim u_traits "conscientiousness"; nv ← _dim v_traits "conscientiousness";
  let conscientiousness_comp := _comp nu nv in
  lu ← _dim u_traits "relocation_openness"; lv ← _dim v_traits "relocation_openness";
  let relocation_similarity := _sim lu lv in
  ku ← _dim u_traits "career_intensity"; kv ← _dim v_traits "career_intensity";
  let career_similarity := _sim ku kv in
  mu ← _dim u_traits "define_intentions_early"; mv ← _dim v_traits "define_intentions_early";
  let intentions_similarity := _sim mu mv in
  kids_timeline_score ←
    (if is_yes kids_u && is_yes kids_v then
       yu ← _dim u_traits "kids_timeline_value"; yv ← _dim v_traits "kids_timeline_value";
       Ok (_sim yu yv)
     else Ok (dec 5 10));
  let values_bucket := values_similarity in
  let attachment_bucket :=
    (dec 10 100 * reassurance_vs_independence + dec 6 100 * text_similarity
     + dec 3 100 * drama_similarity + dec 3 100 * testing_similarity) / dec 22 100 in
  let conflict_bucket :=
    (dec 8 100 * approach_withdrawal + dec 8 100 * escalation_risk
     + dec 4 100 * repair_similarity + dec 4 100 * structure_similarity) / dec 24 100 in
  let personality_bucket :=
    (dec 6 100 * extraversion_comp + dec 6 100 * conscientiousness_comp) / dec 12 100 in
  let life_bucket :=
    (dec 3 100 * relocation_similarity + dec 3 100 * career_similarity
     + dec 2 100 * intentions_similarity) / dec 8 100 in
  let total :=
    dec 22 100 * values_similarity
    + dec 12 100 * emo_similarity
    + dec 10 100 * reassurance_vs_independence
    + dec 6 100 * text_similarity
    + dec 3 100 * drama_similarity
    + dec 3 100 * testing_similarity
    + dec 8 100 * approach_withdrawal
    + dec 8 100 * escalation_risk
    + dec 4 100 * repair_similarity
    + dec 4 100 * structure_similarity
    + dec 6 100 * extraversion_comp
    + dec 6 100 * conscientiousness_comp
    + dec 3 100 * relocation_similarity
    + dec 3 100 * career_similarity
    + dec 2 100 * intentions_similarity in
  let esc_thr := cfg_get cfg "ESCALATION_PENALTY_THRESHOLD" (dec 7 10) in
  let acc :=
    apply_penalty (bool_decide (esc_thr < escalation_u) && bool_decide (esc_thr < escalation_v))
      "two_escalators" (cfg_get cfg "ESCALATION_PENALTY_MULTIPLIER" (dec 75 100))
      (total, []) in
  withdrawal_u ← _dim u_traits "withdrawal";
  withdrawal_v ← _dim v_traits "withdrawal";
  let wd_thr := cfg_get cfg "WITHDRAWAL_PENALTY_THRESHOLD" (dec 7 10) in
  let acc :=
    apply_penalty (bool_decide (wd_thr < withdrawal_u) && bool_decide (wd_thr < withdrawal_v))
      "two_withdrawers" (cfg_get cfg "WITHDRAWAL_PENALTY_MULTIPLIER" (dec 85 100)) acc in
  let mismatch_m := cfg_get cfg "MISMATCH_PENALTY_MULTIPLIER" (dec 8 10) in
  c1 ← (r ← _dim u_traits "reassurance_need";
        if bool_decide (dec 8 10 < r) then
          i ← _dim v_traits "independence_need"; Ok (bool_decide (dec 8 10 < i))
        else Ok false);
  let acc := apply_penalty c1 "reassurance_independence_u_to_v" mismatch_m acc in
  c2 ← (r ← _dim v_traits "reassurance_need";
        if bool_decide (dec 8 10 < r) then
          i ← _dim u_traits "independence_need"; Ok (bool_decide (dec 8 10 < i))
        else Ok false);
  let acc := apply_penalty c2 "reassurance_independence_v_to_u" mismatch_m acc in
  let total := py_max 0 (py_min 1 acc.1) in
  Ok {| score_total := round6 total;
        breakdown := {|
          kids_hard_check := true;
          gates := [];
          categories :=
            [("values_similarity", round6 values_bucket);
             ("attachment_fit", round6 attachment_bucket);
             ("conflict_fit", round6 conflict_bucket);
             ("personality_fit", round6 personality_bucket);
             ("life_fit", round6 life_bucket);
             ("emotional_similarity", round6 emo_similarity);
             ("kids_timeline_similarity", round6 kids_timeline_score)];
          components :=
            [("values_similarity", round6 values_similarity);
             ("reassurance_vs_independence", round6 reassurance_vs_independence);
             ("text_sensitivity_similarity", round6 text_similarity);
             ("drama_avoidance_similarity", round6 drama_similarity);
             ("testing_behavior_similarity", round6 testing_similarity);
             ("approach_withdrawal_complement", round6 approach_withdrawal);
             ("escalation_risk", round6 escalation_risk);
             ("repair_similarity", round6 repair_similarity);
             ("structure_similarity", round6 structure_similarity);
             ("extraversion_complement", round6 extraversion_comp);
             ("conscientiousness_complement", round6 conscientiousness_comp);
             ("relocation_similarity", round6 relocation_similarity);
             ("career_similarity", round6 career_similarity);
             ("intentions_similarity", round6 intentions_similarity)];
          penalties := acc.2;
          extras := [("base_score", round6 total)] |} |}.

Definition compute_compatibility (u_traits v_traits : pyval) (cfg : option config)
    : result compatibility :=
  let cfg : config := default ∅ cfg in
  ku ← _life u_traits "kids_intent" (PStr "unsure");
  let kids_u := py_str ku in
  kv ← _life v_traits "kids_intent" (PStr "unsure");
  let kids_v := py_str kv in
  if _kids_hard_mismatch kids_u kids_v then Ok (gated false "kids_hard_conflict")
  else
    escalation_u ← _dim u_traits "escalation";
    escalation_v ← _dim v_traits "escalation";
    let gate := cfg_get cfg "ESCALATION_GATE" (dec 95 100) in
    if bool_decide (gate < escalation_u) && bool_decide (gate < escalation_v)
    then Ok (gated true "safety_escalation_gate")
    else
      in_u ← py_contains (py_or u_traits empty_dict) "dimensions";
      legacy ← (if in_u : bool then Ok false
                else in_v ← py_contains (py_or v_traits empty_dict) "dimensions";
                     Ok (negb in_v));
      if legacy : bool then legacy_compatibility u_traits v_traits cfg
      else current_compatibility u_traits v_traits cfg kids_u kids_v
             escalation_u escalation_v.

(** ** Candidate pairs ([app/services/matching.py]) *)

(** An entry of the eligible pool: [user_id] is always present,
    [u.get("traits", {})], [u.get("gender_identity")] and
    [u.get("seeking_genders")] are the values read by the code. *)
Record user := {
  user_id : string;
  traits : pyval;
  gender_identity : pyval;
  seeking_genders : pyval
}.

Record MatchCandidate := {
  cand_user_id : string;
  matched_user_id : string;
  cand_score_total : Qc;
  score_breakdown_of : score_breakdown
}.

(** [tuple(sorted((user_a, user_b)))]. *)
Definition canonical_pair (user_a user_b : string) : string * string :=
  if String.ltb user_b user_a then (user_b, user_a) else (user_a, user_b).

(** [str.lower] and [str.strip] on ASCII text. *)
Definition ascii_lower (c : ascii) : ascii :=
  let n := N_of_ascii c in
  if bool_decide (65 ≤ n)%N && bool_decide (n ≤ 90)%N
  then ascii_of_N (n + 32) else c.

Fixpoint str_lower (s : string) : string :=
  match s with
  | EmptyString => EmptyString
  | String c s' => String (ascii_lower c) (str_lower s')
  end.

Definition is_whitespace (c : ascii) : bool :=
  let n := N_of_ascii c in
  (bool_decide (9 ≤ n)%N && bool_decide (n ≤ 13)%N)
  || (bool_decide (28 ≤ n)%N && bool_decide (n ≤ 32)%N).

Fixpoint lstrip (s : string) : string :=
  match s with
  | EmptyString => EmptyString
  | String c s' => if is_whitespace c then lstrip s' else s
  end.

Definition str_strip (s : string) : string :=
  String.rev (lstrip (String.rev (lstrip s))).

Definition _normalize_gender (value : pyval) : option string :=
  match value with
  | PNone => None
  | _ =>
      let v := str_lower (str_strip (py_str value)) in
      if bool_decide (v = "") then None else Some v
  end.

Definition _parse_seeking (values : pyval) : gset string :=
  match values with
  | PList items =>
      foldl (λ out item,
               match _normalize_gender item with
               | Some g => out ∪ {[g]}
               | None => out
               end) ∅ items
  | _ => ∅
  end.

Definition _gender_preference_compatible (u v : user) : bool :=
  let u_gender := _normalize_gender (gender_identity u) in
  let v_gender := _normalize_gender (gender_identity v) in
  let u_seeking := _parse_seeking (seeking_genders u) in
  let v_seeking := _parse_seeking (seeking_genders v) in
  match u_gender, v_gender with
  | Some ug, Some vg =>
      if bool_decide (u_seeking = ∅) || bool_decide (v_seeking = ∅) then false
      else bool_decide (vg ∈ u_seeking) && bool_decide (ug ∈ v_seeking)
  | _, _ => false
  end.

Abbreviation pair_set := (gset (string * string)).

(** The inner loop: [u = users[i]] against every later [v = users[j]]. *)
Fixpoint candidates_of (u : user) (later : list user) (cfg : config)
    (recent_pairs blocked_pairs : pair_set) : result (list MatchCandidate) :=
  match later with
  | [] => Ok []
  | v :: later' =>
      let pair_key := canonical_pair (user_id u) (user_id v) in
      if bool_decide (pair_key ∈ recent_pairs) then
        candidates_of u later' cfg recent_pairs blocked_pairs
      else if bool_decide (pair_key ∈ blocked_pairs) then
        candidates_of u later' cfg recent_pairs blocked_pairs
      else if negb (_gender_preference_compatible u v) then
        candidates_of u later' cfg recent_pairs blocked_pairs
      else
        comp ← compute_compatibility (traits u) (traits v) (Some cfg);
        rest ← candidates_of u later' cfg recent_pairs blocked_pairs;
        Ok ({| cand_user_id := user_id u;
               matched_user_id := user_id v;
               cand_score_total := score_total comp;
               score_breakdown_of := breakdown comp |} :: rest)
  end.

(** The outer loop over [i]. *)
Fixpoint candidates_loop (users : list user) (cfg : config)
    (recent_pairs blocked_pairs : pair_set) : result (list MatchCandidate) :=
  match users with
  | [] => Ok []
  | u :: later =>
      row ← candidates_of u later cfg recent_pairs blocked_pairs;
      rest ← candidates_loop later cfg recent_pairs blocked_pairs;
      Ok (row ++ rest)
  end.

Definition build_candidate_pairs (users : list user) (cfg : option config)
    (recent_pairs blocked_pairs : option pair_set) : result (list MatchCandidate) :=
  candidates_loop users (default ∅ cfg) (default ∅ recent_pairs)
    (default ∅ blocked_pairs).

(** ** Stable matching engine ([app/services/matching.py]) *)

Variable date : Type.
Variable isoformat : date → string.   (* [date.isoformat()] *)
Variable sha256 : string → N.         (* the digest of [hashlib.sha256], as a number *)

(** [sorted(l)] / [l.sort()] for a strict ordering [lt] of the sort keys: a
    stable insertion sort. *)
Fixpoint sorted_insert {A : Type} (lt : A → A → bool) (x : A) (l : list A) : list A :=
  match l with
  | [] => [x]
  | y :: l' => if lt x y then x :: y :: l' else y :: sorted_insert lt x l'
  end.

Definition py_sorted {A : Type} (lt : A → A → bool) (l : list A) : list A :=
  foldl (λ acc x, sorted_insert lt x acc) [] l.

(** [l[:k]]. *)
Definition py_slice_to {A : Type} (l : list A) (k : Z) : list A :=
  if decide (0 ≤ k)%Z then take (Z.to_nat k) l
  else take (length l - Z.to_nat (- k)) l.

Definition str_min (a b : string) : string := if String.ltb b a then b else a.
Definition str_max (a b : string) : string := if String.ltb a b then b else a.

Definition _stable_hash_eps (a b : string) (week_start : option date) : Qc :=
  let payload :=
    str_min a b +:+ "|" +:+ str_max a b +:+ "|"
    +:+ match week_start with Some d => isoformat d | None => "" end in
  let digest := (sha256 payload mod 2 ^ 256)%N in
  (* [int(h[:12], 16)]: the twelve leading hexadecimal digits *)
  let head := (digest / 2 ^ 208)%N in
  let x := Q2Qc (Z.of_N head # 1) / Q2Qc (281474976710656 # 1) in
  x * Q2Qc (1 # 1000000).

(** The sort key [(-x[1], x[0])] of [_build_preference_lists]. *)
Definition pref_key_lt (x y : string * Qc) : bool :=
  bool_decide (- x.2 < - y.2)
  || (bool_decide (x.2 = y.2) && String.ltb x.1 y.1).

(** [by_user[k].append(x)]. *)
Definition by_user_append (by_user : gmap string (list (string * Qc)))
    (k : string) (x : string * Qc) : result (gmap string (list (string * Qc))) :=
  match by_user !! k with
  | Some l => Ok (<[k := l ++ [x]]> by_user)
  | None => Raise KeyError
  end.

Fixpoint collect_by_user (by_user : gmap string (list (string * Qc)))
    (pairs : list MatchCandidate) (min_score : Qc) (week_start : option date)
    : result (gmap string (list (string * Qc))) :=
  match pairs with
  | [] => Ok by_user
  | p :: pairs' =>
      if bool_decide (cand_score_total p < min_score) then
        collect_by_user by_user pairs' min_score week_start
      else
        let score := cand_score_total p
                     + _stable_hash_eps (cand_user_id p) (matched_user_id p) week_start in
        by_user ← by_user_append by_user (cand_user_id p) (matched_user_id p, score);
        by_user ← by_user_append by_user (matched_user_id p) (cand_user_id p, score);
        collect_by_user by_user pairs' min_score week_start
  end.

Abbreviation preferences := (gmap string (list string)).

Definition _build_preference_lists (users : list user) (pairs : list MatchCandidate)
    (min_score : Qc) (top_k : Z) (week_start : option date) : result preferences :=
  let by_user : gmap string (list (string * Qc)) :=
    list_to_map ((λ u, (user_id u, @nil (string * Qc))) <$> users) in
  rbind (collect_by_user by_user pairs min_score week_start)
    (λ by_user : gmap string (list (string * Qc)),
       Ok ((λ vals, fst <$> py_slice_to (py_sorted pref_key_lt vals) top_k) <$> by_user)).

Definition _is_bipartite_hetero_pool (users : list user) : bool :=
  forallb (λ u,
    let g := _normalize_gender (gender_identity u) in
    let s := _parse_seeking (seeking_genders u) in
    if bool_decide (g = Some "man") && negb (bool_decide (s = {["woman"]})) then false
    else if bool_decide (g = Some "woman") && negb (bool_decide (s = {["man"]})) then false
    else bool_decide (g = Some "man") || bool_decide (g = Some "woman")) users.

Definition ids_of_gender (users : list user) (g : string) : list string :=
  user_id <$> filter (λ u, _normalize_gender (gender_identity u) = Some g) users.

(** [prefs.get(u, [])]. *)
Definition prefs_get (prefs : preferences) (u : string) : list string :=
  default [] (prefs !! u).

(** [{m: i for i, m in enumerate(pl)}]: a later position replaces an earlier one. *)
Definition rank_map (pl : list string) : gmap string nat :=
  list_to_map (reverse (imap (λ i m, (m, i)) pl)).

Definition no_rank : Z := 1000000000.

(** [women_rank[w].get(m, 10**9)]. *)
Definition woman_rank (prefs : preferences) (w m : string) : Z :=
  match rank_map (prefs_get prefs w) !! m with
  | Some i => Z.of_nat i
  | None => no_rank
  end.

(** The state of the loop of [_stable_bipartite_match]; [engaged_order]
    lists the keys of [engaged_to] in insertion order. *)
Record gs_state := {
  free : list string;
  next_idx : gmap string nat;
  engaged_to : gmap string string;
  engaged_order : list string
}.

(** One iteration of [while free]; [None] when the loop exits. *)
Definition gs_step (prefs : preferences) (women : list string) (st : gs_state)
    : option gs_state :=
  match free st with
  | [] => None
  | m :: rest =>
      let p := prefs_get prefs m in
      let i := default 0%nat (next_idx st !! m) in
      match p !! i with
      | None => Some {| free := rest; next_idx := next_idx st;
                        engaged_to := engaged_to st;
                        engaged_order := engaged_order st |}
      | Some w =>
          let next_idx' := <[m := S i]> (next_idx st) in
          if bool_decide (w ∈ women) then
            match engaged_to st !! w with
            | None =>
                Some {| free := rest; next_idx := next_idx';
                        engaged_to := <[w := m]> (engaged_to st);
                        engaged_order := engaged_order st ++ [w] |}
            | Some current =>
                if bool_decide (woman_rank prefs w m < woman_rank prefs w current)%Z
                then Some {| free := rest ++ [current]; next_idx := next_idx';
                             engaged_to := <[w := m]> (engaged_to st);
                             engaged_order := engaged_order st |}
                else Some {| free := rest ++ [m]; next_idx := next_idx';
                             engaged_to := engaged_to st;
                             engaged_order := engaged_order st |}
            end
          else Some {| free := rest ++ [m]; next_idx := next_idx';
                       engaged_to := engaged_to st;
                       engaged_order := engaged_order st |}
      end
  end.

Fixpoint gs_loop (prefs : preferences) (women : list string) (fuel : nat)
    (st : gs_state) : gs_state :=
  match fuel with
  | O => st
  | S fuel' =>
      match gs_step prefs women st with
      | None => st
      | Some st' => gs_loop prefs women fuel' st'
      end
  end.

(** A number of iterations that exhausts every preference list. *)
Definition gs_fuel (prefs : preferences) (men : list string) : nat :=
  S (length men + sum_list ((λ m, length (prefs_get prefs m)) <$> men)).

Definition gs_init (men : list string) : gs_state :=
  {| free := men;
     next_idx := list_to_map ((λ m, (m, 0%nat)) <$> men);
     engaged_to := ∅;
     engaged_order := [] |}.

Definition gs_out (st : gs_state) : list (string * string) :=
  omap (λ w, (λ m, (m, w)) <$> engaged_to st !! w) (engaged_order st).

Definition _stable_bipartite_match (users : list user) (prefs : preferences)
    : list (string * string) :=
  let men := ids_of_gender users "man" in
  let women := ids_of_gender users "woman" in
  gs_out (gs_loop prefs women (gs_fuel prefs men) (gs_init men)).

(** *** The general (not two-sided) path *)

(** [pl.index(candidate)], [10**9] when absent. *)
Definition rank (prefs : preferences) (of_user candidate : string) : Z :=
  match list_find (λ x, x = candidate) (prefs_get prefs of_user) with
  | Some (i, _) => Z.of_nat i
  | None => no_rank
  end.

Record general_state := {
  g_next_idx : gmap string nat;
  held_by : gmap string string   (* accepter -> proposer *)
}.

(** The body of [for proposer in sorted(list(unmatched))]; the Boolean is
    the flag [active]. *)
Definition general_propose (prefs : preferences) (acc : general_state * bool)
    (proposer : string) : general_state * bool :=
  let '(st, active) := acc in
  let pref := prefs_get prefs proposer in
  let i := default 0%nat (g_next_idx st !! proposer) in
  match pref !! i with
  | None => (st, active)
  | Some target =>
      let next_idx' := <[proposer := S i]> (g_next_idx st) in
      match held_by st !! target with
      | None =>
          ({| g_next_idx := next_idx'; held_by := <[target := proposer]> (held_by st) |},
           true)
      | Some current =>
          if bool_decide (rank prefs target proposer < rank prefs target current)%Z
          then ({| g_next_idx := next_idx';
                   held_by := <[target := proposer]> (held_by st) |}, true)
          else ({| g_next_idx := next_idx'; held_by := held_by st |}, true)
      end
  end.

Definition general_round (prefs : preferences) (ids : list string)
    (st : general_state) : general_state * bool :=
  foldl (general_propose prefs) (st, false) ids.

(** [while active]. *)
Fixpoint general_loop (prefs : preferences) (ids : list string) (fuel : nat)
    (st : general_state) : general_state :=
  match fuel with
  | O => st
  | S fuel' =>
      let '(st', active) := general_round prefs ids st in
      if active then general_loop prefs ids fuel' st' else st'
  end.

Definition general_fuel (prefs : preferences) (ids : list string) : nat :=
  S (sum_list ((λ u, length (prefs_get prefs u)) <$> ids)).

(** "Build mutual accepted pairs deterministically". *)
Definition mutual_step (prefs : preferences) (held : gmap string string)
    (acc : gset string * list (string * string)) (target : string)
    : gset string * list (string * string) :=
  let '(used, pairs) := acc in
  match held !! target with
  | None => acc
  | Some proposer =>
      if bool_decide (proposer ∈ used) || bool_decide (target ∈ used) then acc
      else if bool_decide (held !! proposer = Some target)
              || bool_decide (target ∈ prefs_get prefs proposer)
      then (used ∪ {[proposer]} ∪ {[target]},
            pairs ++ [canonical_pair proposer target])
      else acc
  end.

Definition pair_lt (x y : string * string) : bool :=
  String.ltb x.1 y.1 || (bool_decide (x.1 = y.1) && String.ltb x.2 y.2).

Definition _stable_general_match (users : list user) (prefs : preferences)
    : list (string * string) :=
  (* [sorted(list(unmatched))]; the set [unmatched] is never updated *)
  let ids := py_sorted String.ltb (remove_dups (user_id <$> users)) in
  let init := {| g_next_idx := list_to_map ((λ u, (u, 0%nat)) <$> ids);
                 held_by := ∅ |} in
  let st := general_loop prefs ids (general_fuel prefs ids) init in
  let targets := py_sorted String.ltb (elements (dom (held_by st))) in
  let pairs := (foldl (mutual_step prefs (held_by st)) (∅, []) targets).2 in
  py_sorted pair_lt (remove_dups pairs).

(** The final sort key [(-x.score_total, x.user_id, x.matched_user_id)]. *)
Definition assignment_key_lt (x y : MatchCandidate) : bool :=
  bool_decide (- cand_score_total x < - cand_score_total y)
  || (bool_decide (cand_score_total x = cand_score_total y)
      && (String.ltb (cand_user_id x) (cand_user_id y)
          || (bool_decide (cand_user_id x = cand_user_id y)
              && String.ltb (matched_user_id x) (matched_user_id y)))).

Definition pair_map_of (pairs : list MatchCandidate) : gmap (string * string) MatchCandidate :=
  foldl (λ m p, <[canonical_pair (cand_user_id p) (matched_user_id p) := p]> m) ∅ pairs.

(** The loop [for a, b in chosen] of [stable_match]. *)
Definition select_assignments (pair_map : gmap (string * string) MatchCandidate)
    (min_score : Qc) (chosen : list (string * string)) : list MatchCandidate :=
  omap (λ ab,
          match pair_map !! canonical_pair ab.1 ab.2 with
          | Some p => if bool_decide (cand_score_total p < min_score) then None else Some p
          | None => None
          end) chosen.

Definition stable_match (users : list user) (pairs : list MatchCandidate)
    (min_score : Qc) (top_k : Z) (mode : string) (week_start_date : option date)
    : result (list MatchCandidate) :=
  let pair_map := pair_map_of pairs in
  prefs ← _build_preference_lists users pairs min_score top_k week_start_date;
  let chosen :=
    if bool_decide (mode = "stable_bipartite_if_possible")
       && _is_bipartite_hetero_pool users
    then _stable_bipartite_match users prefs
    else _stable_general_match users prefs in
  Ok (py_sorted assignment_key_lt (select_assignments pair_map min_score chosen)).

(** *** Persisting the assignments *)

(** A row of [weekly_match_assignment]; the table has the unique key
    [(week_start_date, user_id)]. *)
Record assignment_row := {
  row_id : string;
  row_week_start_date : date;
  row_user_id : string;
  row_matched_user_id : option string;
  row_score_total : option Qc;
  row_score_breakdown : option score_breakdown;
  row_status : string;
  row_expires_at : datetime;
  row_tenant_id : string
}.

Definition same_key `{EqDecision date} (r r' : assignment_row) : bool :=
  bool_decide (row_week_start_date r = row_week_start_date r')
  && bool_decide (row_user_id r = row_user_id r').

(** [INSERT ... ON CONFLICT (week_start_date, user_id) DO NOTHING]. *)
Definition insert_do_nothing `{EqDecision date} (table : list assignment_row)
    (r : assignment_row) : list assignment_row :=
  if existsb (same_key r) table then table else table ++ [r].

(** [uuid4 n] is the [n]-th identifier drawn by [uuid.uuid4()]. *)
Variable uuid4 : nat → string.

Definition matched_row (week_start_date : date) (expires_at : datetime)
    (tenant_id : option string) (n : nat) (pair : MatchCandidate)
    (user_id matched : string) : assignment_row :=
  {| row_id := uuid4 n;
     row_week_start_date := week_start_date;
     row_user_id := user_id;
     row_matched_user_id := Some matched;
     row_score_total := Some (cand_score_total pair);
     row_score_breakdown := Some (score_breakdown_of pair);
     row_status := "proposed";
     row_expires_at := expires_at;
     row_tenant_id := default "" tenant_id |}.

Definition no_match_row (week_start_date : date) (expires_at : datetime)
    (tenant_id : option string) (n : nat) (user_id : string) : assignment_row :=
  {| row_id := uuid4 n;
     row_week_start_date := week_start_date;
     row_user_id := user_id;
     row_matched_user_id := None;
     row_score_total := None;
     row_score_breakdown := None;
     row_status := "no_match";
     row_expires_at := expires_at;
     row_tenant_id := default "" tenant_id |}.

(** The table after the call and the returned counter [created]; the
    state is the table and the number of identifiers drawn so far. *)
Definition create_weekly_assignments `{EqDecision date}
    (table : list assignment_row) (drawn : nat)
    (week_start_date : date) (expires_at : datetime)
    (assignments : list MatchCandidate) (unmatched_user_ids : list string)
    (tenant_id : option string) : list assignment_row * nat :=
  let step1 (acc : list assignment_row * nat) (pair : MatchCandidate) :=
    let '(t, created) := acc in
    let t := insert_do_nothing t
               (matched_row week_start_date expires_at tenant_id (drawn + created)
                  pair (cand_user_id pair) (matched_user_id pair)) in
    let t := insert_do_nothing t
               (matched_row week_start_date expires_at tenant_id (drawn + created + 1)
                  pair (matched_user_id pair) (cand_user_id pair)) in
    (t, (created + 2)%nat) in
  let step2 (acc : list assignment_row * nat) (user_id : string) :=
    let '(t, created) := acc in
    (insert_do_nothing t
       (no_match_row week_start_date expires_at tenant_id (drawn + created) user_id),
     S created) in
  foldl step2 (foldl step1 (table, 0%nat) assignments) unmatched_user_ids.

(** ** Trait computation ([app/traits.py]) *)

Variable int_of_str : string → option Z.   (* [int(s)] on a string; [None] is ValueError *)

Abbreviation answer_map := (list (string * pyval)).

(** Iterating over a value: a list yields its items, a dictionary its
    keys, a string its characters; the other values are not iterable. *)
Definition py_iter (v : pyval) : result (list pyval) :=
  match v with
  | PList l => Ok l
  | PDict d => Ok ((λ kv, PStr kv.1) <$> d)
  | PStr s => Ok ((λ c, PStr (String c EmptyString)) <$> String.list_ascii_of_string s)
  | PNone | PBool _ | PNum _ => Raise TypeError
  end.

(** [v in {...}] for a set of strings: the value is hashed first. *)
Definition py_in_strs (v : pyval) (strs : list string) : result bool :=
  match v with
  | PStr s => Ok (bool_decide (s ∈ strs))
  | PList _ | PDict _ => Raise TypeError
  | PNone | PBool _ | PNum _ => Ok false
  end.

(** [answers.get(code)] for a key that need not be a string. *)
Definition answers_get (answers : answer_map) (code : pyval) : result pyval :=
  match code with
  | PStr c => Ok (default PNone (dict_get answers c))
  | PList _ | PDict _ => Raise TypeError
  | PNone | PBool _ | PNum _ => Ok PNone
  end.

Definition is_digit (c : ascii) : bool :=
  let n := N_of_ascii c in bool_decide (48 ≤ n)%N && bool_decide (n ≤ 57)%N.

Fixpoint all_digits (s : string) : bool :=
  match s with
  | EmptyString => true
  | String c s' => is_digit c && all_digits s'
  end.

(** [s.isdigit()]. *)
Definition str_isdigit (s : string) : bool :=
  negb (bool_decide (s = "")) && all_digits s.

Fixpoint digits_value (acc : N) (s : string) : N :=
  match s with
  | EmptyString => acc
  | String c s' => digits_value (10 * acc + (N_of_ascii c - 48))%N s'
  end.

Definition _coerce_likert (value : pyval) : option Qc :=
  let bounded (v : Qc) := if bool_decide (1 ≤ v) && bool_decide (v ≤ Q2Qc (5 # 1))
                          then Some v else None in
  match value with
  | PNum q => bounded q
  | PBool b => bounded (if b then 1 else 0)
  | PStr s =>
      if str_isdigit (str_strip s)
      then bounded (Q2Qc (Z.of_N (digits_value 0 (str_strip s)) # 1))
      else None
  | PNone | PList _ | PDict _ => None
  end.

Definition _normalize_likert (value : pyval) (reverse : bool) : option Qc :=
  match _coerce_likert value with
  | None => None
  | Some v =>
      let out := (v - 1) / Q2Qc (4 # 1) in
      Some (round6 (if reverse then 1 - out else out))
  end.

Definition _forced_choice_value (value : pyval) : option Qc :=
  if is_str "A" value then Some 0
  else if is_str "B" value then Some 1
  else None.

(** [_mean(values, default=0.5)]. *)
Definition _mean (values : list Qc) (dflt : Qc) : Qc :=
  match values with
  | [] => dflt
  | _ => round6 (foldl Qcplus 0 values / Qc_of_Z (Z.of_nat (length values)))
  end.

Definition _answer_scalar (answer_value : pyval) : pyval :=
  match answer_value with
  | PDict d => if dict_has d "value" then default PNone (dict_get d "value")
               else answer_value
  | _ => answer_value
  end.

(** The two nested loops [for screen in survey_def.get("screens", [])] and
    [for item in screen.get("items", [])], with the body [f] applied to
    [item.get("question") or {}]. *)
Fixpoint fold_items {S : Type} (f : S → pyval → result S) (items : list pyval) (s : S)
    : result S :=
  match items with
  | [] => Ok s
  | item :: items' =>
      q ← py_get item "question" PNone;
      s' ← f s (py_or q empty_dict);
      fold_items f items' s'
  end.

Fixpoint fold_screens {S : Type} (f : S → pyval → result S) (screens : list pyval) (s : S)
    : result S :=
  match screens with
  | [] => Ok s
  | screen :: screens' =>
      items ← py_get screen "items" (PList []);
      items ← py_iter items;
      s' ← fold_items f items s;
      fold_screens f screens' s'
  end.

Definition fold_questions {S : Type} (f : S → pyval → result S) (survey_def : pyval) (s : S)
    : result S :=
  screens ← py_get survey_def "screens" (PList []);
  screens ← py_iter screens;
  fold_screens f screens s.

Record question_meta := {
  meta_reverse_coded : bool;
  meta_response_type : pyval;
  meta_usage : pyval;
  meta_region_tag : pyval;
  meta_allow_skip : bool;
  meta_is_required : bool
}.

(** The body of the inner loop of [_build_question_meta];
    [meta[str(code)] = ...] puts the newest entry first. *)
Definition meta_step (meta : list (string * question_meta)) (q : pyval)
    : result (list (string * question_meta)) :=
  code ← py_get q "code" PNone;
  if negb (truthy code) then Ok meta
  else
    rc ← py_get q "reverse_coded" (PBool false);
    rt ← py_get q "response_type" PNone;
    us ← py_get q "usage" PNone;
    rg ← py_get q "region_tag" PNone;
    sk ← py_get q "allow_skip" (PBool false);
    rq ← py_get q "is_required" (PBool false);
    Ok ((py_str code,
         {| meta_reverse_coded := truthy rc; meta_response_type := rt;
            meta_usage := us; meta_region_tag := rg;
            meta_allow_skip := truthy sk; meta_is_required := truthy rq |}) :: meta).

Definition _build_question_meta (survey_def : pyval)
    : result (list (string * question_meta)) :=
  fold_questions meta_step survey_def [].

(** The body of the inner loop of [_required_missing_codes]: the code to
    append to [missing], if any. *)
Definition missing_code (answers : answer_map) (q : pyval) : result (option string) :=
  code ← py_get q "code" PNone;
  if negb (truthy code) then Ok None
  else
    rq ← py_get q "is_required" (PBool false);
    if negb (truthy rq) then Ok None
    else
      sk ← py_get q "allow_skip" (PBool false);
      if truthy sk then Ok None
      else
        hidden ←
          (if is_str "KIDS_02" code then
             kids ← py_in_strs (_answer_scalar (default PNone (dict_get answers "KIDS_01")))
                      ["yes"; "probably"];
             Ok (negb kids)
           else Ok false);
        if hidden : bool then Ok None
        else
          value ← answers_get answers code;
          let scalar := _answer_scalar value in
          match scalar with
          | PNone => Ok (Some (py_str code))
          | PStr "" => Ok (Some (py_str code))
          | _ => Ok None
          end.

Definition missing_step (answers : answer_map) (missing : list string) (q : pyval)
    : result (list string) :=
  c ← missing_code answers q;
  Ok (missing ++ option_list c).

Definition _required_missing_codes (survey_def : pyval) (answers : answer_map)
    : result (list string) :=
  missing ← fold_questions (missing_step answers) survey_def [];
  Ok (py_sorted String.ltb (remove_dups missing)).

(** The items of a dictionary: one binding per key. *)
Fixpoint dict_items {A : Type} (d : list (string * A)) : list (string * A) :=
  match d with
  | [] => []
  | (k, v) :: d' => (k, v) :: filter (λ kv, kv.1 ≠ k) (dict_items d')
  end.

(** [x or 0.5] for an optional float: [None] and [0.0] are falsy. *)
Definition or_half (x : option Qc) : Qc :=
  match x with
  | Some v => if bool_decide (v = 0) then dec 5 10 else v
  | None => dec 5 10
  end.

Fixpoint split_on (sep : ascii) (s : string) : list string :=
  match s with
  | EmptyString => [EmptyString]
  | String c s' =>
      if bool_decide (c = sep) then EmptyString :: split_on sep s'
      else match split_on sep s' with
           | [] => [String c EmptyString]
           | w :: ws => String c w :: ws
           end
  end.

Definition num (q : Qc) : pyval := PNum q.

Definition meta_get (qmeta : list (string * question_meta)) (code : string)
    : option question_meta := dict_get qmeta code.

(** [_compute_traits_legacy_v1]. *)
Definition legacy_big5_values (qmeta : list (string * question_meta))
    (answers : answer_map) (k : string) : list Qc :=
  omap (λ kv : string * pyval,
          let '(code, raw) := kv in
          match meta_get qmeta code with
          | None => None
          | Some meta =>
              if negb (is_str "likert_1_5" (meta_response_type meta)) then None
              else
                match _normalize_likert (_answer_scalar raw) (meta_reverse_coded meta) with
                | None => None
                | Some v =>
                    if String.prefix "BF_" code then
                      match split_on "_"%char code with
                      | _ :: part :: _ => if bool_decide (part = k) then Some v else None
                      | _ => None
                      end
                    else None
                end
          end) (dict_items answers).

Definition _compute_traits_legacy_v1 (survey_def : pyval) (answers : answer_map)
    : result pyval :=
  qmeta ← _build_question_meta survey_def;
  let big5 k name := (name, num (_mean (legacy_big5_values qmeta answers k) (dec 5 10))) in
  survey ← py_get survey_def "survey" PNone;
  slug ← py_get (py_or survey empty_dict) "slug" PNone;
  survey' ← py_get survey_def "survey" PNone;
  version ← py_get (py_or survey' empty_dict) "version" PNone;
  let answer code := _answer_scalar (default PNone (dict_get answers code)) in
  Ok (PDict [
    ("traits_version", num (Q2Qc (2 # 1)));
    ("survey_slug", slug);
    ("survey_version", version);
    ("big5", PDict [big5 "O" "openness"; big5 "C" "conscientiousness";
                    big5 "E" "extraversion"; big5 "A" "agreeableness";
                    big5 "N" "neuroticism"]);
    ("life_constraints", PDict [("kids_preference", answer "LA_KIDS_01")]);
    ("modifiers", PDict [
       ("kids", PDict [
          ("importance",
           num (or_half (_normalize_likert (answer "MOD_KIDS_IMPORTANCE") false)));
          ("flexibility",
           num (or_half (_normalize_likert (answer "MOD_KIDS_FLEXIBILITY") false)))])]);
    ("copy_only", PDict [("vibe", PDict []); ("school", PDict [])])
  ]).

Definition TRAITS_VERSION : Qc := Q2Qc (3 # 1).

Record v3_buckets := {
  scoring_answers : list (string * pyval);
  copy_vibe : list (string * pyval);
  copy_school : list (string * pyval)
}.

(** The loop [for code, raw in answers.items()] of the current schedule. *)
Definition v3_bucket_step (qmeta : list (string * question_meta))
    (b : v3_buckets) (kv : string * pyval) : v3_buckets :=
  let '(code, raw) := kv in
  let scalar := _answer_scalar raw in
  let usage :=
    py_str (py_or (from_option meta_usage PNone (meta_get qmeta code)) (PStr "")) in
  let region :=
    py_str (py_or (from_option meta_region_tag PNone (meta_get qmeta code)) (PStr "")) in
  let copy := match scalar with PNone => PStr "" | _ => PStr (py_str scalar) end in
  if bool_decide (usage = "COPY_ONLY") then
    if String.prefix "VIBE_" code then
      {| scoring_answers := scoring_answers b;
         copy_vibe := copy_vibe b ++ [(code, copy)];
         copy_school := copy_school b |}
    else if bool_decide (region = "CBS_NYC") || String.prefix "CBS_" code then
      {| scoring_answers := scoring_answers b;
         copy_vibe := copy_vibe b;
         copy_school := copy_school b ++ [(code, copy)] |}
    else b
  else if bool_decide (usage = "SCORING") && bool_decide (region = "GLOBAL") then
    {| scoring_answers := scoring_answers b ++ [(code, scalar)];
       copy_vibe := copy_vibe b;
       copy_school := copy_school b |}
  else b.

Definition is_py_str (v : pyval) : bool :=
  match v with
  | PStr _ => true
  | _ => false
  end.

Definition kids_timeline_value (kids_timeline : pyval) : Qc :=
  let key := py_str kids_timeline in
  if bool_decide (key = "0_3_years") then 1
  else if bool_decide (key = "3_7_years") then dec 66 100
  else if bool_decide (key = "later") then dec 33 100
  else dec 5 10.

(** The part of [compute_traits_match_core_v3] after the check of the
    required answers. *)
Definition v3_profile (qmeta : list (string * question_meta)) (answers : answer_map)
    : result pyval :=
  let b := foldl (v3_bucket_step qmeta)
             {| scoring_answers := []; copy_vibe := []; copy_school := [] |}
             (dict_items answers) in
  let sa code := default PNone (dict_get (scoring_answers b) code) in
  let likert code :=
    _normalize_likert (sa code)
      (from_option meta_reverse_coded false (meta_get qmeta code)) in
  let fc code := _forced_choice_value (sa code) in
  let mean_codes codes := _mean (omap likert codes) (dec 5 10) in
  let fc_half code := default (dec 5 10) (fc code) in
  let openness := mean_codes ["OPN_01"; "OPN_02"; "OPN_03"] in
  let conscientiousness := mean_codes ["CON_01"; "CON_02"; "CON_03"] in
  let extraversion := mean_codes ["EXT_01"; "EXT_02"; "EXT_03"] in
  let agreeableness := mean_codes ["AGR_01"; "AGR_02"; "AGR_03"] in
  let emotional_stability := mean_codes ["ER_01"; "ER_02"; "ER_03"] in
  let approach := or_half (likert "REP_01") in
  let withdrawal := mean_codes ["REP_02"; "REP_05"] in
  let escalation := mean_codes ["REP_04"; "REP_10"] in
  let structure := or_half (likert "REP_11") in
  let repair_belief := mean_codes ["REP_07"; "REP_12"] in
  let accountability_need := or_half (likert "REP_08") in
  let reassurance_need := or_half (likert "ATT_02") in
  let text_sensitivity := or_half (likert "ATT_03") in
  let independence_need := or_half (likert "ATT_04") in
  let trust_baseline := or_half (likert "ATT_05") in
  let alone_time_need := or_half (likert "ATT_07") in
  let drama_avoidance := or_half (likert "ATT_08") in
  let testing_behavior := or_half (likert "ATT_09") in
  let kids_intent := sa "KIDS_01" in
  wants ← py_in_strs (sa "KIDS_01") ["yes"; "probably"];
  let kids_timeline := if wants : bool then sa "KIDS_02" else PNone in
  let val2 := default (dec 5 10) (likert "VAL_02") in
  let worldview_alignment := mean_codes ["VAL_01"; "VAL_03"] in
  let life_kids_intent := if is_py_str kids_intent then kids_intent else PStr "unsure" in
  let life_kids_timeline := if is_py_str kids_timeline then kids_timeline else PNone in
  let relocation_openness := or_half (likert "LOC_01") in
  let career_intensity := or_half (likert "CAR_01") in
  let define_intentions_early := mean_codes ["MAR_02"; "MAR_03"] in
  Ok (PDict [
    ("traits_version", num TRAITS_VERSION);
    ("survey_slug", PStr "match-core-v3");
    ("survey_version", num 1);
    ("big_five", PDict [
       ("openness", num openness); ("conscientiousness", num conscientiousness);
       ("extraversion", num extraversion); ("agreeableness", num agreeableness)]);
    ("emotional_regulation", PDict [("stability", num emotional_stability)]);
    ("conflict", PDict [
       ("approach", num approach); ("withdrawal", num withdrawal);
       ("escalation", num escalation); ("structure", num structure);
       ("repair_belief", num repair_belief);
       ("accountability_need", num accountability_need)]);
    ("attachment", PDict [
       ("reassurance_need", num reassurance_need);
       ("text_sensitivity", num text_sensitivity);
       ("independence_need", num independence_need);
       ("trust_baseline", num trust_baseline);
       ("alone_time_need", num alone_time_need);
       ("drama_avoidance", num drama_avoidance);
       ("testing_behavior", num testing_behavior)]);
    ("life", PDict [
       ("kids_intent", life_kids_intent);
       ("kids_timeline", life_kids_timeline);
       ("relocation_openness", num relocation_openness);
       ("career_intensity", num career_intensity);
       ("partner_achievement_preference", num (or_half (likert "CAR_02")));
       ("marriage_intent", num (or_half (likert "MAR_01")));
       ("define_intentions_early", num define_intentions_early);
       ("worldview_alignment_importance", num val2);
       ("worldview_alignment", num worldview_alignment)]);
    ("tradeoffs", PDict [
       ("stability_vs_novelty", num (fc_half "FC_01"));
       ("intimate_vs_group", num (fc_half "FC_02"));
       ("steady_vs_highs", num (fc_half "FC_03"));
       ("direct_vs_gradual", num (fc_half "FC_04"));
       ("define_early_vs_unfold", num (fc_half "FC_05"));
       ("frequent_comm_vs_space", num (fc_half "FC_06"));
       ("career_vs_relationship", num (fc_half "FC_07"));
       ("save_vs_spend", num (fc_half "FC_08"))]);
    ("dimensions", PDict [
       ("worldview_alignment", num worldview_alignment);
       ("stability", num emotional_stability);
       ("reassurance_need", num reassurance_need);
       ("independence_need", num independence_need);
       ("text_sensitivity", num text_sensitivity);
       ("drama_avoidance", num drama_avoidance);
       ("testing_behavior", num testing_behavior);
       ("approach", num approach);
       ("withdrawal", num withdrawal);
       ("escalation", num escalation);
       ("repair_belief", num repair_belief);
       ("structure", num structure);
       ("extraversion", num extraversion);
       ("conscientiousness", num conscientiousness);
       ("relocation_openness", num relocation_openness);
       ("career_intensity", num career_intensity);
       ("define_intentions_early", num define_intentions_early);
       ("kids_timeline_value", num (kids_timeline_value life_kids_timeline))]);
    ("copy_only", PDict [("vibe", PDict (copy_vibe b)); ("school", PDict (copy_school b))])
  ]).

Fixpoint join_with (sep : string) (l : list string) : string :=
  match l with
  | [] => ""
  | [x] => x
  | x :: l' => x +:+ sep +:+ join_with sep l'
  end.

(** The message of the error raised for unanswered required questions. *)
Definition missing_required_message (missing : list string) : string :=
  "missing required answers: " +:+ join_with ", " missing.

Definition compute_traits_match_core_v3 (survey_def : pyval) (answers : answer_map)
    : result pyval :=
  qmeta ← _build_question_meta survey_def;
  missing ← _required_missing_codes survey_def answers;
  match missing with
  | _ :: _ => Raise (ValueError (missing_required_message missing))
  | [] => v3_profile qmeta answers
  end.

(** [int(v)]. *)
Definition py_int (v : pyval) : result Z :=
  match v with
  | PNum q => Ok (Z.quot (Qnum q) (Z.pos (Qden q)))
  | PBool b => Ok (if b then 1 else 0)%Z
  | PStr s =>
      match int_of_str s with
      | Some n => Ok n
      | None => Raise (ValueError "invalid literal for int()")
      end
  | PNone | PList _ | PDict _ => Raise TypeError
  end.

(** The test [slug == "match-core-v3" and int(version or 0) == 1]. *)
Definition uses_current_schedule (survey_def : pyval) : result bool :=
  survey ← py_get survey_def "survey" PNone;
  let survey := py_or survey empty_dict in
  slug ← py_get survey "slug" PNone;
  version ← py_get survey "version" PNone;
  if is_str "match-core-v3" slug then
    n ← py_int (py_or version (PNum 0));
    Ok (bool_decide (n = 1%Z))
  else Ok false.

Definition compute_traits (survey_def : pyval) (answers : answer_map) : result pyval :=
  v3 ← uses_current_schedule survey_def;
  if v3 : bool then compute_traits_match_core_v3 survey_def answers
  else _compute_traits_legacy_v1 survey_def answers.

(** ** Survey fingerprints ([app/services/survey_fingerprint.py]) *)

(* [json.dumps(v, separators=(",", ":"), ensure_ascii=False)] *)
Variable json_dumps : pyval → string.

(** [d[k] = v]: a key that is bound keeps its place in the dictionary. *)
Fixpoint dict_set {A : Type} (d : list (string * A)) (k : string) (v : A)
    : list (string * A) :=
  match d with
  | [] => [(k, v)]
  | (k', v') :: d' =>
      if decide (k' = k) then (k, v) :: d' else (k', v') :: dict_set d' k v
  end.

(** [isinstance(v, dict) and "value" in v and "label" in v]. *)
Definition is_option_entry (v : pyval) : bool :=
  match v with
  | PDict d => dict_has d "value" && dict_has d "label"
  | _ => false
  end.

(** The sort key [(str(x.get("value")), str(x.get("label")))]. *)
Definition option_entry_key (x : pyval) : string * string :=
  match x with
  | PDict d => (py_str (default PNone (dict_get d "value")),
                py_str (default PNone (dict_get d "label")))
  | _ => ("", "")
  end.

Definition option_entry_lt (x y : pyval) : bool :=
  let kx := option_entry_key x in
  let ky := option_entry_key y in
  String.ltb kx.1 ky.1 || (bool_decide (kx.1 = ky.1) && String.ltb kx.2 ky.2).

Definition key_lt {A : Type} (x y : string * A) : bool := String.ltb x.1 y.1.

Fixpoint _normalize (value : pyval) : pyval :=
  match value with
  | PDict d =>
      PDict (py_sorted key_lt
               (dict_items (map (λ kv, let '(k, v) := kv in (k, _normalize v)) d)))
  | PList l =>
      let items := map _normalize l in
      if forallb is_option_entry l then PList (py_sorted option_entry_lt items)
      else PList items
  | PNone | PBool _ | PNum _ | PStr _ => value
  end.

Definition canonical_json (value : pyval) : string := json_dumps (_normalize value).

Definition hex_digit (n : N) : ascii :=
  default "0"%char (String.list_ascii_of_string "0123456789abcdef" !! N.to_nat n).

(** The last [k] hexadecimal digits of [n], in front of [acc]. *)
Fixpoint hex_digits (k : nat) (n : N) (acc : string) : string :=
  match k with
  | O => acc
  | S k' => hex_digits k' (n / 16)%N (String (hex_digit (n mod 16)%N) acc)
  end.

(** [hashlib.sha256(...).hexdigest()]: 64 hexadecimal digits. *)
Definition sha256_hex (value : pyval) : string :=
  hex_digits 64 (sha256 (canonical_json value)) "".

Record fingerprint := {
  fp_slug : string;
  fp_version : pyval;
  fp_hash : string
}.

Definition survey_fingerprint (survey_def : pyval) : result fingerprint :=
  survey_meta ← (if is_dict survey_def then py_get survey_def "survey" PNone
                 else Ok empty_dict);
  slug ← py_get (py_or survey_meta empty_dict) "slug" PNone;
  version ← py_get (py_or survey_meta empty_dict) "version" PNone;
  Ok {| fp_slug := py_str (py_or slug (PStr ""));
        fp_version :=
          if str_isdigit (py_str version)
          then PNum (Q2Qc (Z.of_N (digits_value 0 (py_str version)) # 1))
          else version;
        fp_hash := sha256_hex (if is_dict survey_def then survey_def else empty_dict) |}.

Definition question_semantics_hash (question : list (string * pyval)) (options : pyval)
    : string :=
  let get k := default PNone (dict_get question k) in
  let flag k := PBool (truthy (default (PBool false) (dict_get question k))) in
  sha256_hex (PDict [
    ("prompt", get "text");
    ("type", get "response_type");
    ("options", options);
    ("validation", PDict [
       ("is_required", flag "is_required");
       ("allow_skip", flag "allow_skip");
       ("rules", py_or (get "rules") (PList []))]);
    ("scoring", PDict [
       ("usage", get "usage");
       ("reverse_coded", flag "reverse_coded");
       ("region_tag", get "region_tag")])]).

(** An entry of the question index. *)
Record question_entry := {
  qi_question : list (string * pyval);
  qi_screen_key : pyval;
  qi_is_required : bool;
  qi_question_hash : string
}.

Abbreviation question_index := (list (string * question_entry)).

(** [item.get("question") if isinstance(item.get("question"), dict) else {}]. *)
Definition item_question (item : list (string * pyval)) : list (string * pyval) :=
  match dict_get item "question" with
  | Some (PDict q) => q
  | _ => []
  end.

(** [str(q.get("code") or "").strip()]. *)
Definition question_code (q : list (string * pyval)) : string :=
  str_strip (py_str (py_or (default PNone (dict_get q "code")) (PStr ""))).

Definition resolved_options (option_sets item : list (string * pyval)) : pyval :=
  match default PNone (dict_get item "options") with
  | PStr name => default PNone (dict_get option_sets name)
  | opts => opts
  end.

Definition question_is_required (q : list (string * pyval)) : bool :=
  truthy (default (PBool false) (dict_get q "is_required"))
  && negb (truthy (default (PBool false) (dict_get q "allow_skip"))).

(** The body of the inner loop of [build_question_index]. *)
Definition index_item (option_sets : list (string * pyval)) (screen_key : pyval)
    (out : question_index) (item : pyval) : question_index :=
  match item with
  | PDict it =>
      let q := item_question it in
      let code := question_code q in
      if bool_decide (code = "") then out
      else
        dict_set out code
          {| qi_question := q;
             qi_screen_key := screen_key;
             qi_is_required := question_is_required q;
             qi_question_hash := question_semantics_hash q (resolved_options option_sets it) |}
  | _ => out
  end.

(** [screen.get("items", []) if isinstance(screen.get("items"), list) else []]. *)
Definition screen_items (screen : list (string * pyval)) : list pyval :=
  match dict_get screen "items" with
  | Some (PList items) => items
  | _ => []
  end.

Definition index_screen (option_sets : list (string * pyval))
    (out : question_index) (screen : pyval) : question_index :=
  match screen with
  | PDict sc =>
      foldl (index_item option_sets (default PNone (dict_get sc "key"))) out (screen_items sc)
  | _ => out
  end.

Definition build_question_index (survey_def : pyval) : result question_index :=
  os ← py_get survey_def "option_sets" PNone;
  let option_sets := match os with PDict d => d | _ => [] end in
  screens ← py_get survey_def "screens" (PList []);
  screens ← py_iter screens;
  Ok (foldl (index_screen option_sets) [] screens).

(** ** The survey tables and the active revision
       ([app/models.py], [app/survey_admin_repo.py], [app/services/survey_runtime.py]) *)

Definition SURVEY_SLUG : string := "match-core-v3".
Definition SURVEY_VERSION : Z := 1.

Record session_row := {
  sess_id : string;
  sess_user_id : string;
  sess_survey_slug : string;
  sess_survey_version : option Z;
  sess_survey_hash : option string;
  sess_status : string;
  sess_completed_at : option datetime;
  sess_started_at : datetime;
  sess_tenant_id : option string
}.

Record answer_row := {
  ans_session_id : string;
  ans_question_code : string;
  ans_answer_value : pyval
}.

Record definition_row := {
  def_id : string;
  def_slug : string;
  def_version : Z;
  def_status : string;
  def_is_active : bool;
  def_definition_json : pyval;
  def_definition_hash : option string;
  def_created_at : datetime
}.

(** The JSON document stored in [migration_report]. *)
Record migration_report := {
  report_user_id : string;
  report_tenant_id : option string;
  report_current : string * Z * string;
  report_source_session_id : option string;
  report_source_status : option string;
  report_source_survey_version : option Z;
  report_source_survey_hash : option string;
  count_old_answers : nat;
  count_carried_forward : nat;
  count_missing_required : nat;
  count_changed_semantics : nat;
  count_new_questions : nat;
  report_carried_forward : list string;
  report_changed_semantics : list string;
  report_new_questions : list string
}.

Record reconciliation_row := {
  rec_id : string;
  rec_user_id : string;
  rec_tenant_id : option string;
  rec_survey_slug : string;
  rec_current_survey_hash : string;
  rec_source_survey_hash : option string;
  rec_source_survey_version : option Z;
  rec_answers_current : answer_map;
  rec_missing_question_ids : list string;
  rec_needs_retake : bool;
  rec_migration_report : migration_report;
  rec_updated_at : datetime;
  rec_created_at : datetime
}.

Record database := {
  survey_session : list session_row;
  survey_answer : list answer_row;
  survey_definition : list definition_row;
  survey_reconciliation_state : list reconciliation_row
}.

(** [SELECT ... WHERE slug=:slug AND is_active=true LIMIT 1]. *)
Definition get_active_definition (db : database) (slug : string) : option definition_row :=
  head (filter (λ r, def_slug r = slug ∧ def_is_active r = true) (survey_definition db)).

Record survey_runtime := {
  rt_slug : string;
  rt_version : Z;
  rt_hash : string;
  rt_definition : pyval;
  rt_question_index : question_index;
  rt_required_question_ids : list string
}.

(** [get_active_survey_runtime]; [definition] is the definition that the
    survey loader returns for the tenant. *)
Definition get_active_survey_runtime (db : database) (definition : pyval)
    : result survey_runtime :=
  let active := get_active_definition db SURVEY_SLUG in
  '(slug, version) ←
    match active with
    | Some a =>
        if is_dict (def_definition_json a) then
          Ok (if bool_decide (def_slug a = "") then SURVEY_SLUG else def_slug a,
              if bool_decide (def_version a = 0%Z) then SURVEY_VERSION else def_version a)
        else
          survey_meta ← (if is_dict definition then py_get definition "survey" PNone
                         else Ok empty_dict);
          if is_dict survey_meta then
            slug ← py_get survey_meta "slug" PNone;
            version ← py_get survey_meta "version" PNone;
            v ← py_int (py_or version (PNum (Q2Qc (SURVEY_VERSION # 1))));
            Ok (py_str (py_or slug (PStr SURVEY_SLUG)), v)
          else Ok (SURVEY_SLUG, SURVEY_VERSION)
    | None =>
        survey_meta ← (if is_dict definition then py_get definition "survey" PNone
                       else Ok empty_dict);
        if is_dict survey_meta then
          slug ← py_get survey_meta "slug" PNone;
          version ← py_get survey_meta "version" PNone;
          v ← py_int (py_or version (PNum (Q2Qc (SURVEY_VERSION # 1))));
          Ok (py_str (py_or slug (PStr SURVEY_SLUG)), v)
        else Ok (SURVEY_SLUG, SURVEY_VERSION)
    end;
  fp ← survey_fingerprint definition;
  question_index ← build_question_index definition;
  Ok {| rt_slug := slug;
        rt_version := version;
        rt_hash := fp_hash fp;
        rt_definition := definition;
        rt_question_index := question_index;
        rt_required_question_ids :=
          py_sorted String.ltb
            (fst <$> filter (λ kv, qi_is_required kv.2 = true) question_index) |}.

(** ** Reconciliation ([app/services/survey_reconciliation.py]) *)

Record definition_item := {
  di_row : definition_row;
  di_definition_hash : string;
  di_question_index : question_index
}.

(** [ORDER BY version DESC, created_at DESC]. *)
Definition definition_before (a b : definition_row) : bool :=
  bool_decide (def_version b < def_version a)%Z
  || (bool_decide (def_version a = def_version b)
      && bool_decide (def_created_at b < def_created_at a)%Z).

Fixpoint definition_items (rows : list definition_row) : result (list definition_item) :=
  match rows with
  | [] => Ok []
  | r :: rows' =>
      let definition :=
        if is_dict (def_definition_json r) then def_definition_json r else empty_dict in
      fp ← survey_fingerprint definition;
      question_index ← build_question_index definition;
      out ← definition_items rows';
      Ok ({| di_row := r;
             di_definition_hash :=
               match def_definition_hash r with
               | Some h => if bool_decide (h = "") then fp_hash fp else h
               | None => fp_hash fp
               end;
             di_question_index := question_index |} :: out)
  end.

Definition _definitions_for_slug (db : database) (slug : string)
    : result (list definition_item) :=
  definition_items
    (py_sorted definition_before
       (filter (λ r, def_slug r = slug) (survey_definition db))).

Definition _choose_definition_by_overlap (answer_keys : list string)
    (defs : list definition_item) : option definition_item :=
  (foldl (λ (acc : option definition_item * Z) d,
            let qids := fst <$> di_question_index d in
            if bool_decide (qids = []) then acc
            else
              let overlap :=
                Z.of_nat (length (filter (λ k, k ∈ qids) answer_keys)) in
              if bool_decide (acc.2 < overlap)%Z then (Some d, overlap) else acc)
         (None, (-1)%Z) defs).1.

Record latest_response := {
  lr_session : session_row;
  lr_answers : answer_map
}.

(** [COALESCE(completed_at, started_at)]. *)
Definition session_time (s : session_row) : datetime :=
  default (sess_started_at s) (sess_completed_at s).

(** [ORDER BY ... DESC LIMIT 1]: a row with the greatest time; of several
    such rows the model takes the first of the table. *)
Fixpoint latest_session (rows : list session_row) : option session_row :=
  match rows with
  | [] => None
  | s :: rows' =>
      match latest_session rows' with
      | Some s' => if bool_decide (session_time s < session_time s')%Z then Some s' else Some s
      | None => Some s
      end
  end.

Definition _fetch_latest_response (db : database) (user_id survey_slug : string)
    : option latest_response :=
  s ← latest_session
        (filter (λ s, sess_user_id s = user_id ∧ sess_survey_slug s = survey_slug)
           (survey_session db));
  Some {| lr_session := s;
          lr_answers :=
            foldl (λ acc r, dict_set acc (ans_question_code r) (ans_answer_value r)) []
              (filter (λ r, ans_session_id r = sess_id s) (survey_answer db)) |}.

(** The definition that the latest response was given to, and its hash:
    by the stored hash, else by the stored version, else by the overlap
    of the question codes. *)
Definition resolve_source (latest : option latest_response)
    (definitions : list definition_item) : option definition_item * string :=
  let answers_old := from_option lr_answers [] latest in
  let old_hash := default "" (latest ≫= λ l, sess_survey_hash (lr_session l)) in
  let defs_by_hash :=
    foldl (λ acc d, dict_set acc (di_definition_hash d) d) [] definitions in
  let by_hash := dict_get defs_by_hash old_hash in
  let by_version : option definition_item * string :=
    match by_hash, latest ≫= λ l, sess_survey_version (lr_session l) with
    | None, Some sv =>
        match list_find (λ d, def_version (di_row d) = sv) definitions with
        | Some (_, d) => (Some d, di_definition_hash d)
        | None => (None, old_hash)
        end
    | _, _ => (by_hash, old_hash)
    end in
  match by_version.1, answers_old with
  | None, _ :: _ =>
      match _choose_definition_by_overlap (fst <$> answers_old) definitions with
      | Some d => (Some d, di_definition_hash d)
      | None => by_version
      end
  | _, _ => by_version
  end.

Record migration := {
  answers_current : answer_map;
  missing : list string;
  carried_forward : list string;
  changed_semantics : list string;
  new_questions : list string
}.

Definition no_migration : migration :=
  {| answers_current := []; missing := []; carried_forward := [];
     changed_semantics := []; new_questions := [] |}.

(** The body of the loop [for qid, meta in current_q.items()]. *)
Definition migrate_question (answers_old : answer_map) (old_q : question_index)
    (old_hash current_hash : string) (m : migration) (kv : string * question_entry)
    : migration :=
  let '(qid, meta) := kv in
  let required := qi_is_required meta in
  match dict_get answers_old qid with
  | Some answer =>
      let carry :=
        match dict_get old_q qid with
        | Some old_meta => bool_decide (qi_question_hash old_meta = qi_question_hash meta)
        | None => bool_decide (old_hash = current_hash)
        end in
      if carry then
        {| answers_current := dict_set (answers_current m) qid answer;
           missing := missing m;
           carried_forward := carried_forward m ++ [qid];
           changed_semantics := changed_semantics m;
           new_questions := new_questions m |}
      else
        {| answers_current := answers_current m;
           missing := if required then missing m ++ [qid] else missing m;
           carried_forward := carried_forward m;
           changed_semantics := changed_semantics m ++ [qid];
           new_questions := new_questions m |}
  | None =>
      {| answers_current := answers_current m;
         missing := if required then missing m ++ [qid] else missing m;
         carried_forward := carried_forward m;
         changed_semantics := changed_semantics m;
         new_questions := new_questions m ++ [qid] |}
  end.

Definition migrate (latest : option latest_response) (rt : survey_runtime)
    (old_q : question_index) (old_hash : string) : migration :=
  match latest with
  | None =>
      {| answers_current := [];
         missing := py_sorted String.ltb (remove_dups (rt_required_question_ids rt));
         carried_forward := []; changed_semantics := []; new_questions := [] |}
  | Some l =>
      foldl (migrate_question (lr_answers l) old_q old_hash (rt_hash rt)) no_migration
        (rt_question_index rt)
  end.

(** The dictionary that [reconcile_user_survey_to_current] returns. *)
Record reconciliation := {
  res_user_id : string;
  res_tenant_id : option string;
  res_survey_slug : string;
  res_survey_version : Z;
  res_current_survey_hash : string;
  res_source_survey_hash : option string;
  res_source_survey_version : option Z;
  res_answers_current : answer_map;
  res_missing_question_ids : list string;
  res_needs_retake : bool;
  res_migration_report : migration_report
}.

(** [s or None]. *)
Definition or_none (s : string) : option string :=
  if bool_decide (s = "") then None else Some s.

(** The part of [reconcile_user_survey_to_current] before the upsert. *)
Definition reconcile (db : database) (definition : pyval)
    (user_id : string) (tenant_id : option string) : result reconciliation :=
  runtime ← get_active_survey_runtime db definition;
  let current_slug := if bool_decide (rt_slug runtime = "") then SURVEY_SLUG
                      else rt_slug runtime in
  let current_version := if bool_decide (rt_version runtime = 0%Z) then SURVEY_VERSION
                         else rt_version runtime in
  let current_hash := rt_hash runtime in
  let latest := _fetch_latest_response db user_id current_slug in
  definitions ← _definitions_for_slug db current_slug;
  let '(old_def, old_hash) := resolve_source latest definitions in
  let old_q := from_option di_question_index [] old_def in
  let m := migrate latest runtime old_q old_hash in
  let session := lr_session <$> latest in
  let report :=
    {| report_user_id := user_id;
       report_tenant_id := tenant_id;
       report_current := (current_slug, current_version, current_hash);
       report_source_session_id := sess_id <$> session;
       report_source_status := sess_status <$> session;
       report_source_survey_version := session ≫= sess_survey_version;
       report_source_survey_hash := or_none old_hash;
       count_old_answers := length (from_option lr_answers [] latest);
       count_carried_forward := length (carried_forward m);
       count_missing_required := length (missing m);
       count_changed_semantics := length (changed_semantics m);
       count_new_questions := length (new_questions m);
       report_carried_forward := py_sorted String.ltb (carried_forward m);
       report_changed_semantics := py_sorted String.ltb (changed_semantics m);
       report_new_questions := py_sorted String.ltb (new_questions m) |} in
  Ok {| res_user_id := user_id;
        res_tenant_id := tenant_id;
        res_survey_slug := current_slug;
        res_survey_version := current_version;
        res_current_survey_hash := current_hash;
        res_source_survey_hash := or_none old_hash;
        res_source_survey_version := session ≫= sess_survey_version;
        res_answers_current := answers_current m;
        res_missing_question_ids := py_sorted String.ltb (remove_dups (missing m));
        res_needs_retake := bool_decide (0 < length (missing m))%nat;
        res_migration_report := report |}.

(** The conflict target [(user_id, survey_slug, current_survey_hash)]. *)
Definition rec_key (r : reconciliation_row) : string * string * string :=
  (rec_user_id r, rec_survey_slug r, rec_current_survey_hash r).

(** [DO UPDATE SET ...]: the row keeps its id and [created_at]. *)
Definition do_update (new : reconciliation_row) (now : datetime) (r : reconciliation_row)
    : reconciliation_row :=
  {| rec_id := rec_id r;
     rec_user_id := rec_user_id r;
     rec_tenant_id := rec_tenant_id new;
     rec_survey_slug := rec_survey_slug r;
     rec_current_survey_hash := rec_current_survey_hash r;
     rec_source_survey_hash := rec_source_survey_hash new;
     rec_source_survey_version := rec_source_survey_version new;
     rec_answers_current := rec_answers_current new;
     rec_missing_question_ids := rec_missing_question_ids new;
     rec_needs_retake := rec_needs_retake new;
     rec_migration_report := rec_migration_report new;
     rec_updated_at := now;
     rec_created_at := rec_created_at r |}.

(** [INSERT ... ON CONFLICT (user_id, survey_slug, current_survey_hash)
    DO UPDATE SET ...]. *)
Definition upsert_reconciliation (table : list reconciliation_row)
    (new : reconciliation_row) (now : datetime) : list reconciliation_row :=
  if bool_decide (rec_key new ∈ rec_key <$> table) then
    (λ r, if bool_decide (rec_key r = rec_key new) then do_update new now r else r)
      <$> table
  else table ++ [new].

(** [CAST(NULLIF(:tenant_id, '') AS uuid)] of [tenant_id or ""]. *)
Definition tenant_column (tenant_id : option string) : option string :=
  tenant_id ≫= or_none.

Definition reconciliation_row_of (res : reconciliation) (id : string) (now : datetime)
    : reconciliation_row :=
  {| rec_id := id;
     rec_user_id := res_user_id res;
     rec_tenant_id := tenant_column (res_tenant_id res);
     rec_survey_slug := res_survey_slug res;
     rec_current_survey_hash := res_current_survey_hash res;
     rec_source_survey_hash := res_source_survey_hash res;
     rec_source_survey_version := res_source_survey_version res;
     rec_answers_current := res_answers_current res;
     rec_missing_question_ids := res_missing_question_ids res;
     rec_needs_retake := res_needs_retake res;
     rec_migration_report := res_migration_report res;
     rec_updated_at := now;
     rec_created_at := now |}.

(** [reconcile_user_survey_to_current]: [now] is the value of [NOW()] and
    [drawn] the number of identifiers drawn so far. *)
Definition reconcile_user_survey_to_current (db : database) (definition : pyval)
    (now : datetime) (drawn : nat) (user_id : string) (tenant_id : option string)
    : result (reconciliation * database) :=
  res ← reconcile db definition user_id tenant_id;
  Ok (res,
      {| survey_session := survey_session db;
         survey_answer := survey_answer db;
         survey_definition := survey_definition db;
         survey_reconciliation_state :=
           upsert_reconciliation (survey_reconciliation_state db)
             (reconciliation_row_of res (uuid4 drawn) now) now |}).

(** *** Visibility rules *)

(** [a == b]. *)
Fixpoint py_eq (a b : pyval) : bool :=
  match a, b with
  | PNone, PNone => true
  | PBool x, PBool y => bool_decide (x = y)
  | PBool x, PNum q | PNum q, PBool x => bool_decide (q = if x then 1 else 0)
  | PNum p, PNum q => bool_decide (p = q)
  | PStr s, PStr t => bool_decide (s = t)
  | PList l, PList k =>
      (fix go (l k : list pyval) : bool :=
         match l, k with
         | [], [] => true
         | x :: l', y :: k' => py_eq x y && go l' k'
         | _, _ => false
         end) l k
  | PDict d, PDict e =>
      bool_decide (length (dict_items d) = length (dict_items e))
      && forallb (λ kv, let '(key, v) := kv in
                        match dict_get e key with
                        | Some w => py_eq v w
                        | None => false
                        end) d
  | _, _ => false
  end.

(** [x in container]. *)
Definition py_in (x container : pyval) : result bool :=
  match container with
  | PList l => Ok (existsb (py_eq x) l)
  | PStr s =>
      match x with
      | PStr t => Ok (is_substring t s)
      | _ => Raise TypeError
      end
  | PDict d =>
      match x with
      | PStr key => Ok (dict_has d key)
      | PList _ | PDict _ => Raise TypeError
      | PNone | PBool _ | PNum _ => Ok false
      end
  | PNone | PBool _ | PNum _ => Raise TypeError
  end.

Definition is_none (v : pyval) : bool :=
  match v with
  | PNone => true
  | _ => false
  end.

(** One iteration of the loop of [_is_question_visible]: [true] when the
    rule makes the function return [False], [false] when the loop goes on. *)
Definition rule_hides (answers : answer_map) (rule : pyval) : result bool :=
  rule_type ← py_get rule "type" PNone;
  if negb (is_str "show_if" rule_type) then Ok false
  else
    trigger_code ← py_get rule "trigger_question_code" PNone;
    trigger_values ← py_get rule "trigger_value" PNone;
    operator ← py_get rule "operator" (PStr "eq");
    if negb (truthy trigger_code) || is_none trigger_values then Ok false
    else
      trigger_answer ← answers_get answers trigger_code;
      match trigger_answer with
      | PNone => Ok true
      | _ =>
          let trigger_answer :=
            match trigger_answer with
            | PDict d => default PNone (dict_get d "value")
            | _ => trigger_answer
            end in
          if is_str "in" operator then
            found ← py_in trigger_answer trigger_values;
            Ok (negb found)
          else if is_str "eq" operator then
            Ok (negb (py_eq trigger_answer trigger_values))
          else if is_str "neq" operator then
            Ok (py_eq trigger_answer trigger_values)
          else Ok false
      end.

Fixpoint rules_visible (answers : answer_map) (rules : list pyval) : result bool :=
  match rules with
  | [] => Ok true
  | rule :: rules' =>
      hides ← rule_hides answers rule;
      if hides : bool then Ok false else rules_visible answers rules'
  end.

Definition _is_question_visible (item : pyval) (answers : answer_map) : result bool :=
  rules ← py_get item "rules" PNone;
  match rules with
  | PList rules => rules_visible answers rules
  | _ => Ok true
  end.

(** ** Greedy one-to-one matching ([app/services/matching.py]) *)

(** The body of the loop of [greedy_one_to_one_match]; the state is the set
    [matched] and the list [assignments]. *)
Definition greedy_step (min_score : Qc) (acc : gset string * list MatchCandidate)
    (pair : MatchCandidate) : gset string * list MatchCandidate :=
  let '(matched, assignments) := acc in
  if bool_decide (cand_score_total pair < min_score) then acc
  else if bool_decide (cand_user_id pair ∈ matched)
          || bool_decide (matched_user_id pair ∈ matched) then acc
  else (matched ∪ {[cand_user_id pair]} ∪ {[matched_user_id pair]},
        assignments ++ [pair]).

Definition greedy_one_to_one_match (pairs : list MatchCandidate) (min_score : Qc)
    : list MatchCandidate :=
  (foldl (greedy_step min_score) (∅, []) (py_sorted assignment_key_lt pairs)).2.

(** ** Recent pairs ([app/services/matching.py]) *)

Variable date_lt : date → date → bool.          (* [d < d'] on dates *)
Variable date_minus_days : date → Z → date.     (* [d - timedelta(days=n)] *)

(** The [WHERE] clause of [fetch_recent_pairs]. *)
Definition recent_row (week_start_date since : date) (r : assignment_row) : bool :=
  date_lt (row_week_start_date r) week_start_date
  && negb (date_lt (row_week_start_date r) since)
  && bool_decide (is_Some (row_matched_user_id r))
  && negb (bool_decide (row_status r = "no_match")).

Definition fetch_recent_pairs (table : list assignment_row) (week_start_date : date)
    (lookback_weeks : Z) : pair_set :=
  let since := date_minus_days week_start_date (7 * lookback_weeks) in
  list_to_set
    (omap (λ r, if recent_row week_start_date since r
                then canonical_pair (row_user_id r) <$> row_matched_user_id r
                else None) table).

Definition was_matched_recently (table : list assignment_row) (user_a user_b : string)
    (week_start_date : date) (lookback_weeks : Z) : bool :=
  bool_decide (canonical_pair user_a user_b
               ∈ fetch_recent_pairs table week_start_date lookback_weeks).

(** ** Notions used by the statements *)

(** The kids intent the scorer reads from a profile:
    [str(_life(traits, "kids_intent", "unsure"))]. *)
Definition kids_intent_of (traits : pyval) : result string :=
  k ← _life traits "kids_intent" (PStr "unsure");
  Ok (py_str k).

(** One side firmly wants children and the other firmly does not. *)
Definition firmly_wants (k : string) : Prop := k = "yes" ∨ k = "probably".
Definition firmly_declines (k : string) : Prop := k = "no" ∨ k = "probably_not".
Definition kids_hard_conflict (k1 k2 : string) : Prop :=
  (firmly_wants k1 ∧ firmly_declines k2) ∨ (firmly_wants k2 ∧ firmly_declines k1).




(** A block of a profile is absent, empty (falsy) or a dictionary. *)
Definition block_ok (o : option pyval) : bool :=
  match o with
  | None => true
  | Some x => negb (truthy x) || is_dict x
  end.

Definition profile_blocks : list string :=
  ["life"; "life_constraints"; "dimensions"; "big5"; "conflict_repair";
   "life_preferences"; "modifiers"].

(** A trait profile with possibly missing data: every block the scorer
    reads is absent, empty or a dictionary, and so is every entry of
    [modifiers] it reads. *)
Definition partial_profile (traits : pyval) : bool :=
  match py_or traits empty_dict with
  | PDict t =>
      forallb (λ k, block_ok (dict_get t k)) profile_blocks
      && match py_or (default PNone (dict_get t "modifiers")) empty_dict with
         | PDict m => forallb (λ km, block_ok (dict_get m km.1)) modifier_mapping
         | _ => false
         end
  | _ => false
  end.



(** Mutual gender-preference compatibility: each user's identity is set
    and is a member of the other's seeking set (so neither set is empty). *)
Definition mutually_compatible (u v : user) : Prop :=
  ∃ gu gv,
    _normalize_gender (gender_identity u) = Some gu
    ∧ _normalize_gender (gender_identity v) = Some gv
    ∧ gv ∈ _parse_seeking (seeking_genders u)
    ∧ gu ∈ _parse_seeking (seeking_genders v).

Definition cand_users (p : MatchCandidate) : gset string :=
  {[cand_user_id p; matched_user_id p]}.

(** No user id occurs in two entries of the list. *)
Definition one_pair_per_user (l : list (gset string)) : Prop :=
  ∀ i j x y, l !! i = Some x → l !! j = Some y → i ≠ j → x ## y.

(** The same, by recursion on the list. *)
Fixpoint disjoint_list (l : list (gset string)) : Prop :=
  match l with
  | [] => True
  | x :: l' => Forall (λ y, x ## y) l' ∧ disjoint_list l'
  end.



(** The invariant of the deferred-acceptance loop. *)
Record gs_inv (prefs : preferences) (men women : list string) (st : gs_state) : Prop := {
  inv_free_men : ∀ m, m ∈ free st → m ∈ men;
  inv_free_nodup : NoDup (free st);
  inv_idx : ∀ m, m ∈ men → is_Some (next_idx st !! m);
  inv_engaged : ∀ w m, engaged_to st !! w = Some m →
                  m ∈ men ∧ w ∈ women ∧ m ∉ free st;
  inv_inj : ∀ w w' m, engaged_to st !! w = Some m →
              engaged_to st !! w' = Some m → w = w';
  inv_order : NoDup (engaged_order st)
              ∧ ∀ w, w ∈ engaged_order st ↔ is_Some (engaged_to st !! w);
  (* an engaged man made his last proposal to his partner *)
  inv_last : ∀ w m, engaged_to st !! w = Some m →
               ∃ i, next_idx st !! m = Some (S i) ∧ prefs_get prefs m !! i = Some w;
  (* a woman who received a proposal holds a man she ranks at least as well *)
  inv_proposed : ∀ m i j w,
      next_idx st !! m = Some i → (j < i)%nat →
      prefs_get prefs m !! j = Some w → w ∈ women →
      ∃ m', engaged_to st !! w = Some m'
            ∧ (woman_rank prefs w m' ≤ woman_rank prefs w m)%Z
}.





(** *** Preferences and blocking pairs *)





(** The pairs [(ids[i], ids[j])], [i < j], in the order in which the
    double loop of [build_candidate_pairs] visits them. *)
Fixpoint ordered_pairs (ids : list string) : list (string * string) :=
  match ids with
  | [] => []
  | x :: rest => ((λ y, (x, y)) <$> rest) ++ ordered_pairs rest
  end.

Definition pair_ids (p : MatchCandidate) : string * string :=
  (cand_user_id p, matched_user_id p).


(** What a candidate pair adds to [by_user[x]] in [_build_preference_lists]. *)
Definition pair_entries (x : string) (min_score : Qc) (week_start : option date)
    (p : MatchCandidate) : list (string * Qc) :=
  if bool_decide (cand_score_total p < min_score) then []
  else
    let score := cand_score_total p
                 + _stable_hash_eps (cand_user_id p) (matched_user_id p) week_start in
    (if decide (cand_user_id p = x) then [(matched_user_id p, score)] else [])
    ++ (if decide (matched_user_id p = x) then [(cand_user_id p, score)] else []).

(** *** Trait computation *)

(** The list of the questions that the loops of [traits.py] visit. *)
Fixpoint items_questions (items : list pyval) : result (list pyval) :=
  match items with
  | [] => Ok []
  | item :: items' =>
      q ← py_get item "question" PNone;
      qs ← items_questions items';
      Ok (py_or q empty_dict :: qs)
  end.

Fixpoint screens_questions (screens : list pyval) : result (list pyval) :=
  match screens with
  | [] => Ok []
  | screen :: screens' =>
      items ← py_get screen "items" (PList []);
      items ← py_iter items;
      qs ← items_questions items;
      rest ← screens_questions screens';
      Ok (qs ++ rest)
  end.

Definition survey_questions (survey_def : pyval) : result (list pyval) :=
  screens ← py_get survey_def "screens" (PList []);
  screens ← py_iter screens;
  screens_questions screens.

(** The monadic fold of a loop body over a list of questions. *)
Fixpoint fold_list {S : Type} (f : S → pyval → result S) (qs : list pyval) (s : S)
    : result S :=
  match qs with
  | [] => Ok s
  | q :: qs' => s' ← f s q; fold_list f qs' s'
  end.

(** The question [q] is reported under the code [c]: it has a code, is
    required and may not be skipped, is not the follow-up [KIDS_02] of a
    user who does not want children, and its answer is [None] or [""]. *)
Definition offending (answers : answer_map) (q : pyval) (c : string) : Prop :=
  ∃ d code v,
    q = PDict d
    ∧ code = default PNone (dict_get d "code")
    ∧ truthy code = true
    ∧ py_str code = c
    ∧ truthy (default (PBool false) (dict_get d "is_required")) = true
    ∧ truthy (default (PBool false) (dict_get d "allow_skip")) = false
    ∧ (is_str "KIDS_02" code = true →
       py_in_strs (_answer_scalar (default PNone (dict_get answers "KIDS_01")))
         ["yes"; "probably"] = Ok true)
    ∧ answers_get answers code = Ok v
    ∧ (_answer_scalar v = PNone ∨ _answer_scalar v = PStr "").

(** A result that is not the error for unanswered required questions. *)
Definition not_missing_required_error {A : Type} (r : result A) : Prop :=
  ∀ codes, r ≠ Raise (ValueError (missing_required_message codes)).

(** A result that is no [ValueError] at all. *)
Definition no_value_error {A : Type} (r : result A) : Prop :=
  ∀ msg, r ≠ Raise (ValueError msg).

(** *** Reconciliation *)

(** The row stored under [key] gets the time stamp [now] in [updated_at];
    nothing else changes. *)
Definition touch (key : string * string * string) (now : datetime)
    (r : reconciliation_row) : reconciliation_row :=
  if bool_decide (rec_key r = key) then
    {| rec_id := rec_id r;
       rec_user_id := rec_user_id r;
       rec_tenant_id := rec_tenant_id r;
       rec_survey_slug := rec_survey_slug r;
       rec_current_survey_hash := rec_current_survey_hash r;
       rec_source_survey_hash := rec_source_survey_hash r;
       rec_source_survey_version := rec_source_survey_version r;
       rec_answers_current := rec_answers_current r;
       rec_missing_question_ids := rec_missing_question_ids r;
       rec_needs_retake := rec_needs_retake r;
       rec_migration_report := rec_migration_report r;
       rec_updated_at := now;
       rec_created_at := rec_created_at r |}
  else r.

(** The row holds what a reconciliation with the result [res] stores. *)
Definition stores (res : reconciliation) (r : reconciliation_row) : Prop :=
  rec_tenant_id r = tenant_column (res_tenant_id res)
  ∧ rec_source_survey_hash r = res_source_survey_hash res
  ∧ rec_source_survey_version r = res_source_survey_version res
  ∧ rec_answers_current r = res_answers_current res
  ∧ rec_missing_question_ids r = res_missing_question_ids res
  ∧ rec_needs_retake r = res_needs_retake res
  ∧ rec_migration_report r = res_migration_report res.

(** The items of a screen, and the items of a definition in the order in
    which [build_question_index] visits them. *)
Definition screen_item_list (screen : pyval) : list pyval :=
  match screen with
  | PDict sc => screen_items sc
  | _ => []
  end.

Definition survey_items (survey_def : pyval) : result (list pyval) :=
  screens ← py_get survey_def "screens" (PList []);
  screens ← py_iter screens;
  Ok (screens ≫= screen_item_list).

(** The question code under which an item is indexed ([""]: not indexed). *)
Definition item_code (item : pyval) : string :=
  match item with
  | PDict it => question_code (item_question it)
  | _ => ""
  end.




(** The option sets that [build_question_index] resolves names in. *)
Definition option_sets_of (os : result pyval) : list (string * pyval) :=
  match os with
  | Ok (PDict d) => d
  | _ => []
  end.

(** What the index holds for the items visited so far. *)
Definition index_inv (option_sets : list (string * pyval)) (items : list pyval)
    (out : question_index) : Prop :=
  (∀ qid meta, (qid, meta) ∈ out →
     ∃ it, PDict it ∈ items ∧ question_code (item_question it) = qid ∧ qid ≠ ""
           ∧ qi_question_hash meta
             = question_semantics_hash (item_question it) (resolved_options option_sets it))
  ∧ (∀ it, PDict it ∈ items → question_code (item_question it) ≠ "" →
       is_Some (dict_get out (question_code (item_question it)))).


(** *** Notions used by the further properties *)

(** [l] lists candidates by descending score. *)
Definition descending (l : list MatchCandidate) : Prop :=
  ∀ i j a b, (i < j)%nat → l !! i = Some a → l !! j = Some b →
    cand_score_total b ≤ cand_score_total a.

(** The invariant of the loop of [greedy_one_to_one_match]: [matched] holds
    the users of the assignments, which are pairwise disjoint. *)
Definition greedy_inv (acc : gset string * list MatchCandidate) : Prop :=
  (∀ x, x ∈ acc.1 ↔ ∃ a, a ∈ acc.2 ∧ x ∈ cand_users a)
  ∧ disjoint_list (cand_users <$> acc.2).

(** The rows that [create_weekly_assignments] may write. *)
Definition written_row (week : date) (expires_at : datetime)
    (assignments : list MatchCandidate) (unmatched : list string)
    (r : assignment_row) : Prop :=
  row_week_start_date r = week ∧ row_expires_at r = expires_at
  ∧ ((row_status r = "proposed"
      ∧ ∃ p, p ∈ assignments
             ∧ row_score_total r = Some (cand_score_total p)
             ∧ ((row_user_id r = cand_user_id p
                 ∧ row_matched_user_id r = Some (matched_user_id p))
                ∨ (row_user_id r = matched_user_id p
                   ∧ row_matched_user_id r = Some (cand_user_id p))))
     ∨ (row_status r = "no_match" ∧ row_user_id r ∈ unmatched
        ∧ row_matched_user_id r = None)).

(** The key [(week, user_id)] is taken in the table. *)
Definition key_taken (table : list assignment_row) (week : date) (user_id : string)
    : Prop :=
  ∃ r, r ∈ table ∧ row_week_start_date r = week ∧ row_user_id r = user_id.


(** The entries [x] and [y] of a dictionary have increasing keys. *)
Definition key_before {A : Type} (x y : string * A) : Prop := String.ltb x.1 y.1 = true.

(** * Verification *)

Set Warnings "-clear-no-such-hyp".
Set Default Proof Using "Type".
Set Proof Using Clear Unused.


(** ** Assignment state machine *)

(** C9. Once [now ≥ expires_at], [transition_status] sends the states
    [proposed] and [revealed] to [expired] whatever the requested action is,
    and [no_match] is terminal: it is returned for every action (and every
    pair of instants). *)
Theorem transition_status_expiry_and_terminal :
  (∀ (current action : string) (now expires_at : datetime),
      (expires_at ≤ now)%Z →
      current = "proposed" ∨ current = "revealed" →
      transition_status current action now expires_at = "expired")
  ∧ (∀ (action : string) (now expires_at : datetime),
      transition_status "no_match" action now expires_at = "no_match").
Proof.
  split.
  - intros current action now expires_at Hexp Hcur.
    unfold transition_status.
    rewrite (bool_decide_eq_true_2 _ Hexp).
    destruct Hcur as [-> | ->]; reflexivity.
  - intros action now expires_at. reflexivity.
Qed.

(** ** Arithmetic of the scorer *)

Ltac qc_simpl :=
  unfold Qclt, Qcle, Qcminus, Qcplus, Qcopp, Qcmult, Q2Qc in *; cbn [this] in *;
  repeat (rewrite !Qred_correct in * ).

Ltac qc_lra := try apply Qc_is_canon; qc_simpl; lra.







(** ** Symmetry of the scorer *)

(** All the reads [_dim traits key] of one profile succeed or fail together. *)
Lemma _dim_cases (traits : pyval) :
  (∃ e, ∀ key, _dim traits key = Raise e)
  ∨ (∃ f : string → Qc,
       (∀ key, _dim traits key = Ok (f key))
       ∧ ∃ d, py_or traits empty_dict = PDict d).
Proof.
  unfold _dim, mbind, result_bind.
  destruct (py_or traits empty_dict) as [| | | | | t];
    try (by left; exists AttributeError).
  cbn [py_get rbind].
  destruct (py_or (default PNone (dict_get t "dimensions")) empty_dict) as [| | | | | d];
    try (by left; exists AttributeError).
  right. exists (λ key, _to_float (default PNone (dict_get d key)) (dec 5 10)).
  split; [done | by exists t].
Qed.

Lemma apply_penalty_fst (c : bool) (n : string) (m : Qc) (acc : Qc * list (string * Qc)) :
  (apply_penalty c n m acc).1 = if c then acc.1 * m else acc.1.
Proof. by destruct c. Qed.

Lemma if_Ok {A : Type} (c : bool) (x y : A) :
  (if c then Ok x else Ok y) = Ok (if c then x else y).
Proof. by destruct c. Qed.









(** ** The kids-intent hard gate *)

Lemma kids_hard_conflict_mismatch (k1 k2 : string) :
  kids_hard_conflict k1 k2 → _kids_hard_mismatch k1 k2 = true.
Proof.
  unfold kids_hard_conflict, firmly_wants, firmly_declines.
  intros [[[-> | ->] [-> | ->]] | [[-> | ->] [-> | ->]]]; reflexivity.
Qed.

Lemma kids_intent_of_Ok (traits : pyval) (k : string) :
  kids_intent_of traits = Ok k →
  ∃ raw, _life traits "kids_intent" (PStr "unsure") = Ok raw ∧ py_str raw = k.
Proof.
  unfold kids_intent_of, mbind, result_bind.
  destruct (_life traits "kids_intent" (PStr "unsure")) as [raw | e]; cbn [rbind];
    [| done].
  intros [= <-]. by exists raw.
Qed.

(** C1. When the kids intents read from the two profiles are a hard
    conflict (one side "yes" or "probably", the other "no" or
    "probably_not"), [compute_compatibility] returns [score_total = 0] and
    [gates = ["kids_hard_conflict"]], whatever the other dimensions and the
    configuration are. *)
Theorem kids_hard_conflict_scores_zero
    (u v : pyval) (cfg : option config) (ku kv : string) :
  kids_intent_of u = Ok ku →
  kids_intent_of v = Ok kv →
  kids_hard_conflict ku kv →
  ∃ r, compute_compatibility u v cfg = Ok r
       ∧ score_total r = 0
       ∧ gates (breakdown r) = ["kids_hard_conflict"].
Proof.
  intros (ru & Hu & <-)%kids_intent_of_Ok (rv & Hv & <-)%kids_intent_of_Ok Hc.
  exists (gated false "kids_hard_conflict").
  split; [| done].
  unfold compute_compatibility, mbind, result_bind.
  rewrite Hu, Hv. cbn [rbind].
  by rewrite (kids_hard_conflict_mismatch _ _ Hc).
Qed.

(** ** Missing data *)

Lemma legacy_compatibility_gates (u v : pyval) (cfg : config) (r : compatibility) :
  legacy_compatibility u v cfg = Ok r → gates (breakdown r) = [].
Proof.
  unfold legacy_compatibility, mbind, result_bind.
  repeat match goal with
  | |- rbind ?m _ = Ok _ → _ => destruct m as [? | ?]; cbn [rbind]; [| done]
  | |- (let (_, _) := ?p in _) = Ok _ → _ => destruct p
  end.
  by intros [= <-].
Qed.

Lemma current_compatibility_gates (u v : pyval) (cfg : config)
    (ku kv : string) (eu ev : Qc) (r : compatibility) :
  current_compatibility u v cfg ku kv eu ev = Ok r → gates (breakdown r) = [].
Proof.
  unfold current_compatibility, mbind, result_bind.
  destruct (_dim_cases u) as [[e Hu] | [fu [Hu _]]],
           (_dim_cases v) as [[e' Hv] | [fv [Hv _]]];
    rewrite ?Hu, ?Hv; cbn [rbind]; try done.
  rewrite !if_Ok. cbn [rbind]. by intros [= <-].
Qed.




Lemma block_ok_py_or (o : option pyval) :
  block_ok o = true →
  py_or (default PNone o) empty_dict
  = PDict (match o with Some (PDict d) => d | _ => [] end).
Proof.
  unfold block_ok, py_or.
  destruct o as [[| b | q | s | l | d] |]; cbn; try done.
  - by destruct b.
  - by destruct (bool_decide (q = 0)).
  - by destruct (bool_decide (s = "")).
  - by destruct (bool_decide (l = [])).
  - by destruct d.
Qed.




(** *** Totality on partial profiles *)

Lemma partial_profile_inv (traits : pyval) :
  partial_profile traits = true →
  ∃ t m,
    py_or traits empty_dict = PDict t
    ∧ (∀ k, k ∈ profile_blocks → block_ok (dict_get t k) = true)
    ∧ py_or (default PNone (dict_get t "modifiers")) empty_dict = PDict m
    ∧ (∀ mk lk, (mk, lk) ∈ modifier_mapping → block_ok (dict_get m mk) = true).
Proof.
  unfold partial_profile.
  destruct (py_or traits empty_dict) as [| | | | | t]; try done.
  intros [Hb Hm]%andb_prop.
  destruct (py_or (default PNone (dict_get t "modifiers")) empty_dict)
    as [| | | | | m] eqn:Hmod; try done.
  exists t, m. split; [done |]. split; [| split; [done |]].
  - intros k Hk. rewrite forallb_forall in Hb. apply Hb. by apply list_elem_of_In.
  - intros mk lk Hk. rewrite forallb_forall in Hm.
    apply (Hm (mk, lk)). by apply list_elem_of_In.
Qed.

Lemma block_ok_get (t : list (string * pyval)) (k : string) :
  block_ok (dict_get t k) = true →
  ∃ d, py_or (default PNone (dict_get t k)) empty_dict = PDict d.
Proof. intros H. rewrite (block_ok_py_or _ H). by eexists. Qed.

Lemma _life_total (traits : pyval) :
  partial_profile traits = true →
  ∃ k, _life traits "kids_intent" (PStr "unsure") = Ok k.
Proof.
  intros (t & m & Ht & Hb & _)%partial_profile_inv.
  unfold _life, mbind, result_bind. rewrite Ht. cbn [py_get rbind].
  destruct (block_ok_get t "life") as [l ->]; [apply Hb; by apply (bool_decide_unpack _) |].
  destruct (block_ok_get t "life_constraints") as [c ->]; [apply Hb; by apply (bool_decide_unpack _) |].
  cbn [py_contains py_get rbind]. destruct (dict_has l "kids_intent"); by eexists.
Qed.

Lemma _dim_total (traits : pyval) (key : string) :
  partial_profile traits = true → ∃ x, _dim traits key = Ok x.
Proof.
  intros (t & m & Ht & Hb & _)%partial_profile_inv.
  unfold _dim, mbind, result_bind. rewrite Ht. cbn [py_get rbind].
  destruct (block_ok_get t "dimensions") as [d ->]; [apply Hb; by apply (bool_decide_unpack _) |].
  by eexists.
Qed.

Lemma float_vector_total (d : list (string * pyval)) (keys : list string) :
  ∃ xs, float_vector (PDict d) keys = Ok xs.
Proof.
  induction keys as [| k keys [xs IH]]; cbn [float_vector]; [by eexists |].
  unfold mbind, result_bind. cbn [py_get rbind]. rewrite IH. by eexists.
Qed.

Lemma modifier_loop_total (lu lv mu mv : list (string * pyval)) (scale cap : Qc)
    (mapping : list (string * string)) (multiplier : Qc) (pens : list (string * Qc)) :
  (∀ mk lk, (mk, lk) ∈ mapping →
     block_ok (dict_get mu mk) = true ∧ block_ok (dict_get mv mk) = true) →
  ∃ r, modifier_loop (PDict lu) (PDict lv) (PDict mu) (PDict mv) scale cap
         mapping multiplier pens = Ok r.
Proof.
  revert multiplier pens.
  induction mapping as [| [mk lk] rest IH]; intros multiplier pens Hok;
    cbn [modifier_loop]; [by eexists |].
  unfold modifier_factor, mbind, result_bind.
  destruct (Hok mk lk) as [Hu Hv]; [apply list_elem_of_here |].
  cbn [py_get rbind].
  destruct (block_ok_get mu mk Hu) as [um ->], (block_ok_get mv mk Hv) as [vm ->].
  cbn [py_get rbind]. apply IH. intros mk' lk' Hin. apply (Hok mk' lk'). by apply list_elem_of_further.
Qed.

Lemma _modifier_penalty_total (u v : pyval) (cfg : config) :
  partial_profile u = true → partial_profile v = true →
  ∃ r, _modifier_penalty u v cfg = Ok r.
Proof.
  intros (tu & mu & Htu & Hbu & Hmu & Hku)%partial_profile_inv
         (tv & mv & Htv & Hbv & Hmv & Hkv)%partial_profile_inv.
  unfold _modifier_penalty, mbind, result_bind. rewrite Htu, Htv.
  cbn [py_get rbind]. rewrite Hmu, Hmv.
  destruct (block_ok_get tu "life_preferences") as [lu ->]; [apply Hbu; by apply (bool_decide_unpack _) |].
  destruct (block_ok_get tv "life_preferences") as [lv ->]; [apply Hbv; by apply (bool_decide_unpack _) |].
  edestruct (modifier_loop_total lu lv mu mv) as [[mult pens] ->]; [| by eexists].
  intros mk lk Hin. split; [by eapply Hku | by eapply Hkv].
Qed.

Lemma legacy_compatibility_total (u v : pyval) (cfg : config) :
  partial_profile u = true → partial_profile v = true →
  ∃ r, legacy_compatibility u v cfg = Ok r.
Proof.
  intros Hu Hv.
  destruct (_modifier_penalty_total u v cfg Hu Hv) as [[mult pens] Hm].
  apply partial_profile_inv in Hu as (tu & mu & Htu & Hbu & _).
  apply partial_profile_inv in Hv as (tv & mv & Htv & Hbv & _).
  unfold legacy_compatibility, mbind, result_bind. rewrite Htu, Htv.
  cbn [py_get rbind].
  destruct (block_ok_get tu "big5") as [bu ->]; [apply Hbu; by apply (bool_decide_unpack _) |].
  destruct (block_ok_get tv "big5") as [bv ->]; [apply Hbv; by apply (bool_decide_unpack _) |].
  destruct (block_ok_get tu "conflict_repair") as [cu ->]; [apply Hbu; by apply (bool_decide_unpack _) |].
  destruct (block_ok_get tv "conflict_repair") as [cv ->]; [apply Hbv; by apply (bool_decide_unpack _) |].
  destruct (float_vector_total bu big5_keys) as [? ->].
  destruct (float_vector_total bv big5_keys) as [? ->].
  destruct (float_vector_total cu conflict_keys) as [? ->].
  destruct (float_vector_total cv conflict_keys) as [? ->].
  cbn [rbind]. rewrite Hm. cbn [rbind]. by eexists.
Qed.

Lemma current_compatibility_total (u v : pyval) (cfg : config)
    (ku kv : string) (eu ev : Qc) :
  partial_profile u = true → partial_profile v = true →
  ∃ r, current_compatibility u v cfg ku kv eu ev = Ok r.
Proof.
  intros Hu Hv.
  unfold current_compatibility, mbind, result_bind.
  destruct (_dim_cases u) as [[e Hdu] | [fu [Hdu _]]].
  { destruct (_dim_total u "escalation" Hu) as [x Hx]. by rewrite Hdu in Hx. }
  destruct (_dim_cases v) as [[e Hdv] | [fv [Hdv _]]].
  { destruct (_dim_total v "escalation" Hv) as [x Hx]. by rewrite Hdv in Hx. }
  rewrite ?Hdu, ?Hdv. cbn [rbind]. rewrite !if_Ok. cbn [rbind]. by eexists.
Qed.

Lemma compute_compatibility_total (u v : pyval) (cfg : option config) :
  partial_profile u = true → partial_profile v = true →
  ∃ r, compute_compatibility u v cfg = Ok r.
Proof.
  intros Hu Hv. unfold compute_compatibility, mbind, result_bind.
  destruct (_life_total u Hu) as [ku ->], (_life_total v Hv) as [kv ->].
  cbn [rbind]. destruct (_kids_hard_mismatch _ _); [by eexists |].
  destruct (_dim_total u "escalation" Hu) as [eu ->].
  destruct (_dim_total v "escalation" Hv) as [ev ->].
  cbn [rbind]. destruct (_ && _); [by eexists |].
  destruct (partial_profile_inv u Hu) as (tu & _ & -> & _).
  destruct (partial_profile_inv v Hv) as (tv & _ & -> & _).
  cbn [py_contains rbind].
  destruct (dict_has tu "dimensions"), (dict_has tv "dimensions"); cbn [rbind negb].
  all: first [ by apply legacy_compatibility_total
             | by apply current_compatibility_total ].
Qed.


(** ** Candidate pairs *)

Lemma canonical_pair_comm (a b : string) : canonical_pair a b = canonical_pair b a.
Proof.
  unfold canonical_pair, String.ltb.
  rewrite (String.compare_antisym b a).
  destruct (String.compare a b) eqn:Hc; cbn; try reflexivity.
  apply String.compare_eq_iff in Hc. by subst.
Qed.

Lemma _gender_preference_compatible_spec (u v : user) :
  _gender_preference_compatible u v = true → mutually_compatible u v.
Proof.
  unfold _gender_preference_compatible, mutually_compatible.
  destruct (_normalize_gender (gender_identity u)) as [gu |]; [| done].
  destruct (_normalize_gender (gender_identity v)) as [gv |]; [| done].
  destruct (_ || _); [done |].
  intros [Hv Hu]%andb_prop. exists gu, gv.
  by apply bool_decide_eq_true in Hv, Hu.
Qed.

Lemma candidates_of_sound (u : user) (later : list user) (cfg : config)
    (recent blocked : pair_set) (cs : list MatchCandidate) :
  candidates_of u later cfg recent blocked = Ok cs →
  ∀ p, p ∈ cs →
    (canonical_pair (cand_user_id p) (matched_user_id p) ∉ recent)
    ∧ (canonical_pair (cand_user_id p) (matched_user_id p) ∉ blocked)
    ∧ cand_user_id p = user_id u
    ∧ ∃ j v, later !! j = Some v ∧ matched_user_id p = user_id v
             ∧ mutually_compatible u v.
Proof.
  revert cs. induction later as [| v later IH]; intros cs; cbn [candidates_of].
  - intros [= <-] p Hp. by apply elem_of_nil in Hp.
  - assert (∀ cs', candidates_of u later cfg recent blocked = Ok cs' →
              ∀ p, p ∈ cs' →
                (canonical_pair (cand_user_id p) (matched_user_id p) ∉ recent)
                ∧ (canonical_pair (cand_user_id p) (matched_user_id p) ∉ blocked)
                ∧ cand_user_id p = user_id u
                ∧ ∃ j v0, (v :: later) !! j = Some v0
                          ∧ matched_user_id p = user_id v0
                          ∧ mutually_compatible u v0) as IH'.
    { intros cs' Hcs' p Hp.
      destruct (IH cs' Hcs' p Hp) as (Hr & Hb & Hid & j & v0 & Hj & Hm & Hc).
      repeat split; try done. by exists (S j), v0. }
    case_bool_decide as Hrec; [exact (IH' cs) |].
    case_bool_decide as Hblk; [exact (IH' cs) |].
    destruct (_gender_preference_compatible u v) eqn:Hg; cbn [negb];
      [| exact (IH' cs)].
    unfold mbind, result_bind.
    destruct (compute_compatibility (traits u) (traits v) (Some cfg)) as [comp | ?];
      cbn [rbind]; [| done].
    destruct (candidates_of u later cfg recent blocked) as [rest | ?];
      cbn [rbind]; [| done].
    intros [= <-] p [-> | Hp]%elem_of_cons.
    + cbn. repeat split; try done.
      exists 0%nat, v. repeat split; try done.
      by apply _gender_preference_compatible_spec.
    + by apply (IH' rest).
Qed.

Lemma candidates_loop_sound
    (users : list user) (c : config) (recent blocked : pair_set)
    (cands : list MatchCandidate) :
  candidates_loop users c recent blocked = Ok cands →
  ∀ p, p ∈ cands →
    (canonical_pair (cand_user_id p) (matched_user_id p) ∉ recent)
    ∧ (canonical_pair (matched_user_id p) (cand_user_id p) ∉ recent)
    ∧ (canonical_pair (cand_user_id p) (matched_user_id p) ∉ blocked)
    ∧ (canonical_pair (matched_user_id p) (cand_user_id p) ∉ blocked)
    ∧ ∃ i j u v,
        (i < j)%nat ∧ users !! i = Some u ∧ users !! j = Some v
        ∧ cand_user_id p = user_id u ∧ matched_user_id p = user_id v
        ∧ mutually_compatible u v.
Proof.
  revert cands.
  induction users as [| u later IH]; intros cands; cbn [candidates_loop].
  - intros [= <-] p Hp. by apply elem_of_nil in Hp.
  - unfold mbind, result_bind.
    destruct (candidates_of u later c recent blocked) as [row | ?] eqn:Hrow;
      cbn [rbind]; [| done].
    destruct (candidates_loop later c recent blocked) as [rest | ?];
      cbn [rbind]; [| done].
    intros [= <-] p [Hp | Hp]%elem_of_app.
    + destruct (candidates_of_sound _ _ _ _ _ _ Hrow p Hp)
        as (Hr & Hb & Hid & j & v & Hj & Hm & Hc).
      rewrite (canonical_pair_comm (matched_user_id p)).
      repeat split; try done.
      exists 0%nat, (S j), u, v. repeat split; try done. lia.
    + destruct (IH rest eq_refl p Hp)
        as (Hr & Hr' & Hb & Hb' & i & j & u' & v & Hij & Hi & Hj & Hids).
      repeat split; try done.
      exists (S i), (S j), u', v. repeat split; try done; [lia | apply Hids..].
Qed.

(** C4. Every pair emitted by [build_candidate_pairs] has its canonical
    (order-independent) form in neither the recency set nor the blocked
    set, and comes from two pool entries that are mutually
    gender-preference compatible: both identities are set and each is a
    member of the other's seeking set. *)
Theorem build_candidate_pairs_sound
    (users : list user) (cfg : option config) (recent_pairs blocked_pairs : option pair_set)
    (cands : list MatchCandidate) :
  build_candidate_pairs users cfg recent_pairs blocked_pairs = Ok cands →
  ∀ p, p ∈ cands →
    (canonical_pair (cand_user_id p) (matched_user_id p) ∉ default ∅ recent_pairs)
    ∧ (canonical_pair (matched_user_id p) (cand_user_id p) ∉ default ∅ recent_pairs)
    ∧ (canonical_pair (cand_user_id p) (matched_user_id p) ∉ default ∅ blocked_pairs)
    ∧ (canonical_pair (matched_user_id p) (cand_user_id p) ∉ default ∅ blocked_pairs)
    ∧ ∃ i j u v,
        (i < j)%nat ∧ users !! i = Some u ∧ users !! j = Some v
        ∧ cand_user_id p = user_id u ∧ matched_user_id p = user_id v
        ∧ mutually_compatible u v.
Proof. unfold build_candidate_pairs. apply candidates_loop_sound. Qed.

(** ** Sorting and pairwise disjointness *)

Lemma sorted_insert_perm {A : Type} (lt : A → A → bool) (x : A) (l : list A) :
  sorted_insert lt x l ≡ₚ x :: l.
Proof.
  induction l as [| y l IH]; cbn; [done |].
  destruct (lt x y); [done |]. rewrite IH. apply Permutation_swap.
Qed.

Lemma py_sorted_perm {A : Type} (lt : A → A → bool) (l : list A) :
  py_sorted lt l ≡ₚ l.
Proof.
  unfold py_sorted.
  enough (∀ acc, foldl (λ acc x, sorted_insert lt x acc) acc l ≡ₚ acc ++ l) as H
    by apply (H []).
  induction l as [| x l IH]; intros acc; cbn.
  - by rewrite app_nil_r.
  - rewrite IH, sorted_insert_perm. cbn. apply Permutation_middle.
Qed.

Lemma disjoint_list_lookup (l : list (gset string)) :
  disjoint_list l ↔ one_pair_per_user l.
Proof.
  unfold one_pair_per_user. induction l as [| x l IH]; cbn.
  - split; [by intros _ [] | done].
  - rewrite IH, Forall_forall. split.
    + intros [Hx Hl] [| i] [| j] a b Ha Hb Hij; simplify_eq/=.
      * apply Hx. by eapply list_elem_of_lookup_2.
      * symmetry. apply Hx. by eapply list_elem_of_lookup_2.
      * eapply (Hl i j); eauto.
    + intros H. split.
      * intros y [j Hj]%list_elem_of_lookup. by apply (H 0%nat (S j)).
      * intros i j a b Ha Hb Hij. apply (H (S i) (S j)); auto.
Qed.



Lemma disjoint_list_snoc (l : list (gset string)) (x : gset string) :
  disjoint_list l → Forall (λ y, y ## x) l → disjoint_list (l ++ [x]).
Proof.
  induction l as [| y l IH]; cbn; [done |].
  intros [Hy Hl] [Hyx Hlx]%Forall_cons. split; [| auto].
  apply Forall_app. split; [done |]. by apply Forall_singleton.
Qed.



(** ** One pair per user: the general path *)




(** ** Deferred acceptance: the loop invariant *)

Lemma lookup_zero_map (l : list string) (m : string) :
  m ∈ l → (list_to_map ((λ m, (m, 0%nat)) <$> l) : gmap string nat) !! m = Some 0%nat.
Proof.
  intros Hm. apply elem_of_list_to_map_1'.
  - intros y (m' & [= _ ->] & _)%list_elem_of_fmap. done.
  - apply list_elem_of_fmap. by exists m.
Qed.

Section gs.
Variable prefs : preferences.
Variables men women : list string.

Lemma gs_init_inv : NoDup men → gs_inv prefs men women (gs_init men).
Proof.
  intros Hnd. split; cbn; try done.
  - intros m Hm. rewrite lookup_zero_map by done. by eexists.
  - split; [constructor |]. intros w. rewrite lookup_empty.
    split; [by intros ?%elem_of_nil | by intros [? ?]].
  - intros m i j w Hi Hj. apply elem_of_list_to_map_2 in Hi.
    apply list_elem_of_fmap in Hi as (m' & [= _ ->] & _). lia.
Qed.

(** The proposer has exhausted his list. *)
Lemma gs_inv_exhausted (st : gs_state) (m : string) (rest : list string) :
  gs_inv prefs men women st → free st = m :: rest →
  gs_inv prefs men women
    {| free := rest; next_idx := next_idx st; engaged_to := engaged_to st;
       engaged_order := engaged_order st |}.
Proof.
  intros [H1 H2 H3 H4 H5 H6 H7 H8] Hf. rewrite Hf in *.
  split; cbn; try done.
  - intros m' Hm'. apply H1. by right.
  - by apply NoDup_cons in H2 as [_ ?].
  - intros w m' Hw. destruct (H4 w m' Hw) as (? & ? & Hn).
    repeat split; try done. intros ?. apply Hn. by right.
Qed.

(** The proposal of [m] to [w] is turned down: [w] is not a woman of
    the pool, or she holds a man she ranks at least as well. *)
Lemma gs_inv_rejected (st : gs_state) (m w : string) (rest : list string) (i : nat) :
  gs_inv prefs men women st → free st = m :: rest →
  next_idx st !! m = Some i → prefs_get prefs m !! i = Some w →
  (w ∈ women → ∃ cur, engaged_to st !! w = Some cur
                      ∧ (woman_rank prefs w cur ≤ woman_rank prefs w m)%Z) →
  gs_inv prefs men women
    {| free := rest ++ [m]; next_idx := <[m := S i]> (next_idx st);
       engaged_to := engaged_to st; engaged_order := engaged_order st |}.
Proof.
  intros [H1 H2 H3 H4 H5 H6 H7 H8] Hf Hi Hw Hrej. rewrite Hf in *.
  apply NoDup_cons in H2 as [Hm Hrest].
  assert (∀ w' m', engaged_to st !! w' = Some m' → m' ≠ m) as Hne.
  { intros w' m' Hw' ->. destruct (H4 w' m Hw') as (_ & _ & Hn).
    apply Hn. by left. }
  split; cbn; try done.
  - intros m' [Hm' | ->%list_elem_of_singleton]%elem_of_app; apply H1;
      [by right | by left].
  - apply NoDup_app. repeat split; [done | | apply NoDup_singleton].
    intros x Hx ->%list_elem_of_singleton. done.
  - intros m' Hm'. rewrite lookup_insert. case_decide; [by eexists | by apply H3].
  - intros w' m' Hw'. destruct (H4 w' m' Hw') as (? & ? & Hn).
    repeat split; try done.
    intros [? | ->%list_elem_of_singleton]%elem_of_app; apply Hn;
      [by right | by left].
  - intros w' m' Hw'. destruct (H7 w' m' Hw') as (i' & Hi' & Hp).
    exists i'. rewrite lookup_insert_ne; [done |]. intros <-. by eapply Hne.
  - intros m' i' j w' Hi' Hj Hp Hwom.
    rewrite lookup_insert in Hi'. case_decide as Hmm; [| by eapply H8].
    subst m'. injection Hi' as <-.
    destruct (decide (j = i)) as [-> | Hji].
    + rewrite Hw in Hp. injection Hp as <-. by apply Hrej.
    + apply (H8 m i j w'); [done | lia | done | done].
Qed.

(** The proposal of [m] to [w] is accepted; [extra] is the man she
    releases, if any. *)
Lemma gs_inv_accepted (st : gs_state) (m w : string) (rest extra order' : list string)
    (i : nat) :
  gs_inv prefs men women st → free st = m :: rest →
  next_idx st !! m = Some i → prefs_get prefs m !! i = Some w →
  w ∈ women →
  (engaged_to st !! w = None ∧ extra = [] ∧ order' = engaged_order st ++ [w])
  ∨ (∃ cur, engaged_to st !! w = Some cur ∧ extra = [cur]
            ∧ order' = engaged_order st
            ∧ (woman_rank prefs w m < woman_rank prefs w cur)%Z) →
  gs_inv prefs men women
    {| free := rest ++ extra; next_idx := <[m := S i]> (next_idx st);
       engaged_to := <[w := m]> (engaged_to st); engaged_order := order' |}.
Proof.
  intros [H1 H2 H3 H4 H5 H6 H7 H8] Hf Hi Hw Hwom Hcase. rewrite Hf in *.
  apply NoDup_cons in H2 as [Hm Hrest].
  assert (∀ w' m', engaged_to st !! w' = Some m' → m' ≠ m) as Hne.
  { intros w' m' Hw' ->. destruct (H4 w' m Hw') as (_ & _ & Hn).
    apply Hn. by left. }
  assert (∀ x, x ∈ extra → engaged_to st !! w = Some x) as Hextra.
  { intros x Hx. destruct Hcase as [(_ & -> & _) | (cur & Hc & -> & _)].
    - by apply elem_of_nil in Hx.
    - by apply list_elem_of_singleton in Hx as ->. }
  assert (NoDup extra) as Hnd.
  { destruct Hcase as [(_ & -> & _) | (cur & _ & -> & _)];
      [constructor | apply NoDup_singleton]. }
  split; cbn.
  - intros m' [Hm' | Hm']%elem_of_app; [apply H1; by right |].
    by destruct (H4 w m' (Hextra m' Hm')).
  - apply NoDup_app. repeat split; [done | | done].
    intros x Hx Hx'. destruct (H4 w x (Hextra x Hx')) as (_ & _ & Hn).
    apply Hn. by right.
  - intros m' Hm'. rewrite lookup_insert. case_decide; [by eexists | by apply H3].
  - intros w' m' Hw'. rewrite lookup_insert in Hw'. case_decide as Hww.
    + injection Hw' as <-. subst w'. repeat split; [apply H1; by left | done |].
      intros [? | Hx]%elem_of_app; [done |].
      by apply (Hne w m (Hextra m Hx)).
    + destruct (H4 w' m' Hw') as (? & ? & Hn). repeat split; try done.
      intros [? | Hx]%elem_of_app; [apply Hn; by right |].
      apply Hww. by apply (H5 w w' m' (Hextra m' Hx) Hw').
  - intros w1 w2 m'. rewrite !lookup_insert.
    repeat case_decide; subst; intros; simplify_eq; try done.
    + exfalso. by eapply Hne.
    + exfalso. by eapply Hne.
    + by eapply H5.
  - destruct H6 as [Hnd' Hord].
    destruct Hcase as [(Hnone & _ & ->) | (cur & Hc & _ & -> & _)].
    + split.
      * apply NoDup_app. repeat split; [done | | apply NoDup_singleton].
        intros x Hx ->%list_elem_of_singleton. apply Hord in Hx as [? Hx].
        congruence.
      * intros w'. rewrite elem_of_app, list_elem_of_singleton, Hord, lookup_insert.
        case_decide; subst; split; try tauto; eauto.
        intros [? | ?]; done.
    + split; [done |]. intros w'. rewrite Hord, lookup_insert.
      case_decide; subst; split; eauto.
  - intros w' m' Hw'. rewrite lookup_insert in Hw'. case_decide as Hww.
    + injection Hw' as <-. subst w'. exists i. by rewrite lookup_insert_eq.
    + destruct (H7 w' m' Hw') as (i' & Hi' & Hp).
      exists i'. rewrite lookup_insert_ne; [done |]. intros <-. by eapply Hne.
  - intros m' i' j w' Hi' Hj Hp Hwom'.
    assert (∃ m0, engaged_to st !! w' = Some m0
                  ∧ (woman_rank prefs w' m0 ≤ woman_rank prefs w' m')%Z
            ∨ (w' = w ∧ m' = m)) as Hold.
    { rewrite lookup_insert in Hi'. case_decide as Hmm.
      - subst m'. injection Hi' as <-.
        destruct (decide (j = i)) as [-> | Hji].
        + rewrite Hw in Hp. injection Hp as <-. exists m. by right.
        + destruct (H8 m i j w') as (m0 & ? & ?); [done | lia | done | done |].
          exists m0. by left.
      - destruct (H8 m' i' j w') as (m0 & ? & ?); try done.
        exists m0. by left. }
    destruct Hold as (m0 & [[Hm0 Hr] | [-> ->]]).
    2: { exists m. by rewrite lookup_insert_eq. }
    rewrite lookup_insert. case_decide as Hww; [| by exists m0].
    subst w'. exists m. split; [done |].
    destruct Hcase as [(Hnone & _) | (cur & Hc & _ & _ & Hlt)]; [congruence |].
    assert (m0 = cur) as -> by congruence. lia.
Qed.

Lemma gs_step_inv (st st' : gs_state) :
  gs_inv prefs men women st → gs_step prefs women st = Some st' →
  gs_inv prefs men women st'.
Proof.
  intros Hinv. unfold gs_step.
  destruct (free st) as [| m rest] eqn:Hf; [done |].
  destruct (inv_idx _ _ _ _ Hinv m) as [i Hi].
  { eapply inv_free_men; [done |]. rewrite Hf. by left. }
  rewrite Hi. cbn [default from_option id].
  destruct (prefs_get prefs m !! i) as [w |] eqn:Hw.
  2: { intros [= <-]. by eapply gs_inv_exhausted. }
  destruct (bool_decide (w ∈ women)) eqn:Hwom.
  2: { apply bool_decide_eq_false in Hwom. intros [= <-].
       by eapply gs_inv_rejected. }
  apply bool_decide_eq_true in Hwom.
  destruct (engaged_to st !! w) as [cur |] eqn:Hcur.
  2: { intros [= <-]. rewrite <- (app_nil_r rest).
       eapply gs_inv_accepted; eauto. }
  destruct (bool_decide (woman_rank prefs w m < woman_rank prefs w cur)%Z) eqn:Hlt;
    intros [= <-].
  - apply bool_decide_eq_true in Hlt.
    eapply gs_inv_accepted; eauto. right. by exists cur.
  - apply bool_decide_eq_false in Hlt.
    eapply gs_inv_rejected; eauto. intros _. exists cur. split; [done | lia].
Qed.

Lemma gs_loop_inv (fuel : nat) (st : gs_state) :
  gs_inv prefs men women st → gs_inv prefs men women (gs_loop prefs women fuel st).
Proof.
  revert st. induction fuel as [| fuel IH]; intros st Hinv; cbn; [done |].
  destruct (gs_step prefs women st) as [st' |] eqn:Hstep; [| done].
  apply IH. by eapply gs_step_inv.
Qed.

End gs.

(** ** Deferred acceptance: termination *)



Section gs_termination.
Variable prefs : preferences.
Variables men women : list string.





End gs_termination.

(** ** One pair per user: the two-sided path *)

Lemma ids_of_gender_NoDup (users : list user) (g : string) :
  NoDup (user_id <$> users) → NoDup (ids_of_gender users g).
Proof.
  intros Hnd. unfold ids_of_gender.
  eapply sublist_NoDup; [exact Hnd | apply fmap_sublist, sublist_filter].
Qed.




Lemma _stable_bipartite_match_inv (users : list user) (prefs : preferences) :
  NoDup (user_id <$> users) →
  let men := ids_of_gender users "man" in
  let women := ids_of_gender users "woman" in
  gs_inv prefs men women (gs_loop prefs women (gs_fuel prefs men) (gs_init men)).
Proof.
  intros Hnd men women. apply gs_loop_inv, gs_init_inv.
  by apply ids_of_gender_NoDup.
Qed.


(** ** One pair per user: [stable_match] *)

Lemma pair_map_of_lookup (pairs : list MatchCandidate) (k : string * string)
    (p : MatchCandidate) :
  pair_map_of pairs !! k = Some p →
  k = canonical_pair (cand_user_id p) (matched_user_id p).
Proof.
  unfold pair_map_of.
  enough (∀ m : gmap (string * string) MatchCandidate,
            (∀ k p, m !! k = Some p →
                    k = canonical_pair (cand_user_id p) (matched_user_id p)) →
            ∀ k p,
              foldl (λ m p, <[canonical_pair (cand_user_id p) (matched_user_id p) := p]> m)
                m pairs !! k = Some p →
              k = canonical_pair (cand_user_id p) (matched_user_id p)) as H.
  { apply H. intros k' p'. by rewrite lookup_empty. }
  induction pairs as [| q pairs IH]; intros m Hm k' p'; cbn; [apply Hm |].
  apply IH. intros k'' p''. rewrite lookup_insert.
  case_decide; [by intros [= <-] | apply Hm].
Qed.



(** ** The assignment table *)

Section table.
Context `{EqDecision date}.



End table.

(** ** Stability of the two-sided matching *)








(** ** Trait computation: the required answers *)

Lemma no_value_error_bind {A B : Type} (m : result A) (k : A → result B) :
  no_value_error m → (∀ a, no_value_error (k a)) → no_value_error (rbind m k).
Proof.
  intros Hm Hk msg. destruct m as [a | e]; cbn; [apply Hk |].
  intros [= ->]. by eapply Hm.
Qed.

Lemma no_value_error_py_get (v : pyval) (k : string) (d : pyval) :
  no_value_error (py_get v k d).
Proof. intros msg. by destruct v. Qed.

Lemma no_value_error_py_iter (v : pyval) : no_value_error (py_iter v).
Proof. intros msg. by destruct v. Qed.

Lemma no_value_error_py_in_strs (v : pyval) (l : list string) :
  no_value_error (py_in_strs v l).
Proof. intros msg. by destruct v. Qed.

Lemma no_value_error_answers_get (answers : answer_map) (v : pyval) :
  no_value_error (answers_get answers v).
Proof. intros msg. by destruct v. Qed.

Lemma no_value_error_Ok {A : Type} (a : A) : no_value_error (Ok a).
Proof. by intros msg. Qed.

Lemma no_value_error_if {A : Type} (c : bool) (x y : result A) :
  no_value_error x → no_value_error y → no_value_error (if c then x else y).
Proof. by destruct c. Qed.

Ltac no_value_error :=
  repeat first
    [ apply no_value_error_Ok
    | apply no_value_error_py_get
    | apply no_value_error_py_iter
    | apply no_value_error_py_in_strs
    | apply no_value_error_answers_get
    | apply no_value_error_if
    | apply no_value_error_bind; [| intros ?] ].

Lemma fold_items_no_value_error {S : Type} (f : S → pyval → result S)
    (items : list pyval) (s : S) :
  (∀ s q, no_value_error (f s q)) → no_value_error (fold_items f items s).
Proof.
  intros Hf. revert s. induction items as [| item items IH]; intros s; cbn.
  - apply no_value_error_Ok.
  - unfold mbind, result_bind. no_value_error; [apply Hf | apply IH].
Qed.

Lemma fold_screens_no_value_error {S : Type} (f : S → pyval → result S)
    (screens : list pyval) (s : S) :
  (∀ s q, no_value_error (f s q)) → no_value_error (fold_screens f screens s).
Proof.
  intros Hf. revert s. induction screens as [| screen screens IH]; intros s; cbn.
  - apply no_value_error_Ok.
  - unfold mbind, result_bind. no_value_error;
      [by apply fold_items_no_value_error | apply IH].
Qed.

Lemma fold_questions_no_value_error {S : Type} (f : S → pyval → result S)
    (survey_def : pyval) (s : S) :
  (∀ s q, no_value_error (f s q)) → no_value_error (fold_questions f survey_def s).
Proof.
  intros Hf. unfold fold_questions, mbind, result_bind. no_value_error.
  by apply fold_screens_no_value_error.
Qed.

Lemma meta_step_no_value_error (meta : list (string * question_meta)) (q : pyval) :
  no_value_error (meta_step meta q).
Proof. unfold meta_step, mbind, result_bind. no_value_error. Qed.

Lemma _build_question_meta_no_value_error (survey_def : pyval) :
  no_value_error (_build_question_meta survey_def).
Proof.
  apply fold_questions_no_value_error. intros. apply meta_step_no_value_error.
Qed.

Lemma v3_profile_no_value_error (qmeta : list (string * question_meta))
    (answers : answer_map) :
  no_value_error (v3_profile qmeta answers).
Proof. unfold v3_profile, mbind, result_bind. no_value_error. Qed.

Lemma _compute_traits_legacy_v1_no_value_error (survey_def : pyval) (answers : answer_map) :
  no_value_error (_compute_traits_legacy_v1 survey_def answers).
Proof.
  unfold _compute_traits_legacy_v1, mbind, result_bind.
  apply no_value_error_bind; [apply _build_question_meta_no_value_error | intros ?].
  no_value_error.
Qed.

Lemma fold_list_app {S : Type} (f : S → pyval → result S) (qs qs' : list pyval) (s : S) :
  fold_list f (qs ++ qs') s = rbind (fold_list f qs s) (fold_list f qs').
Proof.
  revert s. induction qs as [| q qs IH]; intros s; cbn; [done |].
  unfold mbind, result_bind. destruct (f s q); cbn; [apply IH | done].
Qed.

Lemma fold_items_list {S : Type} (f : S → pyval → result S) (items qs : list pyval) (s : S) :
  items_questions items = Ok qs → fold_items f items s = fold_list f qs s.
Proof.
  revert qs s. induction items as [| item items IH]; intros qs s; cbn.
  - by intros [= <-].
  - unfold mbind, result_bind.
    destruct (py_get item "question" PNone) as [q |]; cbn [rbind]; [| done].
    destruct (items_questions items) as [qs' |]; cbn [rbind]; [| done].
    intros [= <-]. cbn. unfold mbind, result_bind.
    destruct (f s (py_or q empty_dict)); cbn; [by apply IH | done].
Qed.

Lemma fold_screens_list {S : Type} (f : S → pyval → result S) (screens qs : list pyval)
    (s : S) :
  screens_questions screens = Ok qs → fold_screens f screens s = fold_list f qs s.
Proof.
  revert qs s. induction screens as [| screen screens IH]; intros qs s; cbn.
  - by intros [= <-].
  - unfold mbind, result_bind.
    destruct (py_get screen "items" (PList [])) as [items |]; cbn [rbind]; [| done].
    destruct (py_iter items) as [items' |]; cbn [rbind]; [| done].
    destruct (items_questions items') as [qs1 |] eqn:H1; cbn [rbind]; [| done].
    destruct (screens_questions screens) as [qs2 |]; cbn [rbind]; [| done].
    intros [= <-]. rewrite fold_list_app, (fold_items_list f _ _ _ H1).
    destruct (fold_list f qs1 s); cbn; [by apply IH | done].
Qed.

Lemma fold_questions_list {S : Type} (f : S → pyval → result S) (survey_def : pyval)
    (qs : list pyval) (s : S) :
  survey_questions survey_def = Ok qs →
  fold_questions f survey_def s = fold_list f qs s.
Proof.
  unfold survey_questions, fold_questions, mbind, result_bind.
  destruct (py_get survey_def "screens" (PList [])) as [screens |]; cbn [rbind]; [| done].
  destruct (py_iter screens) as [screens' |]; cbn [rbind]; [| done].
  apply fold_screens_list.
Qed.

(** When the loops complete, every item could be read. *)
Lemma fold_items_questions {S : Type} (f : S → pyval → result S) (items : list pyval)
    (s r : S) :
  fold_items f items s = Ok r → ∃ qs, items_questions items = Ok qs.
Proof.
  revert s. induction items as [| item items IH]; intros s; cbn; [by eexists |].
  unfold mbind, result_bind.
  destruct (py_get item "question" PNone) as [q |]; cbn [rbind]; [| done].
  destruct (f s (py_or q empty_dict)) as [s' |]; cbn [rbind]; [| done].
  intros [qs ->]%IH. by eexists.
Qed.

Lemma fold_screens_questions {S : Type} (f : S → pyval → result S) (screens : list pyval)
    (s r : S) :
  fold_screens f screens s = Ok r → ∃ qs, screens_questions screens = Ok qs.
Proof.
  revert s. induction screens as [| screen screens IH]; intros s; cbn; [by eexists |].
  unfold mbind, result_bind.
  destruct (py_get screen "items" (PList [])) as [items |]; cbn [rbind]; [| done].
  destruct (py_iter items) as [items' |]; cbn [rbind]; [| done].
  destruct (fold_items f items' s) as [s' |] eqn:H1; cbn [rbind]; [| done].
  apply fold_items_questions in H1 as [qs1 ->].
  intros [qs ->]%IH. by eexists.
Qed.

Lemma fold_questions_questions {S : Type} (f : S → pyval → result S) (survey_def : pyval)
    (s r : S) :
  fold_questions f survey_def s = Ok r → ∃ qs, survey_questions survey_def = Ok qs.
Proof.
  unfold survey_questions, fold_questions, mbind, result_bind.
  destruct (py_get survey_def "screens" (PList [])) as [screens |]; cbn [rbind]; [| done].
  destruct (py_iter screens) as [screens' |]; cbn [rbind]; [| done].
  apply fold_screens_questions.
Qed.

Lemma missing_code_dict (answers : answer_map) (q : pyval) (c : option string) :
  missing_code answers q = Ok c → ∃ d, q = PDict d.
Proof. destruct q; try done. by eexists. Qed.

Lemma meta_step_dict (meta : list (string * question_meta)) (d : list (string * pyval)) :
  ∃ meta', meta_step meta (PDict d) = Ok meta'.
Proof.
  unfold meta_step, mbind, result_bind. cbn [py_get rbind].
  destruct (negb _); by eexists.
Qed.

Lemma missing_step_unfold (answers : answer_map) (acc : list string) (q : pyval) :
  missing_step answers acc q
  = rbind (missing_code answers q) (λ c, Ok (acc ++ option_list c)).
Proof. reflexivity. Qed.

Lemma fold_list_missing_meta (answers : answer_map) (qs : list pyval)
    (acc r : list string) (meta : list (string * question_meta)) :
  fold_list (missing_step answers) qs acc = Ok r →
  ∃ meta', fold_list meta_step qs meta = Ok meta'.
Proof.
  revert acc meta. induction qs as [| q qs IH]; intros acc meta; cbn; [by eexists |].
  unfold mbind, result_bind. rewrite missing_step_unfold.
  destruct (missing_code answers q) as [c |] eqn:Hc; cbn [rbind]; [| done].
  apply missing_code_dict in Hc as [d ->].
  destruct (meta_step_dict meta d) as [meta' ->]. cbn [rbind]. apply IH.
Qed.

Lemma fold_list_missing_elem (answers : answer_map) (qs : list pyval)
    (acc r : list string) :
  fold_list (missing_step answers) qs acc = Ok r →
  ∀ c, c ∈ r ↔ c ∈ acc ∨ ∃ q, q ∈ qs ∧ missing_code answers q = Ok (Some c).
Proof.
  revert acc. induction qs as [| q qs IH]; intros acc; cbn.
  - intros [= <-] c. split; [by left |]. intros [? | (q & Hq%elem_of_nil & _)]; done.
  - unfold mbind, result_bind. rewrite missing_step_unfold.
    destruct (missing_code answers q) as [oc |] eqn:Hc; cbn [rbind]; [| done].
    intros Hr c. rewrite (IH _ Hr c), elem_of_app. split.
    + intros [[? | Hoc] | (q' & Hq' & Hm)].
      * by left.
      * right. exists q. split; [by left |].
        destruct oc as [c' |]; [| by apply elem_of_nil in Hoc].
        by apply list_elem_of_singleton in Hoc as ->.
      * right. exists q'. split; [by right | done].
    + intros [? | (q' & [-> | Hq']%elem_of_cons & Hm)].
      * by left; left.
      * left; right. rewrite Hm in Hc. injection Hc as <-. by left.
      * right. by exists q'.
Qed.

Lemma missing_code_offending (answers : answer_map) (q : pyval) (c : string) :
  missing_code answers q = Ok (Some c) ↔ offending answers q c.
Proof.
  unfold offending. split.
  - destruct q as [| | | | | d]; try done.
    unfold missing_code, mbind, result_bind. cbn [py_get rbind].
    set (code := default PNone (dict_get d "code")).
    destruct (truthy code) eqn:Hcode; cbn [negb]; [| done].
    destruct (truthy (default (PBool false) (dict_get d "is_required"))) eqn:Hreq;
      cbn [negb]; [| done].
    destruct (truthy (default (PBool false) (dict_get d "allow_skip"))) eqn:Hskip;
      [done |].
    intros H.
    assert (is_str "KIDS_02" code = true →
            py_in_strs (_answer_scalar (default PNone (dict_get answers "KIDS_01")))
              ["yes"; "probably"] = Ok true) as Hkids.
    { intros Hk. rewrite Hk in H.
      destruct (py_in_strs _ _) as [[] |]; cbn in H; done. }
    assert (rbind (answers_get answers code)
              (λ value, match _answer_scalar value with
                        | PNone => Ok (Some (py_str code))
                        | PStr "" => Ok (Some (py_str code))
                        | _ => Ok None
                        end) = Ok (Some c)) as H'.
    { destruct (is_str "KIDS_02" code); [| exact H].
      destruct (py_in_strs _ _) as [[] |]; cbn in H; done. }
    clear H. destruct (answers_get answers code) as [v |] eqn:Hv; cbn in H'; [| done].
    exists d, code, v. repeat split; try done.
    + destruct (_answer_scalar v) as [| | | [| ? ?] | |]; by simplify_eq.
    + destruct (_answer_scalar v) as [| | | [| ? ?] | |]; simplify_eq; auto.
  - intros (d & code & v & -> & Hcd & Hcode & <- & Hreq & Hskip & Hkids & Hv & Hs).
    unfold missing_code, mbind, result_bind. cbn [py_get rbind].
    rewrite <- Hcd, Hcode, Hreq, Hskip. cbn [negb].
    destruct (is_str "KIDS_02" code).
    + rewrite Hkids by done. cbn. rewrite Hv. cbn. by destruct Hs as [-> | ->].
    + cbn. rewrite Hv. cbn. by destruct Hs as [-> | ->].
Qed.

Lemma elem_of_sorted_set (l : list string) (c : string) :
  c ∈ py_sorted String.ltb (remove_dups l) ↔ c ∈ l.
Proof. by rewrite py_sorted_perm, elem_of_remove_dups. Qed.

Lemma _required_missing_codes_spec (survey_def : pyval) (answers : answer_map)
    (missing : list string) :
  _required_missing_codes survey_def answers = Ok missing →
  ∃ qs, survey_questions survey_def = Ok qs
        ∧ (∀ c, c ∈ missing ↔ ∃ q, q ∈ qs ∧ offending answers q c)
        ∧ ∃ qmeta, _build_question_meta survey_def = Ok qmeta.
Proof.
  unfold _required_missing_codes, _build_question_meta, mbind, result_bind.
  destruct (fold_questions (missing_step answers) survey_def []) as [raw |] eqn:Hf;
    cbn [rbind]; [| done].
  intros [= <-].
  destruct (fold_questions_questions _ _ _ _ Hf) as [qs Hqs].
  rewrite (fold_questions_list _ _ _ _ Hqs) in Hf.
  exists qs. split; [done |]. split.
  - intros c. rewrite elem_of_sorted_set, (fold_list_missing_elem _ _ _ _ Hf c).
    split.
    + intros [?%elem_of_nil | (q & Hq & Hm)]; [done |].
      exists q. by rewrite <- missing_code_offending.
    + intros (q & Hq & Hm). right. exists q. by rewrite missing_code_offending.
  - rewrite (fold_questions_list _ _ _ _ Hqs). by eapply fold_list_missing_meta.
Qed.

(** C6 (amended). For a definition that [compute_traits] dispatches to the
    current schedule (slug "match-core-v3", version 1), the computation
    raises the error for unanswered required questions, listing the sorted
    codes, exactly when some question is offending: it is required, may not
    be skipped, has no answer ([None] or [""]) and is not the follow-up
    [KIDS_02] of a user whose [KIDS_01] is neither "yes" nor "probably"; no
    profile is returned then. When no question is offending that error is
    not raised. For a definition dispatched to the legacy schedule the
    error is never raised. *)
Theorem compute_traits_required_answers (survey_def : pyval) (answers : answer_map) :
  (uses_current_schedule survey_def = Ok true →
   ∀ missing, _required_missing_codes survey_def answers = Ok missing →
     (∃ qs, survey_questions survey_def = Ok qs
            ∧ ∀ c, c ∈ missing ↔ ∃ q, q ∈ qs ∧ offending answers q c)
     ∧ (missing ≠ [] →
        compute_traits survey_def answers
        = Raise (ValueError (missing_required_message missing)))
     ∧ (missing = [] →
        not_missing_required_error (compute_traits survey_def answers)))
  ∧ (uses_current_schedule survey_def = Ok false →
     not_missing_required_error (compute_traits survey_def answers)).
Proof.
  unfold compute_traits, mbind, result_bind. split.
  - intros -> missing Hm. cbn [rbind].
    destruct (_required_missing_codes_spec _ _ _ Hm) as (qs & Hqs & Hin & qmeta & Hq).
    split; [by exists qs |].
    unfold compute_traits_match_core_v3, mbind, result_bind.
    rewrite Hq, Hm. cbn [rbind]. split.
    + by destruct missing.
    + intros -> codes. apply v3_profile_no_value_error.
  - intros -> codes. cbn [rbind]. apply _compute_traits_legacy_v1_no_value_error.
Qed.

(** ** Reconciliation *)

Lemma dict_get_dict_set {A : Type} (d : list (string * A)) (k k' : string) (v : A) :
  dict_get (dict_set d k v) k' = if decide (k = k') then Some v else dict_get d k'.
Proof.
  induction d as [|[k0 v0] d IH]; cbn.
  - by destruct (decide (k = k')).
  - destruct (decide (k0 = k)) as [->|Hne]; cbn.
    + by destruct (decide (k = k')).
    + destruct (decide (k0 = k')) as [->|Hne'].
      * by destruct (decide (k = k')) as [->|_].
      * apply IH.
Qed.

Lemma elem_of_dict_set {A : Type} (d : list (string * A)) (k : string) (v : A) kv :
  kv ∈ dict_set d k v → kv = (k, v) ∨ kv ∈ d.
Proof.
  induction d as [|[k0 v0] d IH]; cbn.
  - intros ->%list_elem_of_singleton. by left.
  - destruct (decide (k0 = k)) as [->|Hne].
    + intros [->|Hin]%elem_of_cons; [by left|]. right. by apply elem_of_cons; right.
    + intros [->|Hin]%elem_of_cons.
      * right. by apply elem_of_cons; left.
      * destruct (IH Hin) as [->|Hd]; [by left|]. right. by apply elem_of_cons; right.
Qed.

Lemma dict_get_elem_of {A : Type} (d : list (string * A)) (k : string) (v : A) :
  dict_get d k = Some v → (k, v) ∈ d.
Proof.
  induction d as [|[k0 v0] d IH]; cbn; [done|].
  destruct (decide (k0 = k)) as [->|Hne].
  - intros [= ->]. by apply elem_of_cons; left.
  - intros Hget. apply elem_of_cons; right. by apply IH.
Qed.

Lemma elem_of_dict_get {A : Type} (d : list (string * A)) (k : string) (v : A) :
  (k, v) ∈ d → is_Some (dict_get d k).
Proof.
  induction d as [|[k0 v0] d IH]; cbn.
  - by intros ?%elem_of_nil.
  - intros [[= <- <-]|Hin]%elem_of_cons.
    + rewrite decide_True by done. by eexists.
    + destruct (decide (k0 = k)); [by eexists|by apply IH].
Qed.

(** The reads of [reconcile] go to the three survey tables only. *)
Lemma reconcile_reads (db db' : database) definition user_id tenant_id :
  survey_session db' = survey_session db →
  survey_answer db' = survey_answer db →
  survey_definition db' = survey_definition db →
  reconcile db' definition user_id tenant_id = reconcile db definition user_id tenant_id.
Proof.
  intros Hs Ha Hd.
  unfold reconcile, get_active_survey_runtime, get_active_definition,
    _fetch_latest_response, _definitions_for_slug.
  by rewrite Hs, Ha, Hd.
Qed.

Lemma rec_key_do_update new now r : rec_key (do_update new now r) = rec_key r.
Proof. done. Qed.

Lemma upsert_reconciliation_keys table new now :
  rec_key new ∈ rec_key <$> upsert_reconciliation table new now.
Proof.
  unfold upsert_reconciliation. case_bool_decide as Hin.
  - rewrite <- list_fmap_compose.
    erewrite list_fmap_ext; [exact Hin|].
    intros i r _. cbn. by case_bool_decide.
  - rewrite fmap_app. apply elem_of_app; right. by apply list_elem_of_singleton.
Qed.

Lemma upsert_reconciliation_stores table res id now r :
  r ∈ upsert_reconciliation table (reconciliation_row_of res id now) now →
  rec_key r = rec_key (reconciliation_row_of res id now) →
  stores res r.
Proof.
  unfold upsert_reconciliation. case_bool_decide as Hin.
  - intros (r0 & -> & Hr0)%list_elem_of_fmap. case_bool_decide as Hk.
    + intros _. by repeat split.
    + by intros ?.
  - intros [Hr| ->%list_elem_of_singleton]%elem_of_app Hk.
    + destruct Hin. rewrite <- Hk. by apply list_elem_of_fmap_2.
    + by repeat split.
Qed.

Lemma do_update_touch res id now r :
  stores res r →
  do_update (reconciliation_row_of res id now) now r
  = touch (rec_key r) now r.
Proof.
  intros (H1 & H2 & H3 & H4 & H5 & H6 & H7).
  unfold touch. rewrite bool_decide_eq_true_2 by done.
  unfold do_update. cbn. by rewrite H1, H2, H3, H4, H5, H6, H7.
Qed.

(** C7 (amended): reconciliation is idempotent up to the time stamp. With
    no change to the sessions, the answers and the definitions in between,
    a second run of [reconcile_user_survey_to_current] returns the same
    result as the first (in particular the same [missing_question_ids] and
    [needs_retake]); its upsert, keyed by (user, slug, current hash),
    creates no row and changes no column of the stored row but
    [updated_at], which it sets to the time of the second run. *)
Theorem reconcile_user_survey_to_current_idempotent
    (db : database) (definition : pyval) (now1 now2 : datetime) (drawn1 drawn2 : nat)
    (user_id : string) (tenant_id : option string)
    (res1 : reconciliation) (db1 : database) :
  reconcile_user_survey_to_current db definition now1 drawn1 user_id tenant_id
    = Ok (res1, db1) →
  ∃ db2,
    reconcile_user_survey_to_current db1 definition now2 drawn2 user_id tenant_id
      = Ok (res1, db2)
    ∧ survey_session db2 = survey_session db1
    ∧ survey_answer db2 = survey_answer db1
    ∧ survey_definition db2 = survey_definition db1
    ∧ survey_reconciliation_state db2
      = touch (user_id, res_survey_slug res1, res_current_survey_hash res1) now2
          <$> survey_reconciliation_state db1
    ∧ (now2 = now1 → db2 = db1).
Proof.
  unfold reconcile_user_survey_to_current, mbind, result_bind.
  destruct (reconcile db definition user_id tenant_id) as [res|e] eqn:Hres;
    cbn [rbind]; [|done].
  intros [= <- <-].
  rewrite (reconcile_reads db), Hres by done. cbn [rbind].
  assert (res_user_id res = user_id) as Huser.
  { revert Hres. unfold reconcile, mbind, result_bind.
    destruct (get_active_survey_runtime _ _); cbn [rbind]; [|done].
    destruct (_definitions_for_slug _ _); cbn [rbind]; [|done].
    destruct (resolve_source _ _). by intros [= <-]. }
  set (table1 := upsert_reconciliation _ (reconciliation_row_of res (uuid4 drawn1) now1) now1).
  assert (upsert_reconciliation table1 (reconciliation_row_of res (uuid4 drawn2) now2) now2
          = touch (user_id, res_survey_slug res, res_current_survey_hash res) now2
              <$> table1) as Hupsert.
  { unfold upsert_reconciliation at 1.
    rewrite bool_decide_eq_true_2
      by apply (upsert_reconciliation_keys _ (reconciliation_row_of res (uuid4 drawn1) now1)).
    apply list_fmap_ext. intros i r Hr%list_elem_of_lookup_2.
    case_bool_decide as Hk.
    - rewrite (do_update_touch res).
      + rewrite Hk. unfold rec_key. cbn. by rewrite Huser.
      + by eapply upsert_reconciliation_stores.
    - unfold touch. rewrite bool_decide_eq_false_2; [done|].
      intros Hk'. apply Hk. rewrite Hk'. unfold rec_key. cbn. by rewrite Huser. }
  eexists. split; [done|]. cbn. repeat split; [exact Hupsert|].
  intros ->. f_equal. rewrite Hupsert.
  rewrite <- (list_fmap_id table1) at 2.
  apply list_fmap_ext. intros i r Hr%list_elem_of_lookup_2. cbn.
  unfold touch. case_bool_decide as Hk; [|done].
  assert (rec_updated_at r = now1) as Hnow.
  { revert Hr. unfold table1, upsert_reconciliation. case_bool_decide as Hin.
    - intros (r0 & -> & Hr0)%list_elem_of_fmap. case_bool_decide as Hk0; [done|].
      destruct Hk0. rewrite Hk. unfold rec_key. cbn. by rewrite Huser.
    - intros [Hr| ->%list_elem_of_singleton]%elem_of_app; [|done].
      destruct Hin. apply list_elem_of_fmap. exists r. split; [|done].
      rewrite Hk. unfold rec_key. cbn. by rewrite Huser. }
  destruct r. cbn in *. by rewrite Hnow.
Qed.

(** *** The question index of a definition *)

Lemma index_inv_nil option_sets : index_inv option_sets [] [].
Proof. split; [by intros ?? ?%elem_of_nil|by intros ? ?%elem_of_nil]. Qed.

Lemma index_inv_skip option_sets items out item :
  item_code item = "" →
  index_inv option_sets items out → index_inv option_sets (items ++ [item]) out.
Proof.
  intros Hcode [Ha Hb]. split.
  - intros qid meta (it & Hit & Hrest)%Ha. exists it. split; [|done].
    apply elem_of_app. by left.
  - intros it [Hit| <-%list_elem_of_singleton]%elem_of_app Hne; [by apply Hb|].
    by destruct Hne.
Qed.

Lemma index_item_inv option_sets screen_key items out item :
  index_inv option_sets items out →
  index_inv option_sets (items ++ [item]) (index_item option_sets screen_key out item).
Proof.
  intros Hinv.
  destruct item as [| | | | |it]; try by apply index_inv_skip.
  cbn [index_item]. case_bool_decide as Hcode; [by apply index_inv_skip|].
  destruct Hinv as [Ha Hb]. split.
  - intros qid meta [[= -> ->]|Hin]%elem_of_dict_set.
    + exists it. split; [|done]. apply elem_of_app; right. by apply list_elem_of_singleton.
    + destruct (Ha _ _ Hin) as (it' & Hit' & Hrest). exists it'. split; [|done].
      apply elem_of_app. by left.
  - intros it' Hit' Hne. rewrite dict_get_dict_set.
    destruct (decide (_ = _)); [by eexists|].
    apply elem_of_app in Hit' as [Hit'|Hit'%list_elem_of_singleton]; [by apply Hb|].
    by injection Hit' as ->.
Qed.

Lemma index_items_inv option_sets screen_key l : ∀ items out,
  index_inv option_sets items out →
  index_inv option_sets (items ++ l) (foldl (index_item option_sets screen_key) out l).
Proof.
  induction l as [|item l IH]; intros items out Hinv; cbn [foldl].
  - by rewrite app_nil_r.
  - replace (items ++ item :: l) with ((items ++ [item]) ++ l)
      by (by rewrite <- (assoc_L (++))).
    apply IH. by apply index_item_inv.
Qed.

Lemma index_screen_inv option_sets items out screen :
  index_inv option_sets items out →
  index_inv option_sets (items ++ screen_item_list screen)
    (index_screen option_sets out screen).
Proof.
  intros Hinv. destruct screen; cbn [index_screen screen_item_list];
    try by rewrite app_nil_r.
  by apply index_items_inv.
Qed.

Lemma index_screens_inv option_sets screens : ∀ items out,
  index_inv option_sets items out →
  index_inv option_sets (items ++ (screens ≫= screen_item_list))
    (foldl (index_screen option_sets) out screens).
Proof.
  induction screens as [|screen screens IH]; intros items out Hinv; cbn.
  - by rewrite app_nil_r.
  - rewrite (assoc_L (++)). apply IH. by apply index_screen_inv.
Qed.

Lemma build_question_index_inv survey_def index :
  build_question_index survey_def = Ok index →
  ∃ items, survey_items survey_def = Ok items
           ∧ index_inv (option_sets_of (py_get survey_def "option_sets" PNone)) items index.
Proof.
  unfold build_question_index, survey_items, mbind, result_bind.
  destruct (py_get survey_def "option_sets" PNone) as [os|] eqn:Hos; cbn [rbind]; [|done].
  destruct (py_get survey_def "screens" _) as [screens|]; cbn [rbind]; [|done].
  destruct (py_iter screens) as [l|]; cbn [rbind]; [|done].
  intros [= <-]. eexists. split; [done|].
  apply (index_screens_inv _ l [] []), index_inv_nil.
Qed.



(** *** The source definition *)





(** *** Carrying the answers forward *)



Lemma required_question_ids_spec db definition rt qid :
  get_active_survey_runtime db definition = Ok rt →
  qid ∈ rt_required_question_ids rt
  ↔ ∃ meta, (qid, meta) ∈ rt_question_index rt ∧ qi_is_required meta = true.
Proof.
  unfold get_active_survey_runtime, mbind, result_bind.
  destruct (match get_active_definition db SURVEY_SLUG with Some _ => _ | None => _ end)
    as [[slug version]|]; cbn [rbind]; [|done].
  destruct (survey_fingerprint definition); cbn [rbind]; [|done].
  destruct (build_question_index definition) as [qi|]; cbn [rbind]; [|done].
  intros [= <-]. cbn. rewrite py_sorted_perm, list_elem_of_fmap. split.
  - intros ([q meta] & -> & [Hreq Hin]%list_elem_of_filter). by exists meta.
  - intros (meta & Hin & Hreq). exists (qid, meta). split; [done|].
    by apply list_elem_of_filter.
Qed.

Lemma runtime_question_index db definition rt :
  get_active_survey_runtime db definition = Ok rt →
  build_question_index definition = Ok (rt_question_index rt).
Proof.
  unfold get_active_survey_runtime, mbind, result_bind.
  destruct (match get_active_definition db SURVEY_SLUG with Some _ => _ | None => _ end)
    as [[slug version]|]; cbn [rbind]; [|done].
  destruct (survey_fingerprint definition); cbn [rbind]; [|done].
  destruct (build_question_index definition) as [qi|]; cbn [rbind]; [|done].
  by intros [= <-].
Qed.



(** ** Stability of the bipartite matching *)

Lemma elem_of_ordered_pairs (ids : list string) (a b : string) :
  (a, b) ∈ ordered_pairs ids → a ∈ ids ∧ b ∈ ids.
Proof.
  induction ids as [|x rest IH]; cbn [ordered_pairs]; [by intros ?%elem_of_nil|].
  intros [(y & [= -> ->] & Hy)%list_elem_of_fmap|[Ha Hb]%IH]%elem_of_app.
  - split; [by apply elem_of_cons; left|by apply elem_of_cons; right].
  - split; by apply elem_of_cons; right.
Qed.





(** *** The preference lists *)

Lemma collect_by_user_spec (pairs : list MatchCandidate) (min_score : Qc)
    (week_start : option date) : ∀ by_user by_user',
  collect_by_user by_user pairs min_score week_start = Ok by_user' →
  ∀ x, by_user' !! x
       = (λ l, l ++ (pairs ≫= pair_entries x min_score week_start)) <$> by_user !! x.
Proof.
  induction pairs as [|p pairs IH]; intros by_user by_user'; cbn [collect_by_user].
  - intros [= <-] x. cbn. destruct (by_user !! x); cbn; [|done]. by rewrite app_nil_r.
  - cbn [mbind list_bind]. unfold pair_entries at 1.
    case_bool_decide as Hscore.
    { intros Hrest x. by rewrite (IH _ _ Hrest). }
    unfold by_user_append, mbind, result_bind.
    destruct (by_user !! cand_user_id p) as [l1|] eqn:H1; cbn [rbind]; [|done].
    destruct (<[cand_user_id p := _]> by_user !! matched_user_id p) as [l2|] eqn:H2;
      cbn [rbind]; [|done].
    intros Hrest x. rewrite (IH _ _ Hrest). clear IH Hrest.
    rewrite lookup_insert in H2. rewrite !lookup_insert.
    destruct (decide (matched_user_id p = x)) as [Hm|Hm].
    + cbn. destruct (decide (cand_user_id p = matched_user_id p)) as [Hc|Hc].
      * injection H2 as <-. rewrite decide_True by congruence.
        rewrite <- Hm, <- Hc, H1. cbn. by rewrite <- !(assoc_L (++)).
      * rewrite decide_False by congruence. rewrite <- Hm, H2. cbn.
        by rewrite <- !(assoc_L (++)).
    + destruct (decide (cand_user_id p = x)) as [Hc|Hc].
      * rewrite <- Hc, H1. cbn. by rewrite <- !(assoc_L (++)).
      * by destruct (by_user !! x).
Qed.

Lemma lookup_nil_map (users : list user) (x : string) :
  (list_to_map ((λ u, (user_id u, @nil (string * Qc))) <$> users)
     : gmap string (list (string * Qc))) !! x
  = if decide (x ∈ user_id <$> users) then Some [] else None.
Proof.
  destruct (decide _) as [Hin|Hin].
  - apply elem_of_list_to_map_1'.
    + by intros y (u & [= _ ->] & _)%list_elem_of_fmap.
    + apply list_elem_of_fmap in Hin as (u & -> & Hu).
      apply list_elem_of_fmap. by exists u.
  - apply not_elem_of_list_to_map_1. rewrite <- list_fmap_compose.
    intros (u & -> & Hu)%list_elem_of_fmap. destruct Hin. by apply list_elem_of_fmap_2.
Qed.

Lemma _build_preference_lists_spec (users : list user) (pairs : list MatchCandidate)
    (min_score : Qc) (top_k : Z) (week_start : option date) (prefs : preferences)
    (x : string) :
  _build_preference_lists users pairs min_score top_k week_start = Ok prefs →
  prefs_get prefs x `sublist_of`
    (py_sorted pref_key_lt (pairs ≫= pair_entries x min_score week_start)).*1.
Proof.
  unfold _build_preference_lists.
  destruct (collect_by_user _ pairs min_score week_start) as [by_user|] eqn:Hcollect;
    cbn [rbind]; [|done].
  intros [= <-]. unfold prefs_get. rewrite lookup_fmap.
  rewrite (collect_by_user_spec _ _ _ _ _ Hcollect), lookup_nil_map.
  destruct (decide _); cbn; [|apply sublist_nil_l].
  apply fmap_sublist. unfold py_slice_to. destruct (decide _); apply sublist_take.
Qed.



Lemma candidates_of_ordered (u : user) (later : list user) (c : config)
    (recent blocked : pair_set) (cs : list MatchCandidate) :
  candidates_of u later c recent blocked = Ok cs →
  pair_ids <$> cs `sublist_of` (λ y, (user_id u, y)) <$> (user_id <$> later).
Proof.
  revert cs. induction later as [|v later IH]; intros cs; cbn [candidates_of].
  - by intros [= <-].
  - repeat case_bool_decide; try (intros Hcs; apply sublist_cons; by apply IH).
    destruct (negb _); [intros Hcs; apply sublist_cons; by apply IH|].
    unfold mbind, result_bind.
    destruct (compute_compatibility _ _ _); cbn [rbind]; [|done].
    destruct (candidates_of u later c recent blocked) as [rest|]; cbn [rbind]; [|done].
    intros [= <-]. cbn. apply sublist_skip. by apply IH.
Qed.

Lemma candidates_loop_ordered (users : list user) (c : config)
    (recent blocked : pair_set) (cands : list MatchCandidate) :
  candidates_loop users c recent blocked = Ok cands →
  pair_ids <$> cands `sublist_of` ordered_pairs (user_id <$> users).
Proof.
  revert cands. induction users as [|u later IH]; intros cands; cbn [candidates_loop].
  - by intros [= <-].
  - unfold mbind, result_bind.
    destruct (candidates_of u later c recent blocked) as [row|] eqn:Hrow;
      cbn [rbind]; [|done].
    destruct (candidates_loop later c recent blocked) as [rest|]; cbn [rbind]; [|done].
    intros [= <-]. rewrite fmap_app. cbn [fmap list_fmap ordered_pairs].
    apply sublist_app; [by eapply candidates_of_ordered|by apply IH].
Qed.








(** ** One assignment per user and week *)


(** * Further properties of the code *)

(** ** Assignment state machine *)

Lemma transition_status_other (current action : string) (now expires_at : datetime) :
  current ≠ "proposed" → current ≠ "revealed" →
  transition_status current action now expires_at = current.
Proof.
  intros Hp Hr. unfold transition_status.
  rewrite (bool_decide_eq_false_2 (current = "proposed")) by done.
  rewrite (bool_decide_eq_false_2 (current = "revealed")) by done.
  cbn [orb andb]. repeat case_decide; done.
Qed.

Lemma transition_status_late (current action : string) (now expires_at : datetime) :
  (expires_at ≤ now)%Z → current = "proposed" ∨ current = "revealed" →
  transition_status current action now expires_at = "expired".
Proof.
  intros Hle [-> | ->]; unfold transition_status;
    by rewrite (bool_decide_eq_true_2 (expires_at ≤ now)%Z).
Qed.

(** Before the expiry the action alone decides. *)
Lemma transition_status_early (current action : string) (now expires_at : datetime) :
  (now < expires_at)%Z →
  transition_status current action now expires_at
  = if decide (current = "no_match") then "no_match"
    else if decide (action = "view") then
      if decide (current = "proposed") then "revealed" else current
    else if decide (action = "accept") then
      if decide (current = "revealed") then "accepted" else current
    else if decide (action = "decline") then
      if decide (current = "revealed") then "declined" else current
    else if decide (action = "expire") then
      if bool_decide (current = "proposed") || bool_decide (current = "revealed")
      then "expired" else current
    else current.
Proof.
  intros Hlt. unfold transition_status.
  rewrite (bool_decide_eq_false_2 (expires_at ≤ now)%Z), andb_false_r by lia.
  repeat case_decide; subst; done.
Qed.

(** X1. Only the states [proposed] and [revealed] are ever left: in every
    other state (accepted, declined, expired, blocked, or any other
    string) every action, at every time, returns the state unchanged. *)
Theorem transition_status_settled (current action : string) (now expires_at : datetime) :
  current ≠ "proposed" → current ≠ "revealed" →
  transition_status current action now expires_at = current.
Proof. apply transition_status_other. Qed.

(** X2. Repeating an action is harmless: the state reached by an action
    is a fixed point of the same action at the same time. *)
Theorem transition_status_idempotent (current action : string) (now expires_at : datetime) :
  transition_status (transition_status current action now expires_at) action now expires_at
  = transition_status current action now expires_at.
Proof.
  destruct (decide (current = "proposed" ∨ current = "revealed")) as [Hactive|Hother].
  - destruct (decide (expires_at ≤ now)%Z) as [Hle|Hlt].
    + rewrite (transition_status_late current) by done.
      by rewrite transition_status_other.
    + rewrite !transition_status_early by lia.
      destruct Hactive as [-> | ->];
        repeat (case_decide; simplify_eq/=; try done).
  - rewrite (transition_status_other current) by (intros ->; apply Hother; auto).
    rewrite (transition_status_other current) by (intros ->; apply Hother; auto).
    done.
Qed.

(** X3. No shortcut into a decision: [accepted] is only entered from
    [revealed] by the action [accept] before the expiry, [declined] only
    from [revealed] by [decline] before the expiry, and [revealed] only
    from [proposed] by [view] before the expiry. *)
Theorem transition_status_entries (current action : string) (now expires_at : datetime) :
  (transition_status current action now expires_at = "accepted" →
   current ≠ "accepted" →
   current = "revealed" ∧ action = "accept" ∧ (now < expires_at)%Z)
  ∧ (transition_status current action now expires_at = "declined" →
     current ≠ "declined" →
     current = "revealed" ∧ action = "decline" ∧ (now < expires_at)%Z)
  ∧ (transition_status current action now expires_at = "revealed" →
     current ≠ "revealed" →
     current = "proposed" ∧ action = "view" ∧ (now < expires_at)%Z).
Proof.
  destruct (decide (current = "proposed" ∨ current = "revealed")) as [Hactive|Hother].
  - destruct (decide (expires_at ≤ now)%Z) as [Hle|Hlt].
    + rewrite (transition_status_late current) by done. by repeat split.
    + rewrite !transition_status_early by lia.
      destruct Hactive as [-> | ->];
        repeat split; repeat (case_decide; simplify_eq/=; try done);
        intros; simplify_eq/=; repeat split; done || lia.
  - rewrite (transition_status_other current) by (intros ->; apply Hother; auto).
    repeat split; intros; simplify_eq/=.
Qed.

(** ** Range of the scores *)


Lemma round_half_even_bounds (a b : Z) (y : Qc) :
  Qc_of_Z a ≤ y → y ≤ Qc_of_Z b → (a ≤ round_half_even y ≤ b)%Z.
Proof.
  intros Ha Hb. unfold round_half_even.
  assert (a * Z.pos (Qden y) ≤ Qnum y)%Z as Ha'.
  { revert Ha. unfold Qc_of_Z, Qcle, Q2Qc, Qle. cbn. lia. }
  assert (Qnum y ≤ b * Z.pos (Qden y))%Z as Hb'.
  { revert Hb. unfold Qc_of_Z, Qcle, Q2Qc, Qle. cbn. lia. }
  pose proof (Z.div_mod (Qnum y) (Z.pos (Qden y)) ltac:(lia)) as Hdm.
  pose proof (Z.mod_pos_bound (Qnum y) (Z.pos (Qden y)) ltac:(lia)) as Hm.
  set (d := Z.pos (Qden y)) in *. set (n := Qnum y) in *.
  set (f := (n / d)%Z) in *. set (r := (n mod d)%Z) in *.
  assert (0 < d)%Z as Hd by (subst d; lia).
  assert (a ≤ f)%Z as Haf.
  { assert (d * a < d * (f + 1))%Z as H by lia.
    apply Z.mul_lt_mono_pos_l in H; lia. }
  assert (f ≤ b)%Z as Hfb.
  { assert (d * f ≤ d * b)%Z as H by lia.
    apply Z.mul_le_mono_pos_l in H; lia. }
  assert (f = b → r = 0)%Z as Hfull.
  { intros ->. lia. }
  repeat case_decide; try case_match; lia.
Qed.

Lemma round6_unit (x : Qc) : 0 ≤ x → x ≤ 1 → 0 ≤ round6 x ∧ round6 x ≤ 1.
Proof.
  intros H0 H1. unfold round6.
  destruct (round_half_even_bounds 0 1000000 (x * Q2Qc (1000000 # 1))) as [Hl Hu].
  - revert H0. unfold Qc_of_Z. qc_simpl. unfold inject_Z. lra.
  - revert H1. unfold Qc_of_Z. qc_simpl. unfold inject_Z. lra.
  - set (k := round_half_even _) in *. clearbody k.
    split; unfold Qcle, Q2Qc; cbn [this]; rewrite !Qred_correct;
      unfold Qle; cbn; lia.
Qed.

Lemma clamp_unit (x : Qc) : 0 ≤ py_max 0 (py_min 1 x) ∧ py_max 0 (py_min 1 x) ≤ 1.
Proof.
  unfold py_max, py_min. repeat case_decide; split; qc_lra.
Qed.

Lemma round6_clamp_unit (x : Qc) :
  0 ≤ round6 (py_max 0 (py_min 1 x)) ∧ round6 (py_max 0 (py_min 1 x)) ≤ 1.
Proof. destruct (clamp_unit x). by apply round6_unit. Qed.

Lemma legacy_compatibility_result (u v : pyval) (cfg : config) (r : compatibility) :
  legacy_compatibility u v cfg = Ok r →
  kids_hard_check (breakdown r) = true
  ∧ ∃ x, score_total r = round6 (py_max 0 (py_min 1 x)).
Proof.
  unfold legacy_compatibility, mbind, result_bind.
  repeat match goal with
  | |- rbind ?m _ = Ok _ → _ => destruct m as [? | ?]; cbn [rbind]; [| done]
  | |- (let (_, _) := ?p in _) = Ok _ → _ => destruct p
  end.
  intros [= <-]. split; [done | by eexists].
Qed.

Lemma current_compatibility_result (u v : pyval) (cfg : config)
    (ku kv : string) (eu ev : Qc) (r : compatibility) :
  current_compatibility u v cfg ku kv eu ev = Ok r →
  kids_hard_check (breakdown r) = true
  ∧ ∃ x, score_total r = round6 (py_max 0 (py_min 1 x)).
Proof.
  unfold current_compatibility, mbind, result_bind.
  destruct (_dim_cases u) as [[e Hu] | [fu [Hu _]]],
           (_dim_cases v) as [[e' Hv] | [fv [Hv _]]];
    rewrite ?Hu, ?Hv; cbn [rbind]; try done.
  rewrite !if_Ok. cbn [rbind]. intros [= <-]. split; [done | by eexists].
Qed.

(** The three ways [compute_compatibility] returns. *)
Lemma compute_compatibility_cases (u v : pyval) (cfg : option config) (r : compatibility) :
  compute_compatibility u v cfg = Ok r →
  r = gated false "kids_hard_conflict"
  ∨ r = gated true "safety_escalation_gate"
  ∨ (gates (breakdown r) = [] ∧ kids_hard_check (breakdown r) = true
     ∧ ∃ x, score_total r = round6 (py_max 0 (py_min 1 x))).
Proof.
  unfold compute_compatibility, mbind, result_bind.
  destruct (_life u "kids_intent" (PStr "unsure")) as [ru | ?]; cbn [rbind]; [| done].
  destruct (_life v "kids_intent" (PStr "unsure")) as [rv | ?]; cbn [rbind]; [| done].
  destruct (_kids_hard_mismatch (py_str ru) (py_str rv)).
  { intros [= <-]. by left. }
  destruct (_dim u "escalation") as [eu | ?]; cbn [rbind]; [| done].
  destruct (_dim v "escalation") as [ev | ?]; cbn [rbind]; [| done].
  destruct (_ && _).
  { intros [= <-]. right. by left. }
  destruct (py_contains (py_or u empty_dict) "dimensions") as [iu | ?];
    cbn [rbind]; [| done].
  match goal with
  | |- rbind ?m _ = _ → _ => destruct m as [[] | ?]; cbn [rbind]; [| | done]
  end.
  - intros H. right. right. split; [by eapply legacy_compatibility_gates |].
    by eapply legacy_compatibility_result.
  - intros H. right. right. split; [by eapply current_compatibility_gates |].
    by eapply current_compatibility_result.
Qed.

(** X4. Every score [compute_compatibility] returns lies in the unit
    interval: [0 ≤ score_total ≤ 1], whatever the profiles and the
    configured weights and multipliers are. *)
Theorem compute_compatibility_score_unit
    (u_traits v_traits : pyval) (cfg : option config) (r : compatibility) :
  compute_compatibility u_traits v_traits cfg = Ok r →
  0 ≤ score_total r ∧ score_total r ≤ 1.
Proof.
  intros [-> | [-> | (_ & _ & x & ->)]]%compute_compatibility_cases.
  - cbn. split; qc_lra.
  - cbn. split; qc_lra.
  - apply round6_clamp_unit.
Qed.

(** X5. A result of [compute_compatibility] reports at most one gate. When
    it reports one, it is the kids gate (with [kids_hard_check] false) or
    the escalation safety gate (with [kids_hard_check] true), the score is
    [0] and the breakdown carries no category, component or penalty; when it
    reports none, [kids_hard_check] is true. *)
Theorem compute_compatibility_gate_report
    (u_traits v_traits : pyval) (cfg : option config) (r : compatibility) :
  compute_compatibility u_traits v_traits cfg = Ok r →
  (gates (breakdown r) = [] ∧ kids_hard_check (breakdown r) = true)
  ∨ (∃ gate,
       gates (breakdown r) = [gate]
       ∧ (gate = "kids_hard_conflict" ∧ kids_hard_check (breakdown r) = false
          ∨ gate = "safety_escalation_gate" ∧ kids_hard_check (breakdown r) = true)
       ∧ score_total r = 0
       ∧ categories (breakdown r) = []
       ∧ components (breakdown r) = []
       ∧ penalties (breakdown r) = []).
Proof.
  intros [-> | [-> | (Hg & Hc & _)]]%compute_compatibility_cases.
  - right. exists "kids_hard_conflict". cbn. naive_solver.
  - right. exists "safety_escalation_gate". cbn. naive_solver.
  - by left.
Qed.


(** ** Candidate pairs: further properties *)

Lemma ltb_antisym (a b : string) : String.ltb a b = true → String.ltb b a = false.
Proof.
  unfold String.ltb. rewrite (String.compare_antisym a b).
  by destruct (String.compare b a).
Qed.

Lemma ltb_total (a b : string) :
  String.ltb a b = false → String.ltb b a = false → a = b.
Proof.
  unfold String.ltb. rewrite (String.compare_antisym a b).
  destruct (String.compare b a) eqn:Hc; cbn; try done.
  apply String.compare_eq_iff in Hc. by subst.
Qed.

(** X7. Gender-preference compatibility is mutual: the test gives the same
    answer whichever of the two users comes first. *)
Theorem _gender_preference_compatible_symmetric (u v : user) :
  _gender_preference_compatible u v = _gender_preference_compatible v u.
Proof.
  unfold _gender_preference_compatible.
  destruct (_normalize_gender (gender_identity u)) as [gu |],
           (_normalize_gender (gender_identity v)) as [gv |]; try done.
  rewrite (orb_comm (bool_decide (_parse_seeking (seeking_genders u) = ∅))).
  destruct (_ || _); [done |]. apply andb_comm.
Qed.

(** X8. [canonical_pair] does not depend on the order of its arguments; it
    returns the two ids as given or swapped, never with the second
    component below the first. *)
Theorem canonical_pair_sorted (a b : string) :
  canonical_pair a b = canonical_pair b a
  ∧ (canonical_pair a b = (a, b) ∨ canonical_pair a b = (b, a))
  ∧ String.ltb (canonical_pair a b).2 (canonical_pair a b).1 = false.
Proof.
  split; [apply canonical_pair_comm |].
  unfold canonical_pair. destruct (String.ltb b a) eqn:Hba; cbn.
  - split; [by right | by apply ltb_antisym].
  - split; [by left | done].
Qed.

Lemma str_min_comm (a b : string) : str_min a b = str_min b a.
Proof.
  unfold str_min. destruct (String.ltb b a) eqn:Hba, (String.ltb a b) eqn:Hab; try done.
  - by rewrite (ltb_antisym _ _ Hba) in Hab.
  - by apply ltb_total.
Qed.

Lemma str_max_comm (a b : string) : str_max a b = str_max b a.
Proof.
  unfold str_max. destruct (String.ltb b a) eqn:Hba, (String.ltb a b) eqn:Hab; try done.
  - by rewrite (ltb_antisym _ _ Hba) in Hab.
  - symmetry. by apply ltb_total.
Qed.

Lemma _stable_hash_eps_comm (a b : string) (week_start : option date) :
  _stable_hash_eps a b week_start = _stable_hash_eps b a week_start.
Proof. unfold _stable_hash_eps. by rewrite (str_min_comm a b), (str_max_comm a b). Qed.

Lemma _stable_hash_eps_bounds (a b : string) (week_start : option date) :
  0 ≤ _stable_hash_eps a b week_start
  ∧ _stable_hash_eps a b week_start < Q2Qc (1 # 1000000).
Proof.
  unfold _stable_hash_eps.
  set (payload := (_ +:+ _)%string). clearbody payload.
  set (head := (_ / _)%N).
  assert (Z.of_N head < 281474976710656)%Z as Hhead.
  { assert (head < 281474976710656)%N; [| lia].
    subst head. apply N.Div0.div_lt_upper_bound.
    change (2 ^ 208 * 281474976710656)%N with (2 ^ 256)%N.
    apply N.mod_lt. done. }
  assert (0 ≤ Z.of_N head)%Z as Hpos by lia.
  set (h := Z.of_N head) in *. clearbody h. clear head.
  assert (Q2Qc (h # 1) / Q2Qc (281474976710656 # 1) = Q2Qc (h # 281474976710656)) as ->.
  { apply Qc_is_canon. unfold Qcdiv, Qcinv, Qcmult, Q2Qc. cbn [this].
    rewrite !Qred_correct. unfold Qeq, Qmult, Qinv. cbn. lia. }
  split; unfold Qcle, Qclt, Qcmult, Q2Qc; cbn [this]; rewrite !Qred_correct;
    unfold Qle, Qlt, Qmult; cbn; lia.
Qed.

(** X9. The tie-breaking term [_stable_hash_eps] is the same for a pair and
    for the swapped pair, and lies in [[0, 0.000001)]: it is smaller than
    the resolution of the rounded scores. *)
Theorem _stable_hash_eps_small (a b : string) (week_start : option date) :
  _stable_hash_eps a b week_start = _stable_hash_eps b a week_start
  ∧ 0 ≤ _stable_hash_eps a b week_start
  ∧ _stable_hash_eps a b week_start < dec 1 1000000.
Proof.
  split; [apply _stable_hash_eps_comm | apply _stable_hash_eps_bounds].
Qed.

(** *** Completeness of the candidate pairs *)

Lemma candidates_of_complete (u : user) (later : list user) (c : config)
    (recent blocked : pair_set) (row : list MatchCandidate) (k : nat) (v : user) :
  candidates_of u later c recent blocked = Ok row →
  later !! k = Some v →
  canonical_pair (user_id u) (user_id v) ∉ recent →
  canonical_pair (user_id u) (user_id v) ∉ blocked →
  _gender_preference_compatible u v = true →
  ∃ comp,
    compute_compatibility (traits u) (traits v) (Some c) = Ok comp
    ∧ {| cand_user_id := user_id u; matched_user_id := user_id v;
         cand_score_total := score_total comp;
         score_breakdown_of := breakdown comp |} ∈ row.
Proof.
  revert row k. induction later as [| w later IH]; intros row k; [done |].
  cbn [candidates_of]. intros Hrow Hk Hrec Hblk Hcomp.
  destruct k as [| k].
  - injection Hk as ->.
    rewrite !bool_decide_eq_false_2 in Hrow by done. rewrite Hcomp in Hrow.
    cbn [negb] in Hrow. unfold mbind, result_bind in Hrow.
    destruct (compute_compatibility _ _ _) as [comp |]; cbn [rbind] in Hrow; [| done].
    destruct (candidates_of u later c recent blocked); cbn [rbind] in Hrow; [| done].
    injection Hrow as <-. exists comp. split; [done | by apply elem_of_cons; left].
  - cbn in Hk.
    assert (∀ rest, candidates_of u later c recent blocked = Ok rest →
              ∃ comp,
                compute_compatibility (traits u) (traits v) (Some c) = Ok comp
                ∧ {| cand_user_id := user_id u; matched_user_id := user_id v;
                     cand_score_total := score_total comp;
                     score_breakdown_of := breakdown comp |} ∈ rest) as Hrest.
    { intros rest Hr. by apply (IH rest k). }
    repeat case_bool_decide; try (by apply Hrest).
    destruct (negb _); [by apply Hrest |].
    unfold mbind, result_bind in Hrow.
    destruct (compute_compatibility (traits u) (traits w) _); cbn [rbind] in Hrow; [| done].
    destruct (candidates_of u later c recent blocked) as [rest |];
      cbn [rbind] in Hrow; [| done].
    injection Hrow as <-. destruct (Hrest rest eq_refl) as (comp & ? & ?).
    exists comp. split; [done | by apply elem_of_cons; right].
Qed.

Lemma candidates_loop_complete (users : list user) (c : config)
    (recent blocked : pair_set) (cands : list MatchCandidate) (i j : nat) (u v : user) :
  candidates_loop users c recent blocked = Ok cands →
  (i < j)%nat → users !! i = Some u → users !! j = Some v →
  canonical_pair (user_id u) (user_id v) ∉ recent →
  canonical_pair (user_id u) (user_id v) ∉ blocked →
  _gender_preference_compatible u v = true →
  ∃ comp,
    compute_compatibility (traits u) (traits v) (Some c) = Ok comp
    ∧ {| cand_user_id := user_id u; matched_user_id := user_id v;
         cand_score_total := score_total comp;
         score_breakdown_of := breakdown comp |} ∈ cands.
Proof.
  revert cands i j. induction users as [| w later IH]; intros cands i j; [done |].
  cbn [candidates_loop]. unfold mbind, result_bind.
  destruct (candidates_of w later c recent blocked) as [row |] eqn:Hrow;
    cbn [rbind]; [| done].
  destruct (candidates_loop later c recent blocked) as [rest |] eqn:Hrest;
    cbn [rbind]; [| done].
  intros [= <-] Hij Hi Hj Hrec Hblk Hcomp.
  destruct j as [| j]; [lia |]. cbn in Hj.
  destruct i as [| i].
  - injection Hi as ->.
    destruct (candidates_of_complete _ _ _ _ _ _ _ _ Hrow Hj Hrec Hblk Hcomp)
      as (comp & ? & ?).
    exists comp. split; [done |]. apply elem_of_app. by left.
  - cbn in Hi.
    destruct (IH rest i j eq_refl ltac:(lia) Hi Hj Hrec Hblk Hcomp) as (comp & ? & ?).
    exists comp. split; [done |]. apply elem_of_app. by right.
Qed.

(** X10. [build_candidate_pairs] leaves out no eligible pair: when it
    returns, every two pool entries [users[i]], [users[j]] with [i < j]
    whose canonical pair is neither recent nor blocked and that are
    gender-preference compatible have a candidate, oriented from [i] to
    [j], that carries the score and the breakdown the scorer gives for
    their traits. *)
Theorem build_candidate_pairs_complete
    (users : list user) (cfg : option config) (recent_pairs blocked_pairs : option pair_set)
    (cands : list MatchCandidate) (i j : nat) (u v : user) :
  build_candidate_pairs users cfg recent_pairs blocked_pairs = Ok cands →
  (i < j)%nat → users !! i = Some u → users !! j = Some v →
  canonical_pair (user_id u) (user_id v) ∉ default ∅ recent_pairs →
  canonical_pair (user_id u) (user_id v) ∉ default ∅ blocked_pairs →
  _gender_preference_compatible u v = true →
  ∃ comp,
    compute_compatibility (traits u) (traits v) cfg = Ok comp
    ∧ {| cand_user_id := user_id u; matched_user_id := user_id v;
         cand_score_total := score_total comp;
         score_breakdown_of := breakdown comp |} ∈ cands.
Proof. unfold build_candidate_pairs. apply candidates_loop_complete. Qed.

(** *** Totality on pools of partial profiles *)




(** *** No pair twice *)

Lemma elem_of_ordered_pairs_lt (ids : list string) (a b : string) :
  (a, b) ∈ ordered_pairs ids →
  ∃ i j, (i < j)%nat ∧ ids !! i = Some a ∧ ids !! j = Some b.
Proof.
  induction ids as [| x rest IH]; cbn [ordered_pairs]; [by intros ?%elem_of_nil |].
  intros [(y & [= -> ->] & Hy)%list_elem_of_fmap | Hin]%elem_of_app.
  - apply list_elem_of_lookup in Hy as [j Hj]. exists 0%nat, (S j). split; [lia | done].
  - destruct (IH Hin) as (i & j & ? & ? & ?). exists (S i), (S j). split; [lia | done].
Qed.

Lemma ordered_pairs_NoDup (ids : list string) : NoDup ids → NoDup (ordered_pairs ids).
Proof.
  induction ids as [| x rest IH]; cbn [ordered_pairs]; [intros _; apply NoDup_nil_2 |].
  intros [Hx Hrest]%NoDup_cons. apply NoDup_app. split; [| split; [| by apply IH]].
  - apply NoDup_fmap_2; [| done]. by intros y z [= ->].
  - intros [a b] (y & [= -> ->] & Hy)%list_elem_of_fmap [Ha _]%elem_of_ordered_pairs. done.
Qed.

Lemma ordered_pairs_canonical (ids : list string) (ab cd : string * string) :
  NoDup ids → ab ∈ ordered_pairs ids → cd ∈ ordered_pairs ids →
  canonical_pair ab.1 ab.2 = canonical_pair cd.1 cd.2 → ab = cd.
Proof.
  intros Hnd Hab Hcd Heq. destruct ab as [a b], cd as [c d]. cbn in Heq.
  apply elem_of_ordered_pairs_lt in Hab as (i & j & Hij & Hi & Hj).
  apply elem_of_ordered_pairs_lt in Hcd as (k & l & Hkl & Hk & Hl).
  assert ((a = c ∧ b = d) ∨ (a = d ∧ b = c)) as [[-> ->] | [-> ->]]; [| done |].
  { revert Heq. unfold canonical_pair. repeat case_match; intros [= -> ->]; auto. }
  pose proof (NoDup_lookup _ _ _ _ Hnd Hi Hl). pose proof (NoDup_lookup _ _ _ _ Hnd Hj Hk).
  lia.
Qed.

(** X12. On a pool with pairwise distinct user ids, [build_candidate_pairs]
    emits no pair of users twice, in either orientation, and never pairs a
    user with themselves. *)
Theorem build_candidate_pairs_no_duplicates
    (users : list user) (cfg : option config) (recent_pairs blocked_pairs : option pair_set)
    (cands : list MatchCandidate) :
  NoDup (user_id <$> users) →
  build_candidate_pairs users cfg recent_pairs blocked_pairs = Ok cands →
  NoDup ((λ p, canonical_pair (cand_user_id p) (matched_user_id p)) <$> cands)
  ∧ ∀ p, p ∈ cands → cand_user_id p ≠ matched_user_id p.
Proof.
  intros Hnd Hcands. unfold build_candidate_pairs in Hcands.
  apply candidates_loop_ordered in Hcands.
  pose proof (ordered_pairs_NoDup _ Hnd) as Hop.
  split.
  - change (λ p, canonical_pair (cand_user_id p) (matched_user_id p))
      with ((λ ab : string * string, canonical_pair ab.1 ab.2) ∘ pair_ids).
    rewrite list_fmap_compose.
    apply NoDup_fmap_2_strong; [| by eapply sublist_NoDup].
    intros ab cd Hab Hcd. apply (ordered_pairs_canonical _ _ _ Hnd).
    + by eapply elem_of_sublist.
    + by eapply elem_of_sublist.
  - intros p Hp Heq.
    assert (pair_ids p ∈ ordered_pairs (user_id <$> users)) as Hin.
    { eapply elem_of_sublist; [| exact Hcands]. by apply list_elem_of_fmap_2. }
    unfold pair_ids in Hin.
    apply elem_of_ordered_pairs_lt in Hin as (i & j & Hij & Hi & Hj).
    rewrite Heq in Hi. pose proof (NoDup_lookup _ _ _ _ Hnd Hi Hj). lia.
Qed.

(** ** Preference lists: further properties *)

Lemma by_user_append_dom (by_user by_user' : gmap string (list (string * Qc)))
    (k : string) (x : string * Qc) :
  by_user_append by_user k x = Ok by_user' →
  is_Some (by_user !! k) ∧ ∀ y, is_Some (by_user' !! y) ↔ is_Some (by_user !! y).
Proof.
  unfold by_user_append. destruct (by_user !! k) as [l |] eqn:Hk; [| done].
  intros [= <-]. split; [done |]. intros y. rewrite lookup_insert.
  case_decide; [subst; by rewrite Hk |done].
Qed.

(** The only exception [collect_by_user] raises is [KeyError], at a pair
    that is not below the threshold and names a user without an entry. *)
Lemma collect_by_user_cases (pairs : list MatchCandidate) (min_score : Qc)
    (week_start : option date) : ∀ by_user,
  match collect_by_user by_user pairs min_score week_start with
  | Ok by_user' =>
      (∀ y, is_Some (by_user' !! y) ↔ is_Some (by_user !! y))
      ∧ Forall (λ p, ¬ cand_score_total p < min_score →
                     is_Some (by_user !! cand_user_id p)
                     ∧ is_Some (by_user !! matched_user_id p)) pairs
  | Raise e =>
      e = KeyError
      ∧ Exists (λ p, ¬ cand_score_total p < min_score
                     ∧ ¬ (is_Some (by_user !! cand_user_id p)
                          ∧ is_Some (by_user !! matched_user_id p))) pairs
  end.
Proof.
  induction pairs as [| p pairs IH]; intros by_user; cbn [collect_by_user].
  - split; [done | apply Forall_nil_2].
  - case_bool_decide as Hscore.
    { specialize (IH by_user).
      destruct (collect_by_user by_user pairs min_score week_start).
      - destruct IH as [Hdom Hall]. split; [done |]. by apply Forall_cons.
      - destruct IH as [-> Hex]. split; [done |]. by apply Exists_cons_tl. }
    unfold mbind, result_bind.
    destruct (by_user_append by_user (cand_user_id p) _) as [b1 | e1] eqn:H1;
      cbn [rbind].
    2:{ unfold by_user_append in H1.
        destruct (by_user !! cand_user_id p) eqn:Hc; [done |]. injection H1 as <-.
        split; [done |]. apply Exists_cons_hd. split; [done |].
        intros [[? ?] _]. congruence. }
    apply by_user_append_dom in H1 as [Hc Hd1].
    destruct (by_user_append b1 (matched_user_id p) _) as [b2 | e2] eqn:H2;
      cbn [rbind].
    2:{ unfold by_user_append in H2.
        destruct (b1 !! matched_user_id p) eqn:Hm; [done |]. injection H2 as <-.
        split; [done |]. apply Exists_cons_hd. split; [done |].
        intros [_ Hm']. apply Hd1 in Hm'. rewrite Hm in Hm'. by destruct Hm'. }
    apply by_user_append_dom in H2 as [Hm Hd2].
    specialize (IH b2).
    assert (∀ y, is_Some (b2 !! y) ↔ is_Some (by_user !! y)) as Hd.
    { intros y. by rewrite Hd2, Hd1. }
    destruct (collect_by_user b2 pairs min_score week_start).
    + destruct IH as [Hdom Hall]. split.
      * intros y. by rewrite Hdom, Hd.
      * apply Forall_cons. split; [intros _; split; [done | by apply Hd1] |].
        eapply Forall_impl; [exact Hall |]. intros q Hq Hs.
        destruct (Hq Hs). split; by apply Hd.
    + destruct IH as [-> Hex]. split; [done |]. apply Exists_cons_tl.
      eapply Exists_impl; [exact Hex |]. intros q [Hs Hq]. split; [done |].
      intros [? ?]. apply Hq. split; by apply Hd.
Qed.

Lemma is_Some_lookup_nil_map (users : list user) (x : string) :
  is_Some ((list_to_map ((λ u, (user_id u, @nil (string * Qc))) <$> users)
              : gmap string (list (string * Qc))) !! x)
  ↔ x ∈ user_id <$> users.
Proof.
  rewrite lookup_nil_map. case_decide; [done |]. split; [by intros [? ?] | done].
Qed.

(** X13. [_build_preference_lists] raises [KeyError] exactly when a pair at
    or above the threshold names a user who is not in the pool. Otherwise
    it returns a dictionary with one entry for each user of the pool and
    no other entry. *)
Theorem _build_preference_lists_key_error
    (users : list user) (pairs : list MatchCandidate) (min_score : Qc) (top_k : Z)
    (week_start : option date) :
  let listed p := ¬ cand_score_total p < min_score in
  let known x := x ∈ user_id <$> users in
  (Forall (λ p, listed p → known (cand_user_id p) ∧ known (matched_user_id p)) pairs →
   ∃ prefs,
     _build_preference_lists users pairs min_score top_k week_start = Ok prefs
     ∧ ∀ x, is_Some (prefs !! x) ↔ known x)
  ∧ (Exists (λ p, listed p ∧ ¬ (known (cand_user_id p) ∧ known (matched_user_id p)))
       pairs →
     _build_preference_lists users pairs min_score top_k week_start = Raise KeyError).
Proof.
  intros listed known. unfold _build_preference_lists.
  match goal with
  | |- context [collect_by_user ?b _ _ _] =>
      pose proof (collect_by_user_cases pairs min_score week_start b) as Hc;
      destruct (collect_by_user b pairs min_score week_start) as [by_user | e]
  end; cbn [rbind].
  - destruct Hc as [Hdom Hall]. split.
    + intros _. eexists. split; [done |]. intros x.
      rewrite lookup_fmap, fmap_is_Some, Hdom. apply is_Some_lookup_nil_map.
    + intros Hex. exfalso. apply Exists_exists in Hex as (p & Hp & Hl & Hbad).
      rewrite Forall_forall in Hall. destruct (Hall p Hp Hl) as [H1 H2].
      apply Hbad. split; by apply is_Some_lookup_nil_map.
  - destruct Hc as [-> Hex]. split; [| done].
    intros Hall. exfalso. apply Exists_exists in Hex as (p & Hp & Hl & Hbad).
    rewrite Forall_forall in Hall. destruct (Hall p Hp Hl) as [H1 H2].
    apply Hbad. split; by apply is_Some_lookup_nil_map.
Qed.

Lemma elem_of_pair_entries (x : string) (min_score : Qc) (week_start : option date)
    (p : MatchCandidate) (ys : string * Qc) :
  ys ∈ pair_entries x min_score week_start p →
  ¬ cand_score_total p < min_score
  ∧ ((cand_user_id p = x ∧ matched_user_id p = ys.1)
     ∨ (matched_user_id p = x ∧ cand_user_id p = ys.1)).
Proof.
  unfold pair_entries. case_bool_decide; [by intros ?%elem_of_nil |].
  intros Hin. split; [done |].
  apply elem_of_app in Hin as [Hin | Hin]; case_decide;
    try (by apply elem_of_nil in Hin);
    apply list_elem_of_singleton in Hin as ->; auto.
Qed.

(** X14. The preference lists [_build_preference_lists] returns: for a
    non-negative [top_k] no list is longer than [top_k], and every user on
    the list of [x] is the partner of [x] in a candidate pair whose score is
    not below [min_score]. *)
Theorem _build_preference_lists_entries
    (users : list user) (pairs : list MatchCandidate) (min_score : Qc) (top_k : Z)
    (week_start : option date) (prefs : preferences) (x : string) :
  _build_preference_lists users pairs min_score top_k week_start = Ok prefs →
  ((0 ≤ top_k)%Z → (length (prefs_get prefs x) ≤ Z.to_nat top_k)%nat)
  ∧ ∀ y, y ∈ prefs_get prefs x →
      ∃ p, p ∈ pairs ∧ ¬ cand_score_total p < min_score
           ∧ ((cand_user_id p = x ∧ matched_user_id p = y)
              ∨ (matched_user_id p = x ∧ cand_user_id p = y)).
Proof.
  intros Hprefs. split.
  - intros Hk. revert Hprefs. unfold _build_preference_lists.
    destruct (collect_by_user _ pairs min_score week_start) as [by_user |];
      cbn [rbind]; [| done].
    intros [= <-]. unfold prefs_get. rewrite lookup_fmap.
    destruct (by_user !! x) as [vals |]; cbn; [| lia].
    rewrite length_fmap. unfold py_slice_to. rewrite decide_True by done.
    rewrite length_take. lia.
  - intros y Hy.
    eapply elem_of_sublist in Hy; [| by eapply _build_preference_lists_spec].
    apply list_elem_of_fmap in Hy as ([y' s] & -> & Hy).
    rewrite py_sorted_perm in Hy.
    apply list_elem_of_bind in Hy as (p & Hy & Hp).
    apply elem_of_pair_entries in Hy as [Hs Hxy]. by exists p.
Qed.

(** ** The assignments of [stable_match] and of the greedy matcher *)

Lemma assignment_key_lt_score (x y : MatchCandidate) :
  assignment_key_lt x y = true → cand_score_total y ≤ cand_score_total x.
Proof.
  unfold assignment_key_lt.
  intros [Hlt%bool_decide_eq_true | [Heq%bool_decide_eq_true _]%andb_prop]%orb_prop.
  - qc_lra.
  - rewrite Heq. apply Qcle_refl.
Qed.

Lemma score_assignment_key_lt (x y : MatchCandidate) :
  cand_score_total y < cand_score_total x → assignment_key_lt x y = true.
Proof.
  intros Hlt. unfold assignment_key_lt. apply orb_true_intro. left.
  apply bool_decide_eq_true. qc_lra.
Qed.

Lemma descending_cons (a : MatchCandidate) (l : list MatchCandidate) :
  descending (a :: l)
  ↔ (∀ b, b ∈ l → cand_score_total b ≤ cand_score_total a) ∧ descending l.
Proof.
  split.
  - intros Hd. split.
    + intros b [j Hj]%list_elem_of_lookup. by apply (Hd 0%nat (S j) a b); [lia | |].
    + intros i j x y Hij Hi Hj. by apply (Hd (S i) (S j) x y); [lia | |].
  - intros [Hhd Htl] i j x y Hij Hi Hj.
    destruct j as [| j]; [lia |]. cbn in Hj. destruct i as [| i].
    + injection Hi as <-. apply Hhd. by eapply list_elem_of_lookup_2.
    + cbn in Hi. by apply (Htl i j x y); [lia | |].
Qed.

Lemma sublist_descending (l l' : list MatchCandidate) :
  l' `sublist_of` l → descending l → descending l'.
Proof.
  induction 1 as [| x l' l Hs IH | x l' l Hs IH]; [done | |].
  - rewrite !descending_cons. intros [Hx Hl]. split; [| by apply IH].
    intros b Hb. apply Hx. by eapply elem_of_sublist.
  - rewrite descending_cons. intros [_ Hl]. by apply IH.
Qed.

Lemma sorted_insert_descending (x : MatchCandidate) (l : list MatchCandidate) :
  descending l → descending (sorted_insert assignment_key_lt x l).
Proof.
  induction l as [| y l IH]; cbn [sorted_insert].
  - intros _. apply descending_cons. split; [by intros b ?%elem_of_nil | done].
  - intros Hd. pose proof Hd as [Hy Hl]%descending_cons.
    destruct (assignment_key_lt x y) eqn:Hxy.
    + apply descending_cons. split; [| done].
      apply assignment_key_lt_score in Hxy.
      intros b [-> | Hb]%elem_of_cons; [done |].
      eapply Qcle_trans; [by apply Hy | done].
    + apply descending_cons. split; [| by apply IH].
      intros b. rewrite sorted_insert_perm. intros [-> | Hb]%elem_of_cons; [| by apply Hy].
      apply Qcnot_lt_le. intros Hlt. apply score_assignment_key_lt in Hlt. congruence.
Qed.

Lemma py_sorted_descending (l : list MatchCandidate) :
  descending (py_sorted assignment_key_lt l).
Proof.
  unfold py_sorted.
  enough (∀ acc, descending acc →
            descending (foldl (λ acc x, sorted_insert assignment_key_lt x acc) acc l)) as H.
  { apply H. by intros i j a b _ ?. }
  induction l as [| x l IH]; intros acc Hacc; cbn; [done |].
  by apply IH, sorted_insert_descending.
Qed.

Lemma pair_map_of_elem_of (pairs : list MatchCandidate) (k : string * string)
    (p : MatchCandidate) :
  pair_map_of pairs !! k = Some p → p ∈ pairs.
Proof.
  unfold pair_map_of.
  enough (∀ m : gmap (string * string) MatchCandidate,
            foldl (λ m p, <[canonical_pair (cand_user_id p) (matched_user_id p) := p]> m)
              m pairs !! k = Some p →
            m !! k = Some p ∨ p ∈ pairs) as H.
  { intros Hk. destruct (H ∅ Hk) as [Hm | ?]; [by rewrite lookup_empty in Hm | done]. }
  induction pairs as [| q pairs IH]; intros m; cbn; [by left |].
  intros [Hm | Hin]%IH.
  - rewrite lookup_insert in Hm. case_decide.
    + injection Hm as <-. right. by apply elem_of_cons; left.
    + by left.
  - right. by apply elem_of_cons; right.
Qed.

Lemma elem_of_select_assignments (pairs : list MatchCandidate) (min_score : Qc)
    (chosen : list (string * string)) (p : MatchCandidate) :
  p ∈ select_assignments (pair_map_of pairs) min_score chosen →
  p ∈ pairs ∧ ¬ cand_score_total p < min_score
  ∧ ∃ ab, ab ∈ chosen
          ∧ canonical_pair ab.1 ab.2 = canonical_pair (cand_user_id p) (matched_user_id p).
Proof.
  unfold select_assignments. intros (ab & Hab & Hp)%list_elem_of_omap.
  destruct (pair_map_of pairs !! canonical_pair ab.1 ab.2) as [q |] eqn:Hq; [| done].
  case_bool_decide; [done |]. injection Hp as ->.
  split; [by eapply pair_map_of_elem_of |]. split; [done |].
  exists ab. split; [done |]. by apply pair_map_of_lookup in Hq.
Qed.

(** X15. The assignments [stable_match] returns are candidate pairs it was
    given, each with a score not below [min_score], and they are listed by
    descending score. *)
Theorem stable_match_assignments
    (users : list user) (pairs : list MatchCandidate) (min_score : Qc) (top_k : Z)
    (mode : string) (week_start_date : option date) (assignments : list MatchCandidate) :
  stable_match users pairs min_score top_k mode week_start_date = Ok assignments →
  (∀ a, a ∈ assignments → a ∈ pairs ∧ ¬ cand_score_total a < min_score)
  ∧ ∀ i j a b, (i < j)%nat → assignments !! i = Some a → assignments !! j = Some b →
      cand_score_total b ≤ cand_score_total a.
Proof.
  unfold stable_match, mbind, result_bind.
  destruct (_build_preference_lists users pairs min_score top_k week_start_date)
    as [prefs | ?]; cbn [rbind]; [| done].
  intros [= <-]. split; [| apply py_sorted_descending].
  intros a. rewrite py_sorted_perm. intros (? & ? & _)%elem_of_select_assignments. done.
Qed.

(** X16. The two-sided matching pairs a man of the pool with a woman of the
    pool who is on his preference list, and it is a matching: no man and no
    woman occurs in two pairs. *)
Theorem _stable_bipartite_match_pairs (users : list user) (prefs : preferences) :
  NoDup (user_id <$> users) →
  (∀ m w, (m, w) ∈ _stable_bipartite_match users prefs →
     m ∈ ids_of_gender users "man" ∧ w ∈ ids_of_gender users "woman"
     ∧ w ∈ prefs_get prefs m)
  ∧ (∀ m w m' w', (m, w) ∈ _stable_bipartite_match users prefs →
       (m', w') ∈ _stable_bipartite_match users prefs →
       (m = m' ↔ w = w')).
Proof.
  intros Hnd. pose proof (_stable_bipartite_match_inv users prefs Hnd) as Hinv.
  cbn zeta in Hinv. unfold _stable_bipartite_match.
  set (st := gs_loop _ _ _ _) in *. clearbody st.
  assert (∀ m w, (m, w) ∈ gs_out st → engaged_to st !! w = Some m) as Hout.
  { intros m w (w' & Hw' & Hx)%list_elem_of_omap.
    destruct (engaged_to st !! w') as [m' |] eqn:Hm'; [| done].
    cbn in Hx. by injection Hx as -> ->. }
  split.
  - intros m w Hmw%Hout.
    destruct (inv_engaged _ _ _ _ Hinv w m Hmw) as (Hm & Hw & _).
    destruct (inv_last _ _ _ _ Hinv w m Hmw) as (i & _ & Hi).
    split; [done |]. split; [done |]. by eapply list_elem_of_lookup_2.
  - intros m w m' w' Hmw%Hout Hmw'%Hout. split.
    + intros <-. by eapply (inv_inj _ _ _ _ Hinv).
    + intros <-. congruence.
Qed.

(** *** The greedy matcher *)

Lemma greedy_step_spec (min_score : Qc) (acc : gset string * list MatchCandidate)
    (p : MatchCandidate) :
  greedy_inv acc →
  greedy_inv (greedy_step min_score acc p)
  ∧ (greedy_step min_score acc p = acc
     ∧ (¬ cand_score_total p < min_score →
        cand_user_id p ∈ acc.1 ∨ matched_user_id p ∈ acc.1)
     ∨ (greedy_step min_score acc p).2 = acc.2 ++ [p]
       ∧ ¬ cand_score_total p < min_score).
Proof.
  destruct acc as [matched asg]. intros [Hm Hd]. unfold greedy_step.
  case_bool_decide as Hs; [split; [done | by left] |].
  destruct (bool_decide (cand_user_id p ∈ matched)
            || bool_decide (matched_user_id p ∈ matched)) eqn:Hin.
  { split; [done |]. left. split; [done |]. intros _.
    apply orb_prop in Hin as [?%bool_decide_eq_true | ?%bool_decide_eq_true]; auto. }
  apply orb_false_elim in Hin as [Hc%bool_decide_eq_false Hu%bool_decide_eq_false].
  split; [| by right]. split; cbn [fst snd] in *.
  - intros x. rewrite !elem_of_union, !elem_of_singleton, Hm. split.
    + intros [[(a & Ha & Hx) | ->] | ->].
      * exists a. split; [apply elem_of_app; by left | done].
      * exists p. split; [apply elem_of_app; right; by apply list_elem_of_singleton |].
        unfold cand_users. set_solver.
      * exists p. split; [apply elem_of_app; right; by apply list_elem_of_singleton |].
        unfold cand_users. set_solver.
    + intros (a & [Ha | ->%list_elem_of_singleton]%elem_of_app & Hx).
      * left. left. by exists a.
      * unfold cand_users in Hx. set_solver.
  - rewrite fmap_app. apply disjoint_list_snoc; [done |].
    rewrite Forall_fmap, Forall_forall. intros a Ha x Hxa Hxp.
    assert (x ∈ matched) as Hx by (apply Hm; by exists a).
    unfold cand_users in Hxp. set_solver.
Qed.

Lemma greedy_fold_spec (min_score : Qc) (l : list MatchCandidate) :
  ∀ acc, greedy_inv acc →
    descending l →
    (∀ a p, a ∈ acc.2 → p ∈ l → cand_score_total p ≤ cand_score_total a) →
    let out := foldl (greedy_step min_score) acc l in
    greedy_inv out
    ∧ (∀ a, a ∈ out.2 → a ∈ acc.2 ∨ (a ∈ l ∧ ¬ cand_score_total a < min_score))
    ∧ (∃ new, out.2 = acc.2 ++ new ∧ new `sublist_of` l)
    ∧ (∀ p, p ∈ l → ¬ cand_score_total p < min_score →
         ∃ a, a ∈ out.2 ∧ cand_score_total p ≤ cand_score_total a
              ∧ (cand_user_id p ∈ cand_users a ∨ matched_user_id p ∈ cand_users a)).
Proof.
  induction l as [| p l IH]; intros acc Hinv Hdesc Hge; cbn zeta; cbn [foldl].
  - split; [done |]. split; [by left |]. split; [exists []; by rewrite app_nil_r |].
    by intros p ?%elem_of_nil.
  - apply descending_cons in Hdesc as [Hp Hdesc].
    destruct (greedy_step_spec min_score acc p Hinv) as [Hinv' Hstep].
    assert (∀ a q, a ∈ (greedy_step min_score acc p).2 → q ∈ l →
              cand_score_total q ≤ cand_score_total a) as Hge'.
    { intros a q Ha Hq. destruct Hstep as [[Heq _] | [Heq _]]; rewrite Heq in Ha.
      - apply Hge; [done | by apply elem_of_cons; right].
      - apply elem_of_app in Ha as [Ha | ->%list_elem_of_singleton].
        + apply Hge; [done | by apply elem_of_cons; right].
        + by apply Hp. }
    destruct (IH _ Hinv' Hdesc Hge') as (Hout & Hsub & (new & Hnew & Hnewl) & Hmax).
    split; [done |]. split; [| split].
    + intros a [Ha | [Ha Hs]]%Hsub.
      * destruct Hstep as [[Heq _] | [Heq Hs]]; rewrite Heq in Ha; [by left |].
        apply elem_of_app in Ha as [Ha | ->%list_elem_of_singleton]; [by left |].
        right. split; [by apply elem_of_cons; left | done].
      * right. split; [by apply elem_of_cons; right | done].
    + destruct Hstep as [[Heq _] | [Heq _]].
      * exists new. split; [by rewrite Hnew, Heq | by apply sublist_cons].
      * exists (p :: new). split; [| by apply sublist_skip].
        by rewrite Hnew, Heq, <- (assoc_L (++)).
    + intros q [-> | Hq]%elem_of_cons Hs; [| by apply Hmax].
      destruct Hstep as [[Heq Hblocked] | [Heq _]].
      * destruct Hinv as [Hm _].
        assert (∃ a, a ∈ acc.2
                     ∧ (cand_user_id p ∈ cand_users a ∨ matched_user_id p ∈ cand_users a))
          as (a & Ha & Hshare).
        { destruct (Hblocked Hs) as [(a & ? & ?)%Hm | (a & ? & ?)%Hm]; exists a; auto. }
        exists a. split; [| split; [| done]].
        -- rewrite Hnew, Heq. apply elem_of_app. by left.
        -- apply Hge; [done | by apply elem_of_cons; left].
      * exists p. split; [| split; [apply Qcle_refl |]].
        -- rewrite Hnew, Heq. apply elem_of_app. left. apply elem_of_app. right.
           by apply list_elem_of_singleton.
        -- left. unfold cand_users. set_solver.
Qed.

Lemma greedy_one_to_one_match_spec (pairs : list MatchCandidate) (min_score : Qc) :
  let out := greedy_one_to_one_match pairs min_score in
  disjoint_list (cand_users <$> out)
  ∧ (∀ a, a ∈ out → a ∈ pairs ∧ ¬ cand_score_total a < min_score)
  ∧ out `sublist_of` py_sorted assignment_key_lt pairs
  ∧ (∀ p, p ∈ pairs → ¬ cand_score_total p < min_score →
       ∃ a, a ∈ out ∧ cand_score_total p ≤ cand_score_total a
            ∧ (cand_user_id p ∈ cand_users a ∨ matched_user_id p ∈ cand_users a)).
Proof.
  cbn zeta. unfold greedy_one_to_one_match.
  destruct (greedy_fold_spec min_score (py_sorted assignment_key_lt pairs) (∅, []))
    as ([_ Hd] & Hsub & (new & Hnew & Hnewl) & Hmax).
  - split; [| done]. intros x. cbn. split; [set_solver |].
    by intros (a & ?%elem_of_nil & _).
  - apply py_sorted_descending.
  - by intros a p ?%elem_of_nil.
  - split; [done |]. split; [| split].
    + intros a [?%elem_of_nil | [Ha Hs]]%Hsub; [done |].
      by rewrite py_sorted_perm in Ha.
    + by rewrite Hnew.
    + intros p Hp. apply Hmax. by rewrite py_sorted_perm.
Qed.

(** X17. The greedy matcher returns a one-to-one matching drawn from its
    input: every assignment is one of the given pairs with a score not
    below [min_score], no user id occurs in two assignments, and the
    assignments are listed by descending score. *)
Theorem greedy_one_to_one_match_sound (pairs : list MatchCandidate) (min_score : Qc) :
  let out := greedy_one_to_one_match pairs min_score in
  (∀ a, a ∈ out → a ∈ pairs ∧ ¬ cand_score_total a < min_score)
  ∧ one_pair_per_user (cand_users <$> out)
  ∧ ∀ i j a b, (i < j)%nat → out !! i = Some a → out !! j = Some b →
      cand_score_total b ≤ cand_score_total a.
Proof.
  destruct (greedy_one_to_one_match_spec pairs min_score) as (Hd & Hin & Hsub & _).
  cbn zeta. split; [done |]. split; [by apply disjoint_list_lookup |].
  eapply sublist_descending; [exact Hsub | apply py_sorted_descending].
Qed.

(** X18. The greedy matching is maximal and never passes over a better
    pair: every given pair whose score is not below [min_score] shares a
    user with an assignment whose score is at least as high (possibly the
    pair itself). *)
Theorem greedy_one_to_one_match_maximal
    (pairs : list MatchCandidate) (min_score : Qc) (p : MatchCandidate) :
  p ∈ pairs → ¬ cand_score_total p < min_score →
  ∃ a, a ∈ greedy_one_to_one_match pairs min_score
       ∧ cand_score_total p ≤ cand_score_total a
       ∧ (cand_user_id p ∈ cand_users a ∨ matched_user_id p ∈ cand_users a).
Proof.
  intros Hp Hs.
  destruct (greedy_one_to_one_match_spec pairs min_score) as (_ & _ & _ & Hmax).
  by apply Hmax.
Qed.

(** ** The assignment table: further properties *)

Section table_more.
Context `{EqDecision date}.

Lemma existsb_same_key (table : list assignment_row) (r : assignment_row) :
  existsb (same_key r) table = true
  ↔ key_taken table (row_week_start_date r) (row_user_id r).
Proof.
  rewrite existsb_exists. unfold same_key, key_taken. split.
  - intros (r' & Hr' & [Hw%bool_decide_eq_true Hu%bool_decide_eq_true]%andb_prop).
    exists r'. by rewrite list_elem_of_In.
  - intros (r' & Hr' & Hw & Hu). exists r'. rewrite <- list_elem_of_In.
    split; [done |]. by rewrite !bool_decide_eq_true_2.
Qed.

Lemma insert_do_nothing_cases (table : list assignment_row) (r : assignment_row) :
  (key_taken table (row_week_start_date r) (row_user_id r)
   ∧ insert_do_nothing table r = table)
  ∨ insert_do_nothing table r = table ++ [r].
Proof.
  unfold insert_do_nothing. destruct (existsb (same_key r) table) eqn:Hex; [| by right].
  left. split; [by apply existsb_same_key | done].
Qed.

Lemma insert_do_nothing_taken (table : list assignment_row) (r : assignment_row) :
  key_taken (insert_do_nothing table r) (row_week_start_date r) (row_user_id r).
Proof.
  destruct (insert_do_nothing_cases table r) as [[Hk ->] | ->]; [done |].
  exists r. split; [| done]. apply elem_of_app. right. by apply list_elem_of_singleton.
Qed.

Lemma key_taken_app (table new : list assignment_row) (week : date) (u : string) :
  key_taken table week u → key_taken (table ++ new) week u.
Proof. intros (r & Hr & ?). exists r. split; [apply elem_of_app; by left | done]. Qed.

(** What the two loops of [create_weekly_assignments] do to the state. *)
Lemma create_weekly_assignments_spec (table : list assignment_row) (drawn : nat)
    (week : date) (expires_at : datetime) (assignments : list MatchCandidate)
    (unmatched : list string) (tenant : option string) :
  let out := create_weekly_assignments table drawn week expires_at
               assignments unmatched tenant in
  out.2 = (2 * length assignments + length unmatched)%nat
  ∧ (∃ new, out.1 = table ++ new
            ∧ (length new ≤ out.2)%nat
            ∧ ∀ r, r ∈ new → written_row week expires_at assignments unmatched r)
  ∧ (∀ p, p ∈ assignments →
       key_taken out.1 week (cand_user_id p) ∧ key_taken out.1 week (matched_user_id p))
  ∧ (∀ u, u ∈ unmatched → key_taken out.1 week u).
Proof.
  cbn zeta. unfold create_weekly_assignments.
  match goal with
  | |- context [foldl ?f2 (foldl ?f1 _ _) _] => set (step1 := f1); set (step2 := f2)
  end.
  assert (∀ l acc,
            let out := foldl step1 acc l in
            out.2 = (acc.2 + 2 * length l)%nat
            ∧ (∃ new, out.1 = acc.1 ++ new ∧ (length new ≤ 2 * length l)%nat
                      ∧ ∀ r, r ∈ new → written_row week expires_at l [] r)
            ∧ ∀ p, p ∈ l → key_taken out.1 week (cand_user_id p)
                           ∧ key_taken out.1 week (matched_user_id p)) as H1.
  { induction l as [| p l IH]; intros [t c]; cbn zeta; cbn [foldl].
    { split; [cbn; lia |]. split; [| by intros p ?%elem_of_nil].
      exists []. rewrite app_nil_r. split; [done |]. split; [cbn; lia |].
      by intros r ?%elem_of_nil. }
    specialize (IH (step1 (t, c) p)). cbn zeta in IH.
    destruct IH as (Hc & (new & Hnew & Hlen & Hrows) & Hkeys).
    set (r1 := matched_row week expires_at tenant (drawn + c) p
                 (cand_user_id p) (matched_user_id p)) in *.
    set (r2 := matched_row week expires_at tenant (drawn + c + 1) p
                 (matched_user_id p) (cand_user_id p)) in *.
    assert (step1 (t, c) p
            = (insert_do_nothing (insert_do_nothing t r1) r2, (c + 2)%nat)) as Hstep by done.
    rewrite Hstep in *. cbn [fst snd] in *. clear Hstep.
    assert (written_row week expires_at (p :: l) [] r1) as Hr1.
    { split; [done |]. split; [done |]. left. split; [done |]. exists p.
      split; [by apply elem_of_cons; left |]. split; [done |]. by left. }
    assert (written_row week expires_at (p :: l) [] r2) as Hr2.
    { split; [done |]. split; [done |]. left. split; [done |]. exists p.
      split; [by apply elem_of_cons; left |]. split; [done |]. by right. }
    assert (∃ new0, insert_do_nothing (insert_do_nothing t r1) r2 = t ++ new0
                    ∧ (length new0 ≤ 2)%nat
                    ∧ ∀ r, r ∈ new0 → r = r1 ∨ r = r2) as (new0 & Hnew0 & Hlen0 & Hrows0).
    { destruct (insert_do_nothing_cases t r1) as [[_ ->] | ->];
        [destruct (insert_do_nothing_cases t r2) as [[_ ->] | ->]
        |destruct (insert_do_nothing_cases (t ++ [r1]) r2) as [[_ ->] | ->]].
      - exists []. rewrite app_nil_r. split; [done |]. split; [cbn; lia |].
        by intros r ?%elem_of_nil.
      - exists [r2]. split; [done |]. split; [cbn; lia |].
        intros r ->%list_elem_of_singleton. by right.
      - exists [r1]. split; [done |]. split; [cbn; lia |].
        intros r ->%list_elem_of_singleton. by left.
      - exists [r1; r2]. rewrite <- (assoc_L (++)). split; [done |]. split; [cbn; lia |].
        intros r [-> | ->%list_elem_of_singleton]%elem_of_cons; auto. }
    split; [cbn [length]; lia |]. split.
    - exists (new0 ++ new). rewrite Hnew, Hnew0, <- (assoc_L (++)). split; [done |].
      split; [rewrite length_app; cbn [length]; lia |].
      intros r [[-> | ->]%Hrows0 | Hr]%elem_of_app; [done | done |].
      destruct (Hrows r Hr) as (Hw & He & [(Hs & q & Hq & Hrest) | (_ & []%elem_of_nil & _)]).
      split; [done |]. split; [done |]. left. split; [done |].
      exists q. split; [by apply elem_of_cons; right | done].
    - intros q [-> | Hq]%elem_of_cons; [| by apply Hkeys].
      rewrite Hnew. split; apply key_taken_app.
      + destruct (insert_do_nothing_cases (insert_do_nothing t r1) r2) as [[_ ->] | ->].
        * apply (insert_do_nothing_taken t r1).
        * apply key_taken_app, (insert_do_nothing_taken t r1).
      + apply (insert_do_nothing_taken _ r2). }
  assert (∀ l acc,
            let out := foldl step2 acc l in
            out.2 = (acc.2 + length l)%nat
            ∧ (∃ new, out.1 = acc.1 ++ new ∧ (length new ≤ length l)%nat
                      ∧ ∀ r, r ∈ new → written_row week expires_at [] l r)
            ∧ ∀ u, u ∈ l → key_taken out.1 week u) as H2.
  { induction l as [| u l IH]; intros [t c]; cbn zeta; cbn [foldl].
    { split; [cbn; lia |]. split; [| by intros p ?%elem_of_nil].
      exists []. rewrite app_nil_r. split; [done |]. split; [cbn; lia |].
      by intros r ?%elem_of_nil. }
    specialize (IH (step2 (t, c) u)). cbn zeta in IH.
    destruct IH as (Hc & (new & Hnew & Hlen & Hrows) & Hkeys).
    set (r1 := no_match_row week expires_at tenant (drawn + c) u) in *.
    assert (step2 (t, c) u = (insert_do_nothing t r1, S c)) as Hstep by done.
    rewrite Hstep in *. cbn [fst snd] in *. clear Hstep.
    assert (written_row week expires_at [] (u :: l) r1) as Hr1.
    { split; [done |]. split; [done |]. right. split; [done |].
      split; [by apply elem_of_cons; left | done]. }
    split; [cbn [length]; lia |]. split.
    - destruct (insert_do_nothing_cases t r1) as [[_ Heq] | Heq].
      + exists new. split; [by rewrite Hnew, Heq |]. split; [cbn [length]; lia |].
        intros r Hr.
        destruct (Hrows r Hr) as (Hw & He & [(_ & q & []%elem_of_nil & _) | (Hs & Hu & Hm)]).
        split; [done |]. split; [done |]. right. split; [done |].
        split; [by apply elem_of_cons; right | done].
      + exists (r1 :: new). split; [by rewrite Hnew, Heq, <- (assoc_L (++)) |].
        split; [cbn [length]; lia |].
        intros r [-> | Hr]%elem_of_cons; [done |].
        destruct (Hrows r Hr) as (Hw & He & [(_ & q & []%elem_of_nil & _) | (Hs & Hu & Hm)]).
        split; [done |]. split; [done |]. right. split; [done |].
        split; [by apply elem_of_cons; right | done].
    - intros v [-> | Hv]%elem_of_cons; [| by apply Hkeys].
      rewrite Hnew. apply key_taken_app, (insert_do_nothing_taken t r1). }
  specialize (H1 assignments (table, 0%nat)). cbn zeta in H1.
  destruct H1 as (Hc1 & (new1 & Hnew1 & Hlen1 & Hrows1) & Hkeys1).
  specialize (H2 unmatched (foldl step1 (table, 0%nat) assignments)). cbn zeta in H2.
  destruct H2 as (Hc2 & (new2 & Hnew2 & Hlen2 & Hrows2) & Hkeys2).
  cbn [fst snd] in *.
  split; [lia |]. split; [| split].
  - exists (new1 ++ new2). rewrite Hnew2, Hnew1, <- (assoc_L (++)). split; [done |].
    split; [rewrite length_app; lia |].
    intros r [Hr | Hr]%elem_of_app.
    + destruct (Hrows1 r Hr) as (Hw & He & [Hp | (_ & []%elem_of_nil & _)]).
      split; [done |]. split; [done |]. by left.
    + destruct (Hrows2 r Hr) as (Hw & He & [(_ & q & []%elem_of_nil & _) | Hu]).
      split; [done |]. split; [done |]. by right.
  - intros p Hp. rewrite Hnew2. destruct (Hkeys1 p Hp). split; by apply key_taken_app.
  - done.
Qed.

(** A call whose keys are all taken leaves the table as it is. *)
Lemma create_weekly_assignments_taken (table : list assignment_row) (drawn : nat)
    (week : date) (expires_at : datetime) (assignments : list MatchCandidate)
    (unmatched : list string) (tenant : option string) :
  (∀ p, p ∈ assignments →
     key_taken table week (cand_user_id p) ∧ key_taken table week (matched_user_id p)) →
  (∀ u, u ∈ unmatched → key_taken table week u) →
  (create_weekly_assignments table drawn week expires_at assignments unmatched tenant).1
  = table.
Proof.
  intros Hasg Hun. unfold create_weekly_assignments.
  match goal with
  | |- context [foldl ?f2 (foldl ?f1 _ _) _] => set (step1 := f1); set (step2 := f2)
  end.
  assert (∀ l c, (∀ p, p ∈ l → key_taken table week (cand_user_id p)
                              ∧ key_taken table week (matched_user_id p)) →
            ∃ c', foldl step1 (table, c) l = (table, c')) as H1.
  { induction l as [| p l IH]; intros c Hl; cbn [foldl]; [by eexists |].
    destruct (Hl p ltac:(by apply elem_of_cons; left)) as [Hc Hm].
    assert (step1 (table, c) p = (table, (c + 2)%nat)) as ->.
    { subst step1. cbn beta iota. unfold insert_do_nothing.
      rewrite (proj2 (existsb_same_key table _)) by done.
      by rewrite (proj2 (existsb_same_key table _)) by done. }
    apply IH. intros q Hq. apply Hl. by apply elem_of_cons; right. }
  assert (∀ l c, (∀ u, u ∈ l → key_taken table week u) →
            ∃ c', foldl step2 (table, c) l = (table, c')) as H2.
  { induction l as [| u l IH]; intros c Hl; cbn [foldl]; [by eexists |].
    assert (step2 (table, c) u = (table, S c)) as ->.
    { subst step2. cbn beta iota. unfold insert_do_nothing.
      rewrite (proj2 (existsb_same_key table _)); [done |].
      apply Hl. by apply elem_of_cons; left. }
    apply IH. intros q Hq. apply Hl. by apply elem_of_cons; right. }
  destruct (H1 assignments 0%nat Hasg) as [c1 ->].
  by destruct (H2 unmatched c1 Hun) as [c2 ->].
Qed.

End table_more.

(** X19. [create_weekly_assignments] only appends: the rows the table
    held are kept, in place and unchanged. Every row it adds is for the
    given week and expiry, and is a [proposed] row of one side of an
    assignment, with the pair's score, or a [no_match] row of an unmatched
    user. The returned counter is the number of inserts attempted, twice
    the assignments plus the unmatched users, an upper bound on the rows
    added. *)
Theorem create_weekly_assignments_appends `{EqDecision date}
    (table : list assignment_row) (drawn : nat) (week_start_date : date)
    (expires_at : datetime) (assignments : list MatchCandidate)
    (unmatched_user_ids : list string) (tenant_id : option string) :
  let out := create_weekly_assignments table drawn week_start_date expires_at
               assignments unmatched_user_ids tenant_id in
  out.2 = (2 * length assignments + length unmatched_user_ids)%nat
  ∧ ∃ new, out.1 = table ++ new
           ∧ (length new ≤ out.2)%nat
           ∧ ∀ r, r ∈ new →
               written_row week_start_date expires_at assignments unmatched_user_ids r.
Proof.
  destruct (create_weekly_assignments_spec table drawn week_start_date expires_at
              assignments unmatched_user_ids tenant_id) as (Hc & Hnew & _).
  by split.
Qed.

(** X20. Running [create_weekly_assignments] again for the same week and
    the same assignments and unmatched users writes nothing, whatever the
    expiry, the tenant and the identifiers drawn are: every key is taken. *)
Theorem create_weekly_assignments_rerun `{EqDecision date}
    (table : list assignment_row) (drawn drawn' : nat) (week_start_date : date)
    (expires_at expires_at' : datetime) (assignments : list MatchCandidate)
    (unmatched_user_ids : list string) (tenant_id tenant_id' : option string) :
  let table' := (create_weekly_assignments table drawn week_start_date expires_at
                   assignments unmatched_user_ids tenant_id).1 in
  (create_weekly_assignments table' drawn' week_start_date expires_at'
     assignments unmatched_user_ids tenant_id').1 = table'.
Proof.
  destruct (create_weekly_assignments_spec table drawn week_start_date expires_at
              assignments unmatched_user_ids tenant_id) as (_ & _ & Hasg & Hun).
  cbn zeta. by apply create_weekly_assignments_taken.
Qed.

(** ** Recent pairs *)

Lemma canonical_pair_eq (a b c d : string) :
  canonical_pair a b = canonical_pair c d ↔ (a = c ∧ b = d) ∨ (a = d ∧ b = c).
Proof.
  split.
  - unfold canonical_pair. repeat case_match; intros [= -> ->]; auto.
  - intros [[-> ->] | [-> ->]]; [done | apply canonical_pair_comm].
Qed.

Lemma elem_of_fetch_recent_pairs (table : list assignment_row) (week : date)
    (lookback : Z) (k : string * string) :
  k ∈ fetch_recent_pairs table week lookback
  ↔ ∃ r m, r ∈ table ∧ row_matched_user_id r = Some m
           ∧ recent_row week (date_minus_days week (7 * lookback)) r = true
           ∧ k = canonical_pair (row_user_id r) m.
Proof.
  unfold fetch_recent_pairs. rewrite elem_of_list_to_set, list_elem_of_omap. split.
  - intros (r & Hr & Hk). destruct (recent_row _ _ r) eqn:Hrec; [| done].
    destruct (row_matched_user_id r) as [m |] eqn:Hm; [| done].
    injection Hk as <-. by exists r, m.
  - intros (r & m & Hr & Hm & Hrec & ->). exists r. split; [done |].
    by rewrite Hrec, Hm.
Qed.

(** X21. [was_matched_recently] holds exactly when the table has a row of
    one of the two users, matched to the other, for a week in the lookback
    window before [week_start_date], whose status is not [no_match]; the
    order of the two users does not matter. *)
Theorem was_matched_recently_spec (table : list assignment_row) (user_a user_b : string)
    (week_start_date : date) (lookback_weeks : Z) :
  was_matched_recently table user_a user_b week_start_date lookback_weeks = true
  ↔ ∃ r, r ∈ table
         ∧ date_lt (row_week_start_date r) week_start_date = true
         ∧ date_lt (row_week_start_date r)
             (date_minus_days week_start_date (7 * lookback_weeks)) = false
         ∧ row_status r ≠ "no_match"
         ∧ ((row_user_id r = user_a ∧ row_matched_user_id r = Some user_b)
            ∨ (row_user_id r = user_b ∧ row_matched_user_id r = Some user_a)).
Proof.
  unfold was_matched_recently. rewrite bool_decide_eq_true, elem_of_fetch_recent_pairs.
  unfold recent_row. split.
  - intros (r & m & Hr & Hm & Hrec & Hk). exists r.
    apply andb_prop in Hrec as [[[H1 H2%negb_true_iff]%andb_prop _]%andb_prop
                                  H4%negb_true_iff].
    apply bool_decide_eq_false in H4.
    split; [done |]. split; [done |]. split; [done |]. split; [done |].
    apply canonical_pair_eq in Hk as [[-> ->] | [-> ->]]; auto.
  - intros (r & Hr & H1 & H2 & H4 & Hab).
    exists r, (if decide (row_user_id r = user_a) then user_b else user_a).
    split; [done |].
    assert (row_matched_user_id r
            = Some (if decide (row_user_id r = user_a) then user_b else user_a)) as Hm.
    { case_decide; naive_solver. }
    split; [done |]. split.
    + rewrite H1, H2, Hm. cbn [negb andb].
      rewrite bool_decide_eq_true_2 by (by eexists).
      by rewrite bool_decide_eq_false_2.
    + apply canonical_pair_eq. case_decide; naive_solver.
Qed.

(** X22. No rematch inside the lookback window: when the recent pairs
    fetched from the table are passed to [build_candidate_pairs], no
    candidate pairs two users that [was_matched_recently] reports, in
    either orientation. *)
Theorem build_candidate_pairs_no_rematch
    (users : list user) (cfg : option config) (blocked_pairs : option pair_set)
    (table : list assignment_row) (week_start_date : date) (lookback_weeks : Z)
    (cands : list MatchCandidate) (p : MatchCandidate) :
  build_candidate_pairs users cfg
    (Some (fetch_recent_pairs table week_start_date lookback_weeks)) blocked_pairs
  = Ok cands →
  p ∈ cands →
  was_matched_recently table (cand_user_id p) (matched_user_id p)
    week_start_date lookback_weeks = false
  ∧ was_matched_recently table (matched_user_id p) (cand_user_id p)
      week_start_date lookback_weeks = false.
Proof.
  unfold build_candidate_pairs. intros Hc Hp.
  destruct (candidates_loop_sound _ _ _ _ _ Hc p Hp) as (H1 & H2 & _).
  unfold was_matched_recently. by rewrite !bool_decide_eq_false_2.
Qed.

(** ** Trait computation: further properties *)

Lemma Qc_div_unit (s n : Qc) : 0 < n → 0 ≤ s → s ≤ n → 0 ≤ s / n ∧ s / n ≤ 1.
Proof.
  unfold Qcdiv, Qcinv, Qcmult, Qcle, Qclt, Q2Qc; cbn [this]. rewrite !Qred_correct.
  intros Hn H0 H1. split.
  - apply Qle_shift_div_l; [done |]. lra.
  - apply Qle_shift_div_r; [done |]. lra.
Qed.

Lemma sum_bounds (l : list Qc) :
  Forall (λ x, 0 ≤ x ∧ x ≤ 1) l → ∀ acc,
  acc ≤ foldl Qcplus acc l
  ∧ foldl Qcplus acc l ≤ acc + Qc_of_Z (Z.of_nat (length l)).
Proof.
  induction 1 as [| x l [Hx0 Hx1] _ IH]; intros acc; cbn [foldl length].
  - change (Z.of_nat 0) with 0%Z.
    split; unfold Qc_of_Z, Qcle, Qcplus, Q2Qc, inject_Z; cbn [this];
      rewrite ?Qred_correct; lra.
  - destruct (IH (acc + x)) as [Hl Hu].
    assert (Qc_of_Z (Z.of_nat (S (length l))) = 1 + Qc_of_Z (Z.of_nat (length l))) as ->.
    { apply Qc_is_canon. unfold Qc_of_Z, Qcplus, Q2Qc. cbn [this]. rewrite !Qred_correct.
      rewrite Nat2Z.inj_succ, <- Z.add_1_l, inject_Z_plus. reflexivity. }
    set (n := Qc_of_Z _) in *. clearbody n.
    revert Hl Hu Hx0 Hx1. set (f := foldl _ _ _). clearbody f.
    unfold Qcle, Qcplus, Q2Qc; cbn [this]; rewrite ?Qred_correct. intros. split; lra.
Qed.

Lemma _mean_unit (values : list Qc) (dflt : Qc) :
  Forall (λ x, 0 ≤ x ∧ x ≤ 1) values → 0 ≤ dflt ∧ dflt ≤ 1 →
  0 ≤ _mean values dflt ∧ _mean values dflt ≤ 1.
Proof.
  intros Hv Hd. unfold _mean. destruct values as [| v values]; [done |].
  destruct (sum_bounds _ Hv 0) as [Hl Hu]. apply round6_unit.
  all: apply Qc_div_unit; try done.
  all: try (rewrite Qcplus_0_l in Hu; exact Hu).
  all: unfold Qc_of_Z, Qclt, Q2Qc, inject_Z; cbn [this length]; rewrite Qred_correct;
    unfold Qlt; cbn; lia.
Qed.

Lemma _coerce_likert_bounds (value : pyval) (v : Qc) :
  _coerce_likert value = Some v → 1 ≤ v ∧ v ≤ Q2Qc (5 # 1).
Proof.
  assert (∀ q : Qc,
            (if bool_decide (1 ≤ q) && bool_decide (q ≤ Q2Qc (5 # 1)) then Some q else None)
            = Some v → 1 ≤ v ∧ v ≤ Q2Qc (5 # 1)) as Hb.
  { intros q. destruct (bool_decide (1 ≤ q)) eqn:H1; [| done].
    destruct (bool_decide (q ≤ Q2Qc (5 # 1))) eqn:H5; [| done].
    intros [= <-]. by apply bool_decide_eq_true in H1, H5. }
  unfold _coerce_likert. destruct value as [| b | q | s | |]; try done; try apply Hb.
  destruct (str_isdigit _); [apply Hb | done].
Qed.

Lemma _normalize_likert_unit (value : pyval) (reverse : bool) (x : Qc) :
  _normalize_likert value reverse = Some x → 0 ≤ x ∧ x ≤ 1.
Proof.
  unfold _normalize_likert.
  destruct (_coerce_likert value) as [v |] eqn:Hv; [| done].
  apply _coerce_likert_bounds in Hv as [H1 H5]. intros [= <-].
  assert (0 ≤ (v - 1) / Q2Qc (4 # 1) ∧ (v - 1) / Q2Qc (4 # 1) ≤ 1) as [Hl Hu].
  { apply Qc_div_unit; [done | |]; qc_lra. }
  set (out := (v - 1) / Q2Qc (4 # 1)) in *. clearbody out. clear H1 H5.
  apply round6_unit; destruct reverse; try done; qc_lra.
Qed.

Lemma or_half_unit (x : option Qc) :
  (∀ v, x = Some v → 0 ≤ v ∧ v ≤ 1) → 0 ≤ or_half x ∧ or_half x ≤ 1.
Proof.
  intros Hx. unfold or_half, dec. destruct x as [v |]; [| split; qc_lra].
  case_bool_decide; [split; qc_lra | by apply Hx].
Qed.

Lemma kids_timeline_value_unit (v : pyval) :
  0 ≤ kids_timeline_value v ∧ kids_timeline_value v ≤ 1.
Proof.
  unfold kids_timeline_value, dec. repeat case_bool_decide; split; qc_lra.
Qed.


(** *** Computed profiles and the scorer *)

Lemma v3_profile_partial_profile (qmeta : list (string * question_meta))
    (answers : answer_map) (t : pyval) :
  v3_profile qmeta answers = Ok t → partial_profile t = true.
Proof.
  unfold v3_profile, mbind, result_bind.
  match goal with
  | |- rbind ?m _ = _ → _ => destruct m as [wants |]; cbn [rbind]; [| done]
  end.
  intros [= <-]. reflexivity.
Qed.

Lemma compute_traits_partial_profile (survey_def : pyval) (answers : answer_map)
    (t : pyval) :
  compute_traits survey_def answers = Ok t → partial_profile t = true.
Proof.
  unfold compute_traits, mbind, result_bind.
  destruct (uses_current_schedule survey_def) as [[] |]; cbn [rbind]; [| | done].
  - unfold compute_traits_match_core_v3, mbind, result_bind.
    destruct (_build_question_meta survey_def) as [qmeta |]; cbn [rbind]; [| done].
    destruct (_required_missing_codes survey_def answers) as [[| c missing] |];
      cbn [rbind]; [| done | done].
    apply v3_profile_partial_profile.
  - unfold _compute_traits_legacy_v1, mbind, result_bind.
    repeat match goal with
    | |- rbind ?m _ = Ok _ → _ => destruct m as [? | ?]; cbn [rbind]; [| done]
    end.
    intros [= <-]. reflexivity.
Qed.

(** X24. Profiles computed by [compute_traits] can always be scored:
    [compute_compatibility] raises no exception on two computed profiles,
    whichever schedule (current or legacy) produced each of them. *)
Theorem compute_traits_scorable
    (survey_u survey_v : pyval) (answers_u answers_v : answer_map)
    (u_traits v_traits : pyval) (cfg : option config) :
  compute_traits survey_u answers_u = Ok u_traits →
  compute_traits survey_v answers_v = Ok v_traits →
  ∃ r, compute_compatibility u_traits v_traits cfg = Ok r.
Proof.
  intros Hu%compute_traits_partial_profile Hv%compute_traits_partial_profile.
  by apply compute_compatibility_total.
Qed.

Lemma dict_get_cons {A : Type} (k' k : string) (v : A) (d : list (string * A)) :
  dict_get ((k', v) :: d) k = if decide (k' = k) then Some v else dict_get d k.
Proof. done. Qed.

Lemma v3_profile_dimensions (qmeta : list (string * question_meta))
    (answers : answer_map) (t : pyval) (key : string) (x : Qc) :
  v3_profile qmeta answers = Ok t → _dim t key = Ok x → 0 ≤ x ∧ x ≤ 1.
Proof.
  unfold v3_profile, mbind, result_bind.
  match goal with
  | |- rbind ?m _ = _ → _ => destruct m as [wants |]; cbn [rbind]; [| done]
  end.
  intros [= <-]. unfold _dim, mbind, result_bind, py_or at 1.
  cbn [truthy py_get rbind].
  rewrite !dict_get_cons. rewrite !decide_False by done. rewrite decide_True by done.
  cbn [default from_option id]. unfold py_or. cbn [truthy py_get rbind].
  rewrite !dict_get_cons.
  repeat case_decide; cbn [default from_option id dict_get _to_float num];
    intros [= <-];
    first [ apply or_half_unit; apply _normalize_likert_unit
          | apply kids_timeline_value_unit
          | apply _mean_unit;
            [ repeat case_match; repeat (apply Forall_cons; split);
              try apply Forall_nil_2; eapply _normalize_likert_unit; eassumption
            | unfold dec; split; qc_lra ]
          | unfold dec; split; qc_lra ].
Qed.

(** X25. Every dimension the scorer reads from a profile computed on the
    current schedule lies in the unit interval, a dimension the profile
    does not hold included (it is read as [0.5]). *)
Theorem compute_traits_match_core_v3_dimensions
    (survey_def : pyval) (answers : answer_map) (t : pyval) (key : string) (x : Qc) :
  compute_traits_match_core_v3 survey_def answers = Ok t →
  _dim t key = Ok x →
  0 ≤ x ∧ x ≤ 1.
Proof.
  unfold compute_traits_match_core_v3, mbind, result_bind.
  destruct (_build_question_meta survey_def) as [qmeta |]; cbn [rbind]; [| done].
  destruct (_required_missing_codes survey_def answers) as [[| c missing] |];
    cbn [rbind]; [| done | done].
  apply v3_profile_dimensions.
Qed.

(** ** The question index and reconciliation: further properties *)

Lemma dict_set_keys {A : Type} (d : list (string * A)) (k : string) (v : A) :
  (dict_set d k v).*1 = if decide (k ∈ d.*1) then d.*1 else d.*1 ++ [k].
Proof.
  induction d as [| [k' v'] d IH]; cbn [dict_set fmap list_fmap fst].
  - by rewrite decide_False by (by intros ?%elem_of_nil).
  - destruct (decide (k' = k)) as [-> | Hne].
    + by rewrite decide_True by (by apply elem_of_cons; left).
    + cbn [fmap list_fmap fst]. fold (fmap (M := list) (@fst string A)). rewrite IH.
      destruct (decide (k ∈ d.*1)) as [Hin | Hin].
      * by rewrite decide_True by (by apply elem_of_cons; right).
      * rewrite decide_False; [done |]. intros [? | ?]%elem_of_cons; congruence.
Qed.

Lemma dict_set_NoDup {A : Type} (d : list (string * A)) (k : string) (v : A) :
  NoDup d.*1 → NoDup (dict_set d k v).*1.
Proof.
  intros Hd. rewrite dict_set_keys. case_decide; [done |].
  apply NoDup_app. split; [done |]. split; [| apply NoDup_singleton].
  by intros x Hx ->%list_elem_of_singleton.
Qed.

Lemma build_question_index_NoDup (survey_def : pyval) (index : question_index) :
  build_question_index survey_def = Ok index → NoDup index.*1.
Proof.
  unfold build_question_index, mbind, result_bind.
  destruct (py_get survey_def "option_sets" PNone) as [os |]; cbn [rbind]; [| done].
  destruct (py_get survey_def "screens" _) as [screens |]; cbn [rbind]; [| done].
  destruct (py_iter screens) as [l |]; cbn [rbind]; [| done].
  intros [= <-].
  set (option_sets := match os with PDict d => d | _ => [] end). clearbody option_sets.
  assert (∀ key items out, NoDup out.*1 →
            NoDup (foldl (index_item option_sets key) out items).*1) as Hitems.
  { intros key items. induction items as [| item items IH]; intros out Hout; [done |].
    cbn [foldl]. apply IH. destruct item; try done.
    cbn [index_item]. case_bool_decide; [done |]. by apply dict_set_NoDup. }
  enough (∀ out, NoDup out.*1 → NoDup (foldl (index_screen option_sets) out l).*1) as H.
  { apply H. apply NoDup_nil_2. }
  induction l as [| screen l IH]; intros out Hout; [done |].
  cbn [foldl]. apply IH. destruct screen; try done.
  cbn [index_screen]. by apply Hitems.
Qed.

(** X26. The question index has exactly one entry for each non-empty
    question code carried by an item of the definition: no code is indexed
    twice, the empty code is never indexed, and every indexed code is the
    code of an item. *)
Theorem build_question_index_codes (survey_def : pyval) (index : question_index) :
  build_question_index survey_def = Ok index →
  NoDup index.*1
  ∧ ∃ items, survey_items survey_def = Ok items
             ∧ ∀ qid, is_Some (dict_get index qid)
                      ↔ qid ≠ "" ∧ qid ∈ item_code <$> items.
Proof.
  intros Hidx. split; [by eapply build_question_index_NoDup |].
  destruct (build_question_index_inv _ _ Hidx) as (items & Hitems & Ha & Hb).
  exists items. split; [done |]. intros qid. split.
  - intros [meta Hmeta%dict_get_elem_of].
    destruct (Ha _ _ Hmeta) as (it & Hit & Hcode & Hne & _).
    split; [done |]. apply list_elem_of_fmap. by exists (PDict it).
  - intros [Hne (item & Hcode & Hitem)%list_elem_of_fmap].
    destruct item as [| | | | | it]; try (by destruct Hne).
    cbn [item_code] in Hcode. rewrite Hcode. apply Hb; [done |]. by rewrite <- Hcode.
Qed.

(** *** The parts of a reconciliation *)

Lemma reconcile_run_inv (db : database) (definition : pyval) (now : datetime)
    (drawn : nat) (user_id : string) (tenant_id : option string)
    (res : reconciliation) (db' : database) :
  reconcile_user_survey_to_current db definition now drawn user_id tenant_id
    = Ok (res, db') →
  ∃ rt definitions,
    get_active_survey_runtime db definition = Ok rt
    ∧ _definitions_for_slug db (res_survey_slug res) = Ok definitions
    ∧ res_current_survey_hash res = rt_hash rt
    ∧ let latest := _fetch_latest_response db user_id (res_survey_slug res) in
      let src := resolve_source latest definitions in
      let m := migrate latest rt (from_option di_question_index [] src.1) src.2 in
      res_answers_current res = answers_current m
      ∧ res_missing_question_ids res = py_sorted String.ltb (remove_dups (missing m))
      ∧ res_needs_retake res = bool_decide (0 < length (missing m))%nat
      ∧ res_source_survey_hash res = or_none src.2
      ∧ res_source_survey_version res = (lr_session <$> latest) ≫= sess_survey_version
      ∧ count_old_answers (res_migration_report res)
        = length (from_option lr_answers [] latest)
      ∧ report_carried_forward (res_migration_report res)
        = py_sorted String.ltb (carried_forward m)
      ∧ report_changed_semantics (res_migration_report res)
        = py_sorted String.ltb (changed_semantics m)
      ∧ report_new_questions (res_migration_report res)
        = py_sorted String.ltb (new_questions m).
Proof.
  unfold reconcile_user_survey_to_current, reconcile, mbind, result_bind.
  destruct (get_active_survey_runtime db definition) as [rt |]; cbn [rbind]; [| done].
  set (slug := if bool_decide (rt_slug rt = "") then SURVEY_SLUG else rt_slug rt).
  destruct (_definitions_for_slug db slug) as [definitions |] eqn:Hdefs;
    cbn [rbind]; [| done].
  destruct (resolve_source (_fetch_latest_response db user_id slug) definitions)
    as [old_def old_hash] eqn:Hsrc.
  cbn [rbind]. intros [= <- <-]. exists rt, definitions.
  cbn [res_survey_slug res_current_survey_hash]. fold slug. rewrite Hsrc.
  by cbn.
Qed.

Lemma length_pos_elem_of {A : Type} (l : list A) :
  (0 < length l)%nat ↔ ∃ x, x ∈ l.
Proof.
  destruct l as [| x l]; cbn.
  - split; [lia | by intros [x ?%elem_of_nil]].
  - split; [| lia]. intros _. exists x. by apply elem_of_cons; left.
Qed.

(** X27. Reconciling a user who has no response to the survey carries
    nothing forward and names no source: the current answers are empty,
    the missing questions are exactly the required questions of the
    current index, and a retake is needed if and only if there is such a
    question. *)
Theorem reconcile_without_response
    (db : database) (definition : pyval) (now : datetime) (drawn : nat)
    (user_id : string) (tenant_id : option string)
    (res : reconciliation) (db' : database) :
  reconcile_user_survey_to_current db definition now drawn user_id tenant_id
    = Ok (res, db') →
  _fetch_latest_response db user_id (res_survey_slug res) = None →
  res_answers_current res = []
  ∧ res_source_survey_hash res = None
  ∧ res_source_survey_version res = None
  ∧ (∃ index, build_question_index definition = Ok index
              ∧ ∀ qid, qid ∈ res_missing_question_ids res
                       ↔ ∃ meta, (qid, meta) ∈ index ∧ qi_is_required meta = true)
  ∧ (res_needs_retake res = true ↔ res_missing_question_ids res ≠ []).
Proof.
  intros (rt & definitions & Hrt & Hdefs & _ & Hres)%reconcile_run_inv Hlatest.
  cbn zeta in Hres. rewrite Hlatest in Hres. cbn [migrate resolve_source] in Hres.
  destruct Hres as (Hans & Hmiss & Hretake & Hhash & Hver & _).
  cbn [answers_current missing fmap option_fmap option_map mbind option_bind] in *.
  split; [done |]. split.
  { rewrite Hhash. unfold resolve_source. cbn. by destruct (dict_get _ ""). }
  split; [done |].
  assert (∀ qid, qid ∈ res_missing_question_ids res ↔ qid ∈ rt_required_question_ids rt)
    as Hin.
  { intros qid. by rewrite Hmiss, !elem_of_sorted_set. }
  split.
  - exists (rt_question_index rt). split; [by eapply runtime_question_index |].
    intros qid. rewrite Hin. by eapply required_question_ids_spec.
  - rewrite Hretake, bool_decide_eq_true, length_pos_elem_of. split.
    + intros [qid Hq] Hnil. apply (proj1 (elem_of_sorted_set _ _)) in Hq.
      assert (qid ∈ res_missing_question_ids res) as Hq' by (by apply Hin).
      rewrite Hnil in Hq'. by apply elem_of_nil in Hq'.
    + intros Hne. destruct (res_missing_question_ids res) as [| qid l] eqn:Hl; [done |].
      exists qid. apply elem_of_sorted_set, Hin. by apply elem_of_cons; left.
Qed.

(** *** No answer is invented *)

Lemma migrate_fold_inv (answers_old : answer_map) (old_q : question_index)
    (old_hash current_hash : string) (l : question_index) : ∀ done_ m,
  NoDup (done_ ++ l.*1) →
  (∀ qid a, dict_get (answers_current m) qid = Some a →
     dict_get answers_old qid = Some a ∧ qid ∈ carried_forward m) →
  (∀ qid, qid ∈ carried_forward m ∨ qid ∈ changed_semantics m ∨ qid ∈ new_questions m
          ∨ qid ∈ missing m → qid ∈ done_) →
  (∀ qid, qid ∈ carried_forward m → qid ∉ missing m) →
  let m' := foldl (migrate_question answers_old old_q old_hash current_hash) m l in
  (∀ qid a, dict_get (answers_current m') qid = Some a →
     dict_get answers_old qid = Some a ∧ qid ∈ carried_forward m')
  ∧ (∀ qid, qid ∈ carried_forward m' ∨ qid ∈ changed_semantics m'
            ∨ qid ∈ new_questions m' ∨ qid ∈ missing m' → qid ∈ done_ ++ l.*1)
  ∧ (∀ qid, qid ∈ carried_forward m' → qid ∉ missing m').
Proof.
  induction l as [| [q meta] l IH]; intros done_ m Hnd Hans Hdone Hdisj; cbn zeta.
  { cbn [foldl fmap list_fmap]. rewrite app_nil_r. done. }
  cbn [foldl fmap list_fmap fst] in *.
  replace (done_ ++ q :: l.*1) with ((done_ ++ [q]) ++ l.*1) in *
    by (by rewrite <- (assoc_L (++))).
  assert (q ∉ done_) as Hq.
  { apply NoDup_app in Hnd as [Hnd _]. apply NoDup_app in Hnd as (_ & Hnd & _).
    intros Hin. apply (Hnd q Hin). by apply list_elem_of_singleton. }
  apply IH; [done | | |]; clear IH; unfold migrate_question.
  - intros qid a. destruct (dict_get answers_old q) as [answer |] eqn:Hold;
      [| by apply Hans].
    match goal with |- context [if ?c then _ else _] => destruct c end;
      cbn [answers_current carried_forward]; [| by apply Hans].
    rewrite dict_get_dict_set. case_decide as Heq.
    + subst qid. intros [= <-]. split; [done |]. apply elem_of_app. right.
      by apply list_elem_of_singleton.
    + intros [? ?]%Hans. split; [done |]. apply elem_of_app. by left.
  - intros qid. rewrite elem_of_app, list_elem_of_singleton.
    destruct (dict_get answers_old q) as [answer |] eqn:Hold.
    + match goal with |- context [if ?c then _ else _] => destruct c end;
        cbn [carried_forward changed_semantics new_questions missing].
      * rewrite elem_of_app, list_elem_of_singleton. naive_solver.
      * destruct (qi_is_required meta);
          rewrite ?elem_of_app, ?list_elem_of_singleton; naive_solver.
    + cbn [carried_forward changed_semantics new_questions missing].
      destruct (qi_is_required meta);
        rewrite ?elem_of_app, ?list_elem_of_singleton; naive_solver.
  - intros qid.
    destruct (dict_get answers_old q) as [answer |] eqn:Hold.
    + match goal with |- context [if ?c then _ else _] => destruct c end;
        cbn [carried_forward missing].
      * rewrite elem_of_app, list_elem_of_singleton. intros [Hc | ->]; [by apply Hdisj |].
        intros Hm. apply Hq, Hdone. auto.
      * intros Hc. destruct (qi_is_required meta); [| by apply Hdisj].
        rewrite elem_of_app, list_elem_of_singleton. intros [Hm | ->]; [by eapply Hdisj |].
        apply Hq, Hdone. auto.
    + cbn [carried_forward missing].
      intros Hc. destruct (qi_is_required meta); [| by apply Hdisj].
      rewrite elem_of_app, list_elem_of_singleton. intros [Hm | ->]; [by eapply Hdisj |].
      apply Hq, Hdone. auto.
Qed.

(** X28. Reconciliation invents no answer: every current answer is the
    answer the user's latest response gives to the same question, the
    question is in the current index and is reported as carried forward,
    and it is not reported as missing. *)
Theorem reconcile_answers_from_latest
    (db : database) (definition : pyval) (now : datetime) (drawn : nat)
    (user_id : string) (tenant_id : option string)
    (res : reconciliation) (db' : database) (qid : string) (answer : pyval) :
  reconcile_user_survey_to_current db definition now drawn user_id tenant_id
    = Ok (res, db') →
  dict_get (res_answers_current res) qid = Some answer →
  (∃ latest, _fetch_latest_response db user_id (res_survey_slug res) = Some latest
             ∧ dict_get (lr_answers latest) qid = Some answer)
  ∧ (∃ index, build_question_index definition = Ok index
              ∧ is_Some (dict_get index qid))
  ∧ qid ∈ report_carried_forward (res_migration_report res)
  ∧ qid ∉ res_missing_question_ids res.
Proof.
  intros (rt & definitions & Hrt & Hdefs & _ & Hres)%reconcile_run_inv.
  cbn zeta in Hres.
  destruct Hres as (Hans & Hmiss & _ & _ & _ & _ & Hcarried & _).
  rewrite Hans, Hmiss, Hcarried. clear Hans Hmiss Hcarried.
  destruct (_fetch_latest_response db user_id (res_survey_slug res)) as [latest |];
    cbn [migrate answers_current]; [| done].
  pose proof (runtime_question_index _ _ _ Hrt) as Hidx.
  pose proof (build_question_index_NoDup _ _ Hidx) as Hnd.
  match goal with
  | |- context [foldl (migrate_question ?a ?o ?h ?c) no_migration ?l] =>
      destruct (migrate_fold_inv a o h c l [] no_migration) as (H1 & H2 & H3)
  end; cbn [no_migration answers_current carried_forward changed_semantics
            new_questions missing app]; try done.
  { intros q [?%elem_of_nil | [?%elem_of_nil | [?%elem_of_nil | ?%elem_of_nil]]]; done. }
  { by intros q ?%elem_of_nil. }
  cbn zeta in H1, H2, H3. intros Hq. destruct (H1 _ _ Hq) as [Hold Hc].
  split; [by exists latest |]. split; [| split].
  - exists (rt_question_index rt). split; [done |].
    assert (qid ∈ (rt_question_index rt).*1) as Hin by (apply H2; auto).
    apply list_elem_of_fmap in Hin as ([q meta] & -> & Hin).
    by eapply elem_of_dict_get.
  - by rewrite py_sorted_perm.
  - rewrite elem_of_sorted_set. by apply H3.
Qed.

(** *** The definition chosen by overlap *)

(** X29. [_choose_definition_by_overlap] returns a definition with a
    non-empty question index whose overlap with the answered codes is
    maximal among the definitions with a non-empty index, and the first
    such definition of the list; it returns [None] only when every
    definition has an empty index. *)
Theorem _choose_definition_by_overlap_best
    (answer_keys : list string) (defs : list definition_item) :
  let overlap d :=
    length (filter (λ k, k ∈ (di_question_index d).*1) answer_keys) in
  match _choose_definition_by_overlap answer_keys defs with
  | Some d =>
      ∃ i, defs !! i = Some d
           ∧ di_question_index d ≠ []
           ∧ (∀ d', d' ∈ defs → di_question_index d' ≠ [] → (overlap d' ≤ overlap d)%nat)
           ∧ (∀ j d', (j < i)%nat → defs !! j = Some d' → di_question_index d' ≠ [] →
                (overlap d' < overlap d)%nat)
  | None => ∀ d, d ∈ defs → di_question_index d = []
  end.
Proof.
  intros overlap. unfold _choose_definition_by_overlap.
  set (step := λ (acc : option definition_item * Z) d,
                 let qids := (di_question_index d).*1 in
                 if bool_decide (qids = []) then acc
                 else
                   let o := Z.of_nat (length (filter (λ k, k ∈ qids) answer_keys)) in
                   if bool_decide (acc.2 < o)%Z then (Some d, o) else acc).
  (* the state after the definitions [seen] *)
  set (inv := λ (seen : list definition_item) (acc : option definition_item * Z),
         match acc.1 with
         | Some d =>
             acc.2 = Z.of_nat (overlap d)
             ∧ ∃ i, seen !! i = Some d
                    ∧ di_question_index d ≠ []
                    ∧ (∀ d', d' ∈ seen → di_question_index d' ≠ [] →
                         (overlap d' ≤ overlap d)%nat)
                    ∧ (∀ j d', (j < i)%nat → seen !! j = Some d' →
                         di_question_index d' ≠ [] → (overlap d' < overlap d)%nat)
         | None => acc.2 = (-1)%Z ∧ ∀ d, d ∈ seen → di_question_index d = []
         end).
  assert (∀ l seen acc, inv seen acc → inv (seen ++ l) (foldl step acc l)) as Hfold.
  { induction l as [| d l IH]; intros seen acc Hinv; cbn [foldl].
    { by rewrite app_nil_r. }
    replace (seen ++ d :: l) with ((seen ++ [d]) ++ l) by (by rewrite <- (assoc_L (++))).
    apply IH. clear IH. unfold step at 1. cbn zeta.
    assert ((di_question_index d).*1 = [] ↔ di_question_index d = []) as Hnil.
    { by destruct (di_question_index d). }
    case_bool_decide as Hempty.
    { apply Hnil in Hempty. unfold inv in *. destruct acc.1 as [b |].
      - destruct Hinv as (Hscore & i & Hi & Hne & Hmax & Hfirst).
        split; [done |]. exists i. split; [by apply lookup_app_l_Some |].
        split; [done |]. split.
        + intros d' [Hd' | ->%list_elem_of_singleton]%elem_of_app; [by apply Hmax | done].
        + intros j d' Hj Hd'. apply Hfirst with j; [done |].
          apply lookup_lt_Some in Hi. by rewrite lookup_app_l in Hd' by lia.
      - destruct Hinv as [Hscore Hall]. split; [done |].
        intros d' [Hd' | ->%list_elem_of_singleton]%elem_of_app; [by apply Hall | done]. }
    assert (di_question_index d ≠ []) as Hd by (by rewrite <- Hnil).
    fold (overlap d). case_bool_decide as Hbetter; unfold inv in *; cbn [fst snd].
    - split; [done |]. exists (length seen).
      split; [by rewrite lookup_app_r, Nat.sub_diag by lia |]. split; [done |].
      destruct acc.1 as [b |].
      + destruct Hinv as (Hscore & i & Hi & Hne & Hmax & Hfirst).
        assert (overlap b < overlap d)%nat as Hlt by lia. split.
        * intros d' [Hd' | ->%list_elem_of_singleton]%elem_of_app Hne'; [| lia].
          specialize (Hmax d' Hd' Hne'). lia.
        * intros j d' Hj Hd' Hne'. rewrite lookup_app_l in Hd' by lia.
          specialize (Hmax d' (list_elem_of_lookup_2 _ _ _ Hd') Hne'). lia.
      + destruct Hinv as [Hscore Hall]. split.
        * intros d' [Hd' | ->%list_elem_of_singleton]%elem_of_app Hne'; [| lia].
          by destruct Hne'; apply Hall.
        * intros j d' Hj Hd' Hne'. rewrite lookup_app_l in Hd' by lia.
          destruct Hne'. by apply Hall, (list_elem_of_lookup_2 _ j).
    - destruct acc.1 as [b |].
      + destruct Hinv as (Hscore & i & Hi & Hne & Hmax & Hfirst).
        split; [done |]. exists i. split; [by apply lookup_app_l_Some |].
        split; [done |]. split.
        * intros d' [Hd' | ->%list_elem_of_singleton]%elem_of_app Hne'; [by apply Hmax |].
          lia.
        * intros j d' Hj Hd'. apply Hfirst with j; [done |].
          apply lookup_lt_Some in Hi. by rewrite lookup_app_l in Hd' by lia.
      + destruct Hinv as [Hscore Hall]. lia. }
  specialize (Hfold defs [] (None, (-1)%Z)). rewrite app_nil_l in Hfold.
  unfold inv in Hfold at 2.
  destruct (foldl step (None, (-1)%Z) defs).1 as [d |].
  - destruct Hfold as [_ Hd]; [| done]. split; [done |]. by intros d' ?%elem_of_nil.
  - destruct Hfold as [_ Hd]; [| done]. split; [done |]. by intros d' ?%elem_of_nil.
Qed.

(** ** Fingerprints: the order of the keys *)

Lemma ascii_compare_refl (a : ascii) : Ascii.compare a a = Eq.
Proof. unfold Ascii.compare. apply N.compare_refl. Qed.

Lemma ascii_compare_lt_trans (a b c : ascii) :
  Ascii.compare a b = Lt → Ascii.compare b c = Lt → Ascii.compare a c = Lt.
Proof.
  unfold Ascii.compare. rewrite !N.compare_lt_iff. lia.
Qed.

Lemma string_compare_lt_trans (a b c : string) :
  String.compare a b = Lt → String.compare b c = Lt → String.compare a c = Lt.
Proof.
  revert b c. induction a as [| x a IH]; intros [| y b] [| z c]; cbn; try done.
  destruct (Ascii.compare x y) eqn:Hxy, (Ascii.compare y z) eqn:Hyz; try done.
  - apply Ascii.compare_eq_iff in Hxy as ->. rewrite Hyz. apply IH.
  - apply Ascii.compare_eq_iff in Hxy as ->. by rewrite Hyz.
  - apply Ascii.compare_eq_iff in Hyz as <-. by rewrite Hxy.
  - by rewrite (ascii_compare_lt_trans _ _ _ Hxy Hyz).
Qed.

Lemma ltb_trans (a b c : string) :
  String.ltb a b = true → String.ltb b c = true → String.ltb a c = true.
Proof.
  unfold String.ltb.
  destruct (String.compare a b) eqn:Hab; try done.
  destruct (String.compare b c) eqn:Hbc; try done.
  by rewrite (string_compare_lt_trans _ _ _ Hab Hbc).
Qed.

Section key_sorted.
Context {A : Type}.

Lemma sorted_insert_key_sorted (x : string * A) (l : list (string * A)) :
  x.1 ∉ l.*1 → StronglySorted key_before l →
  StronglySorted key_before (sorted_insert key_lt x l).
Proof.
  induction l as [| y l IH]; cbn [sorted_insert fmap list_fmap].
  - intros _ _. by repeat constructor.
  - intros [Hxy Hx]%not_elem_of_cons Hs.
    apply StronglySorted_inv in Hs as [Hl Hy].
    unfold key_lt at 1. destruct (String.ltb x.1 y.1) eqn:Hlt.
    + constructor; [by constructor |]. constructor; [done |].
      eapply Forall_impl; [exact Hy |]. intros z Hz. unfold key_before in *.
      by eapply ltb_trans.
    + constructor; [by apply IH |].
      assert (key_before y x) as Hyx.
      { unfold key_before. destruct (String.ltb y.1 x.1) eqn:Hgt; [done |].
        destruct Hxy. by apply ltb_total. }
      apply Forall_forall. intros z. rewrite sorted_insert_perm.
      intros [-> | Hz]%elem_of_cons; [done |].
      rewrite Forall_forall in Hy. by apply Hy.
Qed.

Lemma py_sorted_key_sorted (l : list (string * A)) :
  NoDup l.*1 → StronglySorted key_before (py_sorted key_lt l).
Proof.
  unfold py_sorted.
  enough (∀ acc, StronglySorted key_before acc → NoDup (acc.*1 ++ l.*1) →
            StronglySorted key_before
              (foldl (λ acc x, sorted_insert key_lt x acc) acc l)) as H.
  { intros Hnd. apply (H []); [constructor | done]. }
  induction l as [| x l IH]; intros acc Hacc Hnd; cbn [foldl]; [done |].
  cbn [fmap list_fmap] in Hnd.
  apply IH.
  - apply sorted_insert_key_sorted; [| done].
    apply NoDup_app in Hnd as (_ & Hnd & _). intros Hin. apply (Hnd _ Hin).
    by apply elem_of_cons; left.
  - rewrite sorted_insert_perm. cbn [fmap list_fmap].
    by rewrite <- Permutation_middle in Hnd.
Qed.

Lemma py_sorted_key_unique (l l' : list (string * A)) :
  NoDup l.*1 → l ≡ₚ l' → py_sorted key_lt l = py_sorted key_lt l'.
Proof.
  intros Hnd Hperm.
  apply (StronglySorted_unique_strong key_before).
  - intros x y _ _ Hxy Hyx. unfold key_before in *.
    by rewrite (ltb_antisym _ _ Hxy) in Hyx.
  - by apply py_sorted_key_sorted.
  - apply py_sorted_key_sorted. by rewrite <- Hperm.
  - by rewrite !py_sorted_perm.
Qed.

Lemma dict_items_NoDup (l : list (string * A)) : NoDup l.*1 → dict_items l = l.
Proof.
  induction l as [| [k v] l IH]; cbn [dict_items fmap list_fmap fst]; [done |].
  intros [Hk Hl]%NoDup_cons. rewrite IH by done. f_equal.
  clear IH Hl. induction l as [| [k' v'] l IH]; [done |].
  cbn [fmap list_fmap fst] in Hk. apply not_elem_of_cons in Hk as [Hne Hk].
  rewrite filter_cons_True by (cbn; congruence). f_equal. by apply IH.
Qed.

End key_sorted.

Lemma normalize_entries_keys (d : list (string * pyval)) :
  (map (λ kv : string * pyval, let '(k, v) := kv in (k, _normalize v)) d).*1 = d.*1.
Proof. induction d as [| [k v] d IH]; cbn; [done |]. by rewrite <- IH. Qed.

Lemma _normalize_dict_perm (d d' : list (string * pyval)) :
  NoDup d.*1 → d ≡ₚ d' → _normalize (PDict d) = _normalize (PDict d').
Proof.
  intros Hnd Hperm. cbn [_normalize]. f_equal.
  assert (NoDup d'.*1) as Hnd' by (by rewrite <- Hperm).
  rewrite !dict_items_NoDup by (by rewrite normalize_entries_keys).
  apply py_sorted_key_unique; [by rewrite normalize_entries_keys |].
  by apply Permutation_map.
Qed.

(** X30. The fingerprint of a dictionary does not depend on the order of
    its keys: two dictionaries with the same bindings (and no key twice)
    have the same normal form, the same canonical JSON text and the same
    SHA-256 digest. *)
Theorem sha256_hex_key_order (d d' : list (string * pyval)) :
  NoDup d.*1 → d ≡ₚ d' →
  _normalize (PDict d) = _normalize (PDict d')
  ∧ canonical_json (PDict d) = canonical_json (PDict d')
  ∧ sha256_hex (PDict d) = sha256_hex (PDict d').
Proof.
  intros Hnd Hperm. pose proof (_normalize_dict_perm d d' Hnd Hperm) as Heq.
  unfold sha256_hex, canonical_json. by rewrite Heq.
Qed.

End Engine.

(** * Worked examples

    The statements above are instantiated on concrete pools, surveys and
    tables. The library functions of the Python runtime, which the
    development takes as parameters, are replaced by simple functions of
    the same types so that the model runs. *)

Definition ex_sqrt (x : Qc) : Qc := x.
Definition ex_float_of_str (s : string) : option Qc := None.
Definition ex_repr (v : pyval) : string := "".
Definition ex_int_of_str (s : string) : option Z := None.
Definition ex_isoformat (d : Z) : string := "".
Definition ex_uuid4 (n : nat) : string := String (ascii_of_nat (65 + n)) "".

Definition ex_sha256 (s : string) : N :=
  foldl (λ acc c, (acc * 257 + N_of_ascii c) mod 1000000007)%N 0%N
    (String.list_ascii_of_string s).

Fixpoint ex_json_dumps (v : pyval) : string :=
  match v with
  | PNone => "null"
  | PBool b => if b then "true" else "false"
  | PNum q => "0"
  | PStr s => "'" +:+ s +:+ "'"
  | PList l => "[" +:+ foldr (λ x acc, ex_json_dumps x +:+ "," +:+ acc) "]" l
  | PDict d =>
      "{" +:+ foldr (λ kv acc, let '(k, x) := kv in
                               k +:+ ":" +:+ ex_json_dumps x +:+ "," +:+ acc) "}" d
  end.

(** ** The state machine *)

Lemma transition_status_example :
  transition_status "revealed" "accept" 10%Z 10%Z = "expired"
  ∧ transition_status "no_match" "accept" 0%Z 10%Z = "no_match".
Proof.
  split.
  - apply (proj1 transition_status_expiry_and_terminal); [lia|by right].
  - apply (proj2 transition_status_expiry_and_terminal).
Defined.

(** ** The scorer *)

Definition ex_wants_kids : pyval := PDict [("life", PDict [("kids_intent", PStr "yes")])].
Definition ex_no_kids : pyval := PDict [("life", PDict [("kids_intent", PStr "no")])].

Lemma kids_hard_conflict_example :
  ∃ r, compute_compatibility ex_sqrt ex_float_of_str ex_repr ex_wants_kids ex_no_kids None
       = Ok r
       ∧ score_total r = 0
       ∧ gates (breakdown r) = ["kids_hard_conflict"].
Proof.
  apply (kids_hard_conflict_scores_zero ex_sqrt ex_float_of_str ex_repr
           ex_wants_kids ex_no_kids None "yes" "no").
  - reflexivity.
  - reflexivity.
  - left. split; by left.
Defined.

Definition ex_partial : list (string * pyval) :=
  [("dimensions", PDict [("stability", PStr "high")]); ("life", PNone)].


(** ** A pool of four users *)

Definition ex_user (id gender seeking : string) : user :=
  {| user_id := id;
     traits := PDict [];
     gender_identity := PStr gender;
     seeking_genders := PList [PStr seeking] |}.

Definition ex_pool : list user :=
  [ex_user "m1" "man" "woman"; ex_user "w1" "woman" "man";
   ex_user "m2" "man" "woman"; ex_user "w2" "woman" "man"].

Definition ex_blocked : gset (string * string) := {[("m1", "w2")]}.

Definition ex_cands : list MatchCandidate :=
  Eval vm_compute in
    match build_candidate_pairs ex_sqrt ex_float_of_str ex_repr ex_pool None None
            (Some ex_blocked) with
    | Ok cands => cands
    | Raise _ => []
    end.

Definition ex_prefs : gmap string (list string) :=
  Eval vm_compute in
    match _build_preference_lists Z ex_isoformat ex_sha256 ex_pool ex_cands
            0 60 None with
    | Ok prefs => prefs
    | Raise _ => ∅
    end.

Definition ex_assignments : list MatchCandidate :=
  Eval vm_compute in
    match stable_match ex_repr Z ex_isoformat ex_sha256 ex_pool ex_cands 0 60
            "stable_bipartite_if_possible" None with
    | Ok assignments => assignments
    | Raise _ => []
    end.

Lemma ex_pool_NoDup : NoDup (user_id <$> ex_pool).
Proof. apply (bool_decide_unpack _). vm_compute. exact I. Defined.

Lemma candidate_pairs_example :
  pair_ids <$> ex_cands = [("m1", "w1"); ("w1", "m2"); ("m2", "w2")]
  ∧ ∀ p, p ∈ ex_cands →
      canonical_pair (cand_user_id p) (matched_user_id p) ∉ ex_blocked.
Proof.
  assert (build_candidate_pairs ex_sqrt ex_float_of_str ex_repr ex_pool None None
            (Some ex_blocked) = Ok ex_cands) as Hcands by (vm_compute; reflexivity).
  split; [reflexivity|].
  intros p Hp.
  destruct (build_candidate_pairs_sound ex_sqrt ex_float_of_str ex_repr
              ex_pool None None (Some ex_blocked) ex_cands Hcands p Hp)
    as (_ & _ & Hblocked & _).
  exact Hblocked.
Defined.



(** ** Trait computation *)

Definition ex_question (code : string) : pyval :=
  PDict [("code", PStr code); ("text", PStr code); ("response_type", PStr "single_select");
         ("is_required", PBool true)].

Definition ex_item_q1 : pyval := PDict [("question", ex_question "Q1")].

(** [Q2] is shown only if [Q1] is answered with ["yes"]. *)
Definition ex_item_q2 : pyval :=
  PDict [("question", ex_question "Q2");
         ("rules", PList [PDict [("type", PStr "show_if");
                                 ("trigger_question_code", PStr "Q1");
                                 ("trigger_value", PStr "yes");
                                 ("operator", PStr "eq")]])].

Definition ex_survey (version : Z) (items : list pyval) : pyval :=
  PDict [("survey", PDict [("slug", PStr "match-core-v3");
                           ("version", PNum (Q2Qc (version # 1)))]);
         ("screens", PList [PDict [("key", PStr "s1"); ("items", PList items)]])].

Definition ex_answers_yes : list (string * pyval) :=
  [("Q1", PStr "yes"); ("Q2", PStr "later")].
Definition ex_answers_no : list (string * pyval) := [("Q1", PStr "no")].

Lemma compute_traits_example :
  compute_traits ex_repr ex_int_of_str (ex_survey 1 [ex_item_q1; ex_item_q2]) []
  = Raise (ValueError "missing required answers: Q1, Q2")
  ∧ not_missing_required_error
      (compute_traits ex_repr ex_int_of_str (ex_survey 1 [ex_item_q1; ex_item_q2])
         ex_answers_yes)
  ∧ not_missing_required_error
      (compute_traits ex_repr ex_int_of_str (ex_survey 2 [ex_item_q1; ex_item_q2]) []).
Proof.
  split; [|split].
  - destruct (compute_traits_required_answers ex_repr ex_int_of_str
                (ex_survey 1 [ex_item_q1; ex_item_q2]) []) as [Hcurrent _].
    destruct (Hcurrent ltac:(vm_compute; reflexivity) ["Q1"; "Q2"]
                ltac:(vm_compute; reflexivity)) as (_ & Hraise & _).
    apply Hraise. discriminate.
  - destruct (compute_traits_required_answers ex_repr ex_int_of_str
                (ex_survey 1 [ex_item_q1; ex_item_q2]) ex_answers_yes) as [Hcurrent _].
    destruct (Hcurrent ltac:(vm_compute; reflexivity) []
                ltac:(vm_compute; reflexivity)) as (_ & _ & Hok).
    by apply Hok.
  - destruct (compute_traits_required_answers ex_repr ex_int_of_str
                (ex_survey 2 [ex_item_q1; ex_item_q2]) []) as [_ Hlegacy].
    apply Hlegacy. vm_compute. reflexivity.
Defined.

(** The claim fails on both dispatch paths. On a revision other than
    version 1 the required question [Q1], which has no rule and no answer,
    raises nothing: a profile is returned. On version 1 the only
    unanswered required question, [Q2], is hidden by its rule ([Q1] is
    answered with ["no"]), and the computation still raises. *)
Lemma compute_traits_ignores_visibility_rules :
  (_is_question_visible ex_item_q1 [] = Ok true
   ∧ ∃ profile,
       compute_traits ex_repr ex_int_of_str (ex_survey 2 [ex_item_q1]) [] = Ok profile)
  ∧ (_is_question_visible ex_item_q1 ex_answers_no = Ok true
     ∧ _is_question_visible ex_item_q2 ex_answers_no = Ok false
     ∧ compute_traits ex_repr ex_int_of_str (ex_survey 1 [ex_item_q1; ex_item_q2])
         ex_answers_no
       = Raise (ValueError "missing required answers: Q2")).
Proof.
  split; [split|split; [|split]]; try (vm_compute; reflexivity).
  eexists. vm_compute. reflexivity.
Qed.

(** ** Reconciliation *)

Definition ex_kids_intent : pyval := PDict [("question", ex_question "KIDS_01")].

(** [KIDS_02] is shown only to those who want children. *)
Definition ex_kids_timeline : pyval :=
  PDict [("question", ex_question "KIDS_02");
         ("rules", PList [PDict [("type", PStr "show_if");
                                 ("trigger_question_code", PStr "KIDS_01");
                                 ("trigger_value", PList [PStr "yes"; PStr "probably"]);
                                 ("operator", PStr "in")]])].

Definition ex_screen (key : string) (items : list pyval) : pyval :=
  PDict [("key", PStr key); ("items", PList items)].

(** Revision 1 has both questions on one screen; revision 2 has one
    screen for each, in the other order. *)
Definition ex_old_def : pyval :=
  PDict [("survey", PDict [("slug", PStr "match-core-v3"); ("version", PNum 1)]);
         ("screens", PList [ex_screen "kids" [ex_kids_intent; ex_kids_timeline]])].

Definition ex_new_def : pyval :=
  PDict [("survey", PDict [("slug", PStr "match-core-v3");
                           ("version", PNum (Q2Qc (2 # 1)))]);
         ("screens", PList [ex_screen "timeline" [ex_kids_timeline];
                            ex_screen "intent" [ex_kids_intent]])].

Definition ex_definition_row (id : string) (version : Z) (active : bool)
    (json : pyval) (hash : string) : definition_row :=
  {| def_id := id; def_slug := "match-core-v3"; def_version := version;
     def_status := "published"; def_is_active := active;
     def_definition_json := json; def_definition_hash := Some hash;
     def_created_at := version |}.

Definition ex_session (id user : string) : session_row :=
  {| sess_id := id; sess_user_id := user; sess_survey_slug := "match-core-v3";
     sess_survey_version := Some 1%Z; sess_survey_hash := Some "h1";
     sess_status := "completed"; sess_completed_at := Some 5%Z;
     sess_started_at := 4%Z; sess_tenant_id := None |}.

Definition ex_answer (session code value : string) : answer_row :=
  {| ans_session_id := session; ans_question_code := code;
     ans_answer_value := PStr value |}.

(** The first user answered both questions of revision 1; the second
    does not want children and was never shown [KIDS_02]. *)
Definition ex_db : database :=
  {| survey_session := [ex_session "s1" "u1"; ex_session "s2" "u2"];
     survey_answer := [ex_answer "s1" "KIDS_01" "yes"; ex_answer "s1" "KIDS_02" "later";
                       ex_answer "s2" "KIDS_01" "no"];
     survey_definition := [ex_definition_row "d1" 1 false ex_old_def "h1";
                           ex_definition_row "d2" 2 true ex_new_def "h2"];
     survey_reconciliation_state := [] |}.

Definition ex_reconcile (db : database) (now : Z) (drawn : nat) (user : string)
    : result (reconciliation * database) :=
  reconcile_user_survey_to_current ex_repr ex_sha256 ex_uuid4 ex_int_of_str ex_json_dumps
    db ex_new_def now drawn user None.

Lemma reconcile_twice_example :
  ∃ res db1 db2,
    ex_reconcile ex_db 100 0 "u1" = Ok (res, db1)
    ∧ ex_reconcile db1 200 1 "u1" = Ok (res, db2)
    ∧ res_needs_retake res = false
    ∧ length (survey_reconciliation_state db2) = 1%nat
    ∧ rec_created_at <$> survey_reconciliation_state db2 = [100%Z].
Proof.
  edestruct (reconcile_user_survey_to_current_idempotent
               ex_repr ex_sha256 ex_uuid4 ex_int_of_str ex_json_dumps
               ex_db ex_new_def 100%Z 200%Z 0%nat 1%nat "u1" None)
    as (db2 & Hrun & _ & _ & _ & Htable & _).
  { vm_compute. reflexivity. }
  eexists _, _, db2. split; [vm_compute; reflexivity|].
  split; [exact Hrun|]. rewrite Htable.
  repeat split; vm_compute; reflexivity.
Defined.

(** The second run is no no-op: it moves [updated_at] from the time of the
    first run to its own. *)
Lemma reconcile_twice_touches_row :
  ∃ res db1 db2,
    ex_reconcile ex_db 100 0 "u1" = Ok (res, db1)
    ∧ ex_reconcile db1 200 1 "u1" = Ok (res, db2)
    ∧ rec_updated_at <$> survey_reconciliation_state db1 = [100%Z]
    ∧ rec_updated_at <$> survey_reconciliation_state db2 = [200%Z]
    ∧ db2 ≠ db1.
Proof.
  eexists _, _, _. split; [vm_compute; reflexivity|].
  split; [vm_compute; reflexivity|].
  split; [vm_compute; reflexivity|].
  split; [vm_compute; reflexivity|].
  intros Heq. apply (f_equal (λ db, rec_updated_at <$> survey_reconciliation_state db)) in Heq.
  vm_compute in Heq. discriminate.
Qed.




(** ** Further examples *)

Lemma transition_status_settled_example :
  transition_status "accepted" "decline" 0%Z 10%Z = "accepted".
Proof. apply transition_status_settled; discriminate. Defined.

Lemma score_unit_example :
  ∃ r, compute_compatibility ex_sqrt ex_float_of_str ex_repr (PDict ex_partial) PNone None
       = Ok r
       ∧ 0 ≤ score_total r ∧ score_total r ≤ 1.
Proof.
  eexists. split; [vm_compute; reflexivity |].
  apply (compute_compatibility_score_unit ex_sqrt ex_float_of_str ex_repr
           (PDict ex_partial) PNone None).
  vm_compute. reflexivity.
Defined.

Lemma gate_report_example :
  ∃ r, compute_compatibility ex_sqrt ex_float_of_str ex_repr ex_wants_kids ex_no_kids None
       = Ok r
       ∧ ((gates (breakdown r) = [] ∧ kids_hard_check (breakdown r) = true)
          ∨ ∃ gate,
              gates (breakdown r) = [gate]
              ∧ (gate = "kids_hard_conflict" ∧ kids_hard_check (breakdown r) = false
                 ∨ gate = "safety_escalation_gate"
                   ∧ kids_hard_check (breakdown r) = true)
              ∧ score_total r = 0
              ∧ categories (breakdown r) = []
              ∧ components (breakdown r) = []
              ∧ penalties (breakdown r) = []).
Proof.
  eexists. split; [vm_compute; reflexivity |].
  apply (compute_compatibility_gate_report ex_sqrt ex_float_of_str ex_repr
           ex_wants_kids ex_no_kids None).
  vm_compute. reflexivity.
Defined.

Lemma candidate_pairs_complete_example :
  ∃ comp,
    compute_compatibility ex_sqrt ex_float_of_str ex_repr (PDict []) (PDict []) None
    = Ok comp
    ∧ {| cand_user_id := "m1"; matched_user_id := "w1";
         cand_score_total := score_total comp;
         score_breakdown_of := breakdown comp |} ∈ ex_cands.
Proof.
  apply (build_candidate_pairs_complete ex_sqrt ex_float_of_str ex_repr
           ex_pool None None (Some ex_blocked) ex_cands 0 1
           (ex_user "m1" "man" "woman") (ex_user "w1" "woman" "man")).
  - vm_compute. reflexivity.
  - lia.
  - reflexivity.
  - reflexivity.
  - apply not_elem_of_empty.
  - apply (bool_decide_unpack _). vm_compute. exact I.
  - vm_compute. reflexivity.
Defined.


Lemma candidate_pairs_no_duplicates_example :
  NoDup ((λ p, canonical_pair (cand_user_id p) (matched_user_id p)) <$> ex_cands)
  ∧ ∀ p, p ∈ ex_cands → cand_user_id p ≠ matched_user_id p.
Proof.
  apply (build_candidate_pairs_no_duplicates ex_sqrt ex_float_of_str ex_repr
           ex_pool None None (Some ex_blocked) ex_cands).
  - exact ex_pool_NoDup.
  - vm_compute. reflexivity.
Defined.

Lemma preference_lists_entries_example :
  ((0 ≤ 60)%Z → (length (prefs_get ex_prefs "w1") ≤ Z.to_nat 60)%nat)
  ∧ ∀ y, y ∈ prefs_get ex_prefs "w1" →
      ∃ p, p ∈ ex_cands ∧ ¬ cand_score_total p < 0
           ∧ ((cand_user_id p = "w1" ∧ matched_user_id p = y)
              ∨ (matched_user_id p = "w1" ∧ cand_user_id p = y)).
Proof.
  apply (_build_preference_lists_entries Z ex_isoformat ex_sha256
           ex_pool ex_cands 0 60 None ex_prefs "w1").
  vm_compute. reflexivity.
Defined.

Lemma stable_match_assignments_example :
  (∀ a, a ∈ ex_assignments → a ∈ ex_cands ∧ ¬ cand_score_total a < 0)
  ∧ ∀ i j a b, (i < j)%nat → ex_assignments !! i = Some a → ex_assignments !! j = Some b →
      cand_score_total b ≤ cand_score_total a.
Proof.
  apply (stable_match_assignments ex_repr Z ex_isoformat ex_sha256
           ex_pool ex_cands 0 60 "stable_bipartite_if_possible" None ex_assignments).
  vm_compute. reflexivity.
Defined.

Lemma bipartite_match_pairs_example :
  (∀ m w, (m, w) ∈ _stable_bipartite_match ex_repr ex_pool ex_prefs →
     m ∈ ids_of_gender ex_repr ex_pool "man" ∧ w ∈ ids_of_gender ex_repr ex_pool "woman"
     ∧ w ∈ prefs_get ex_prefs m)
  ∧ (∀ m w m' w', (m, w) ∈ _stable_bipartite_match ex_repr ex_pool ex_prefs →
       (m', w') ∈ _stable_bipartite_match ex_repr ex_pool ex_prefs →
       (m = m' ↔ w = w')).
Proof. exact (_stable_bipartite_match_pairs ex_repr ex_pool ex_prefs ex_pool_NoDup). Defined.

Definition ex_pair (a b : string) (score : Qc) : MatchCandidate :=
  {| cand_user_id := a; matched_user_id := b; cand_score_total := score;
     score_breakdown_of :=
       {| kids_hard_check := true; gates := []; categories := []; components := [];
          penalties := []; extras := [] |} |}.

(** The pair of [b] and [c] scores best; it blocks the pair of [a] and
    [b], and the pair of [c] and [d] is below the threshold. *)
Definition ex_pairs : list MatchCandidate :=
  [ex_pair "a" "b" (dec 5 10); ex_pair "b" "c" (dec 9 10); ex_pair "c" "d" (dec 2 10)].

Lemma greedy_maximal_example :
  ∃ a, a ∈ greedy_one_to_one_match ex_pairs (dec 3 10)
       ∧ cand_score_total (ex_pair "a" "b" (dec 5 10)) ≤ cand_score_total a
       ∧ (cand_user_id (ex_pair "a" "b" (dec 5 10)) ∈ cand_users a
          ∨ matched_user_id (ex_pair "a" "b" (dec 5 10)) ∈ cand_users a).
Proof.
  apply (greedy_one_to_one_match_maximal ex_pairs (dec 3 10) (ex_pair "a" "b" (dec 5 10))).
  - by left.
  - intros H. vm_compute in H. discriminate.
Defined.

(** The date of a week is the number of its first day. *)
Definition ex_row (week : Z) (user : string) (matched : option string) (status : string)
    : assignment_row Z :=
  {| row_id := ""; row_week_start_date := week; row_user_id := user;
     row_matched_user_id := matched; row_score_total := None;
     row_score_breakdown := None; row_status := status; row_expires_at := 0%Z;
     row_tenant_id := "" |}.

(** Last week [m1] was matched with [w1], and [m2] had no match. *)
Definition ex_table : list (assignment_row Z) :=
  [ex_row 7 "m1" (Some "w1") "accepted"; ex_row 7 "w1" (Some "m1") "accepted";
   ex_row 7 "m2" None "no_match"].

Definition ex_recent : gset (string * string) :=
  fetch_recent_pairs Z Z.ltb Z.sub ex_table 14%Z 4%Z.

Definition ex_cands_next : list MatchCandidate :=
  Eval vm_compute in
    match build_candidate_pairs ex_sqrt ex_float_of_str ex_repr ex_pool None
            (Some ex_recent) None with
    | Ok cands => cands
    | Raise _ => []
    end.

Lemma no_rematch_example :
  ∃ p, p ∈ ex_cands_next
       ∧ was_matched_recently Z Z.ltb Z.sub ex_table (cand_user_id p) (matched_user_id p)
           14%Z 4%Z = false
       ∧ was_matched_recently Z Z.ltb Z.sub ex_table (matched_user_id p) (cand_user_id p)
           14%Z 4%Z = false.
Proof.
  eexists. split; [by left |].
  eapply (build_candidate_pairs_no_rematch ex_sqrt ex_float_of_str ex_repr Z Z.ltb Z.sub
            ex_pool None None ex_table 14%Z 4%Z ex_cands_next).
  - vm_compute. reflexivity.
  - by left.
Defined.

Lemma compute_traits_scorable_example :
  ∃ t, compute_traits ex_repr ex_int_of_str (ex_survey 2 [ex_item_q1]) [] = Ok t
       ∧ ∃ r, compute_compatibility ex_sqrt ex_float_of_str ex_repr t t None = Ok r.
Proof.
  eexists. split; [vm_compute; reflexivity |].
  apply (compute_traits_scorable ex_sqrt ex_float_of_str ex_repr ex_int_of_str
           (ex_survey 2 [ex_item_q1]) (ex_survey 2 [ex_item_q1]) [] []).
  - vm_compute. reflexivity.
  - vm_compute. reflexivity.
Defined.

Lemma v3_dimensions_example :
  ∃ t x,
    compute_traits_match_core_v3 ex_repr (ex_survey 1 [ex_item_q1; ex_item_q2])
      ex_answers_yes = Ok t
    ∧ _dim ex_float_of_str t "escalation" = Ok x
    ∧ 0 ≤ x ∧ x ≤ 1.
Proof.
  eexists _, _. split; [vm_compute; reflexivity |]. split; [vm_compute; reflexivity |].
  eapply (compute_traits_match_core_v3_dimensions ex_float_of_str ex_repr
            (ex_survey 1 [ex_item_q1; ex_item_q2]) ex_answers_yes _ "escalation").
  - vm_compute. reflexivity.
  - vm_compute. reflexivity.
Defined.

Lemma question_index_codes_example :
  ∃ index,
    build_question_index ex_repr ex_sha256 ex_json_dumps ex_new_def = Ok index
    ∧ NoDup index.*1
    ∧ ∃ items, survey_items ex_new_def = Ok items
               ∧ ∀ qid, is_Some (dict_get index qid)
                        ↔ qid ≠ "" ∧ qid ∈ item_code ex_repr <$> items.
Proof.
  eexists. split; [vm_compute; reflexivity |].
  apply (build_question_index_codes ex_repr ex_sha256 ex_json_dumps ex_new_def).
  vm_compute. reflexivity.
Defined.

Lemma reconcile_without_response_example :
  ∃ res db',
    ex_reconcile ex_db 100 0 "u3" = Ok (res, db')
    ∧ res_answers_current res = [].
Proof.
  eexists _, _. split; [vm_compute; reflexivity |].
  refine (proj1 (reconcile_without_response
                   ex_repr ex_sha256 ex_uuid4 ex_int_of_str ex_json_dumps
                   ex_db ex_new_def 100%Z 0%nat "u3" None _ _ _ _)).
  - vm_compute. reflexivity.
  - vm_compute. reflexivity.
Defined.

Lemma reconcile_answers_from_latest_example :
  ∃ res db',
    ex_reconcile ex_db 100 0 "u1" = Ok (res, db')
    ∧ "KIDS_01" ∈ report_carried_forward (res_migration_report res)
    ∧ "KIDS_01" ∉ res_missing_question_ids res.
Proof.
  eexists _, _. split; [vm_compute; reflexivity |].
  refine (proj2 (proj2 (reconcile_answers_from_latest
                   ex_repr ex_sha256 ex_uuid4 ex_int_of_str ex_json_dumps
                   ex_db ex_new_def 100%Z 0%nat "u1" None _ _ "KIDS_01" (PStr "yes") _ _))).
  - vm_compute. reflexivity.
  - vm_compute. reflexivity.
Defined.

Lemma sha256_hex_key_order_example :
  sha256_hex ex_repr ex_sha256 ex_json_dumps (PDict [("a", PNum 1); ("b", PStr "x")])
  = sha256_hex ex_repr ex_sha256 ex_json_dumps (PDict [("b", PStr "x"); ("a", PNum 1)]).
Proof.
  apply (sha256_hex_key_order ex_repr ex_sha256 ex_json_dumps
           [("a", PNum 1); ("b", PStr "x")] [("b", PStr "x"); ("a", PNum 1)]).
  - apply (bool_decide_unpack _). vm_compute. exact I.
  - apply perm_swap.
Defined.
